(** * Discord gating bot: rule evaluator, holdings adapter, price cache,
      wallet verification and reconciliation worker.

    A shallow embedding of the TypeScript sources
    ([src/rules/evaluator.ts], [src/solana/holdingsService.ts],
    [src/integrations/coingeckoClient.ts], [src/services/verifyService.ts],
    [src/services/auditService.ts], [src/worker/gatingWorker.ts]) and the
    properties of them stated by the specification. *)

From Stdlib Require Import PrimFloat FloatAxioms SpecFloat FloatOps.
From stdpp Require Import ssreflect base option list gmap strings pretty.

Set Default Proof Using "Type".
Set Warnings "-rewrite-rw".

(** ** JavaScript values

    A JS [number] is an IEEE-754 binary64 value: Rocq's primitive [float].
    [a >= b] on numbers is [PrimFloat.leb b a] (false as soon as one side is
    NaN).  Timestamps ([Date]) are milliseconds since the epoch, in [Z]. *)

Definition number := float.

Definition js_ge (a b : number) : bool := PrimFloat.leb b a.

(** [Number.isFinite] on a value that is already a number. *)
Definition isFinite (x : number) : bool :=
  negb (PrimFloat.is_nan x) && negb (PrimFloat.is_infinity x).

(** A [Prisma.Decimal] read from a [DECIMAL(38,12)] column: the unscaled
    integer, the value being [dec_unscaled / 10^12]. *)
Record Decimal := { dec_unscaled : Z }.

(** An insertion-ordered map with string keys, as a JS [Map<string, V>]:
    [set] on a key that is present keeps the key's position, [entries]
    iterates in insertion order. *)
Module JsMap.
Section JsMap.
Context {V : Type}.

Definition t := list (string * V).

Definition empty : t := [].

Fixpoint get (m : t) (k : string) : option V :=
  match m with
  | [] => None
  | (k', v) :: m' => if decide (k' = k) then Some v else get m' k
  end.

Fixpoint set (m : t) (k : string) (v : V) : t :=
  match m with
  | [] => [(k, v)]
  | (k', v') :: m' =>
      if decide (k' = k) then (k', v) :: m' else (k', v') :: set m' k v
  end.

Definition has (m : t) (k : string) : bool :=
  match get m k with Some _ => true | None => false end.

Definition entries (m : t) : list (string * V) := m.

Definition keys (m : t) : list string := m.*1.
End JsMap.
Arguments t : clear implicits.
End JsMap.

(** ** Data model (prisma schema, [types/gating]) *)

Inductive RuleType := TOKEN_AMOUNT | TOKEN_USD | NFT_COLLECTION.

Global Instance RuleType_eq_dec : EqDecision RuleType.
Proof. solve_decision. Defined.

Inductive AuditAction :=
  ROLE_ADDED | ROLE_REMOVED | VERIFY_SUCCESS | VERIFY_REPLACED | VERIFY_UNLINKED.

Global Instance AuditAction_eq_dec : EqDecision AuditAction.
Proof. solve_decision. Defined.

(** A row of [gating_rules]: wide, with nullable columns. *)
Record GatingRule := {
  rule_id : string;
  rule_guildId : string;
  rule_type : RuleType;
  rule_mint : option string;
  rule_collection : option string;
  rule_thresholdAmount : option Decimal;
  rule_thresholdUsd : option Decimal;
  rule_thresholdCount : option Z;
  rule_roleId : string;
  rule_priceAssetId : option string;
  rule_enabled : bool
}.

(** NFT counts are JS numbers that only ever hold small exact integers
    (they start at 0 and grow by 1 per asset; thresholds are 32-bit INTEGER
    columns), so they are kept in [Z]. *)
Record WalletSnapshot := {
  snap_wallet : string;
  tokenBalancesByMint : gmap string number;
  nftCountsByCollection : gmap string Z
}.

Record EvaluationResult := {
  ev_ruleId : string;
  ev_roleId : string;
  ev_satisfied : option bool;   (* [None] is JS [null]: indeterminate *)
  ev_reason : string
}.

Record RoleDecision := {
  dec_roleId : string;
  dec_shouldHave : option bool;
  dec_matchedRuleIds : list string
}.

(** ** Outcomes and errors

    A JS [Error] is identified with its message.  A call returns, throws, or
    (for the one unbounded loop of the sources, the indexer pagination) runs
    out of the fuel the model gives it. *)

Definition Error := string.

Inductive outcome (A : Type) : Type :=
| Ok (a : A)
| Throw (e : Error)
| OutOfFuel.
Arguments Ok {A} a.
Arguments Throw {A} e.
Arguments OutOfFuel {A}.

(** The reply to an HTTP or RPC request: the request itself fails, or a
    response with a status and a parsed body arrives. *)
Inductive Reply (T : Type) : Type :=
| RequestFailed (e : Error)
| Response (status : Z) (body : T).
Arguments RequestFailed {T} e.
Arguments Response {T} status body.

(** [response.ok] *)
Definition status_ok (status : Z) : bool :=
  bool_decide (200 ≤ status)%Z && bool_decide (status ≤ 299)%Z.

(** A JSON value of static type [unknown], as far as the code inspects it. *)
Inductive JsValue :=
| JsUndefined
| JsNull
| JsBool (b : bool)
| JsNumber (x : number)
| JsString (s : string)
| JsObject.

(** ** Indexer and RPC payloads ([src/solana/holdingsService.ts]) *)

(** One entry of [asset.grouping], a [Record<string, unknown>]: the four
    properties the code reads ([JsUndefined] when absent). *)
Record DasGroup := {
  group_key : JsValue;
  group_value : JsValue;
  verified : JsValue;
  collection_verified : JsValue
}.

(** [content.metadata.collection]: [{ key?: string; verified?: boolean }] *)
Record DasCollection := {
  coll_key : option string;
  coll_verified : option bool
}.

(** [DasAsset]; [asset_collection] is [asset.content?.metadata?.collection]. *)
Record DasAsset := {
  grouping : option (list DasGroup);
  asset_collection : option DasCollection
}.

(** [DasPageResponse]; [page_items] is [data.result?.items]. *)
Record DasPageResponse := { page_items : option (list DasAsset) }.

(** An element of [accounts.value]: [account.account.data.parsed]. *)
Record ParsedTokenData := {
  parsed_type : string;
  info_mint : string;
  info_uiAmount : option number   (* [info.tokenAmount?.uiAmount], null as [None] *)
}.

Record TokenAccount := { parsed : option ParsedTokenData }.

(** ** Verification tokens *)

Record VerifyTokenPayload := {
  vp_guildId : string;
  vp_discordUserId : string;
  vp_sessionId : string
}.

(** What [jwt.verify] hands back: it throws, or returns a string payload, or
    an object whose three claims may be missing. *)
Inductive JwtDecoded :=
| JwtThrows (e : Error)
| JwtStringPayload
| JwtObjectPayload (guildId discordUserId sessionId : option string).

(** ** Chat platform objects (discord.js) *)

Record Role := { role_id : string; role_position : Z }.

(** The bot's own member: [permissions.has(ManageRoles)] and [roles.highest]. *)
Record BotMember := { bot_manageRoles : bool; bot_highest : Role }.

(** A fetched [Guild]; [guild_me] is [guild.members.me]. *)
Record Guild := { guild_id : string; guild_me : option BotMember }.

(** A fetched [GuildMember]; [member_roles] are the ids in [member.roles.cache]. *)
Record GuildMember := { member_id : string; member_roles : list string }.

(** ** The environment

    What the code takes from libraries and from remote services.  Remote
    replies are indexed by the attempt number inside [withRetry]. *)
Record Env := {
  (* decimal.js / template strings *)
  decimalToNumber : Decimal -> number;        (* [Number(d)] *)
  numberToDecimal : number -> Decimal;        (* [new Prisma.Decimal(x)], as stored *)
  showNumber : number -> string;              (* [`${x}`] *)
  (* jsonwebtoken, bs58, tweetnacl *)
  jwt_verify : string -> Z -> JwtDecoded;     (* token, current time *)
  bs58_decode : string -> option (list Z);    (* [None]: throws *)
  nacl_verify : string -> list Z -> list Z -> bool;
  (* chain RPC and indexer *)
  rpcTokenAccounts : string -> nat -> Reply (list TokenAccount);
  dasAssetsByOwner : string -> Z -> nat -> Reply DasPageResponse;
  (* price provider: the [usd] property of each id of the JSON body *)
  coingeckoSimplePrice : list string -> Reply (gmap string JsValue);
  (* chat platform *)
  comparePositionTo : Role -> Role -> Z;
  roleRequestError : string -> string -> string -> option Error
}.

(** ** Rule evaluator ([src/rules/evaluator.ts]) *)

Section Evaluator.
Variable E : Env.

(** [Number(x ?? 0)] for a nullable decimal column. *)
Definition numberOrZero (x : option Decimal) : number :=
  match x with Some d => decimalToNumber E d | None => 0%float end.

Definition evaluateTokenAmount (rule : GatingRule) (snapshot : WalletSnapshot)
  : EvaluationResult :=
  let threshold := numberOrZero (rule_thresholdAmount rule) in
  let mint := default "" (rule_mint rule) in
  let balance := default 0%float (tokenBalancesByMint snapshot !! mint) in
  let satisfied := js_ge balance threshold in
  {| ev_ruleId := rule_id rule;
     ev_roleId := rule_roleId rule;
     ev_satisfied := Some satisfied;
     ev_reason := "TOKEN_AMOUNT balance=" +:+ showNumber E balance +:+
                  " threshold=" +:+ showNumber E threshold +:+ " mint=" +:+ mint |}.

Definition evaluateTokenUsd (rule : GatingRule) (snapshot : WalletSnapshot)
    (pricesUsdByAssetId : gmap string number) : EvaluationResult :=
  let thresholdUsd := numberOrZero (rule_thresholdUsd rule) in
  let mint := default "" (rule_mint rule) in
  let balance := default 0%float (tokenBalancesByMint snapshot !! mint) in
  let assetId := default "" (rule_priceAssetId rule) in
  match pricesUsdByAssetId !! assetId with
  | None =>
      {| ev_ruleId := rule_id rule;
         ev_roleId := rule_roleId rule;
         ev_satisfied := None;
         ev_reason := "TOKEN_USD indeterminate missing price asset=" +:+ assetId |}
  | Some price =>
      let valueUsd := PrimFloat.mul balance price in
      let satisfied := js_ge valueUsd thresholdUsd in
      {| ev_ruleId := rule_id rule;
         ev_roleId := rule_roleId rule;
         ev_satisfied := Some satisfied;
         ev_reason := "TOKEN_USD balance=" +:+ showNumber E balance +:+
                      " price=" +:+ showNumber E price +:+
                      " value=" +:+ showNumber E valueUsd +:+
                      " threshold=" +:+ showNumber E thresholdUsd +:+
                      " mint=" +:+ mint |}
  end.

Definition evaluateNftCollection (rule : GatingRule) (snapshot : WalletSnapshot)
  : EvaluationResult :=
  let thresholdCount := default 0%Z (rule_thresholdCount rule) in
  let collection := default "" (rule_collection rule) in
  let count := default 0%Z (nftCountsByCollection snapshot !! collection) in
  let satisfied := bool_decide (thresholdCount ≤ count)%Z in
  {| ev_ruleId := rule_id rule;
     ev_roleId := rule_roleId rule;
     ev_satisfied := Some satisfied;
     ev_reason := "NFT_COLLECTION count=" +:+ pretty count +:+
                  " threshold=" +:+ pretty thresholdCount +:+
                  " collection=" +:+ collection |}.

(** The two [if (rule.type === ...)] tests, then the fall-through. *)
Definition evaluateRule (rule : GatingRule) (snapshot : WalletSnapshot)
    (pricesUsdByAssetId : gmap string number) : EvaluationResult :=
  if decide (rule_type rule = TOKEN_AMOUNT) then
    evaluateTokenAmount rule snapshot
  else if decide (rule_type rule = TOKEN_USD) then
    evaluateTokenUsd rule snapshot pricesUsdByAssetId
  else
    evaluateNftCollection rule snapshot.

Definition evaluateRules (rules : list GatingRule) (snapshot : WalletSnapshot)
    (pricesUsdByAssetId : gmap string number) : list EvaluationResult :=
  map (fun rule => evaluateRule rule snapshot pricesUsdByAssetId) rules.
End Evaluator.

(** [byRole]: the grouping loop of [computeRoleDecisions]. *)
Definition groupByRole (evaluations : list EvaluationResult)
  : JsMap.t (list EvaluationResult) :=
  fold_left
    (fun byRole evaluation =>
       let list := default [] (JsMap.get byRole (ev_roleId evaluation)) in
       JsMap.set byRole (ev_roleId evaluation) (list ++ [evaluation]))
    evaluations JsMap.empty.

Definition isTrue (e : EvaluationResult) : bool :=
  match ev_satisfied e with Some true => true | _ => false end.

Definition isNull (e : EvaluationResult) : bool :=
  match ev_satisfied e with None => true | _ => false end.

Definition decideRole (entry : string * list EvaluationResult) : RoleDecision :=
  let '(roleId, evals) := entry in
  let hasTrue := existsb isTrue evals in
  let hasNull := existsb isNull evals in
  let shouldHave :=
    if hasTrue then Some true else if hasNull then None else Some false in
  {| dec_roleId := roleId;
     dec_shouldHave := shouldHave;
     dec_matchedRuleIds := map ev_ruleId (List.filter isTrue evals) |}.

Definition computeRoleDecisions (evaluations : list EvaluationResult)
  : list RoleDecision :=
  map decideRole (JsMap.entries (groupByRole evaluations)).


(** ** Retry helper ([src/utils/async.ts]) *)

(** [withRetry(fn, delaysMs)]: attempt [i] runs [fn]; a throw is kept as
    [lastError], followed by a sleep and attempt [i + 1] while
    [i < delaysMs.length]; after the last attempt [lastError] is thrown. *)
Fixpoint retryFrom {T : Type} (fn : nat -> outcome T) (i remaining : nat)
  : outcome T :=
  match fn i with
  | Ok v => Ok v
  | OutOfFuel => OutOfFuel
  | Throw lastError =>
      match remaining with
      | O => Throw lastError
      | S remaining' => retryFrom fn (S i) remaining'
      end
  end.

Definition defaultDelaysMs : list Z := [250; 750; 1750]%Z.

Definition withRetry {T : Type} (fn : nat -> outcome T) (delaysMs : list Z)
  : outcome T :=
  retryFrom fn 0 (length delaysMs).

(** ** Chain-holdings adapter ([src/solana/holdingsService.ts]) *)

Definition isStrictlyTrue (v : JsValue) : bool :=
  match v with JsBool true => true | _ => false end.

(** The body of the [for (const group of grouping)] loop: the value the loop
    returns at this entry, if it returns. *)
Definition verifiedGroupValue (group : DasGroup) : option string :=
  match group_key group, group_value group with
  | JsString key, JsString value =>
      if bool_decide (key = "collection")
         && (isStrictlyTrue (verified group)
             || isStrictlyTrue (collection_verified group))
      then Some value
      else None
  | _, _ => None
  end.

Fixpoint firstVerifiedGroupValue (grouping : list DasGroup) : option string :=
  match grouping with
  | [] => None
  | group :: rest =>
      match verifiedGroupValue group with
      | Some value => Some value
      | None => firstVerifiedGroupValue rest
      end
  end.

(** [collection?.verified && collection.key], taken as a condition. *)
Definition verifiedMetadataKey (collection : option DasCollection)
  : option string :=
  match collection with
  | Some c =>
      match coll_verified c, coll_key c with
      | Some true, Some key => if bool_decide (key = "") then None else Some key
      | _, _ => None
      end
  | None => None
  end.

(** [None] is the [null] result. *)
Definition extractVerifiedCollectionAddress (asset : DasAsset) : option string :=
  match firstVerifiedGroupValue (default [] (grouping asset)) with
  | Some value => Some value
  | None => verifiedMetadataKey (asset_collection asset)
  end.

(** One turn of the [for (const item of items)] loop; [if (!collection)]
    skips [null] and the empty string. *)
Definition countItem (counts : gmap string Z) (item : DasAsset) : gmap string Z :=
  match extractVerifiedCollectionAddress item with
  | None => counts
  | Some collection =>
      if bool_decide (collection = "") then counts
      else <[collection := (default 0 (counts !! collection) + 1)%Z]> counts
  end.

Definition countItems (counts : gmap string Z) (items : list DasAsset)
  : gmap string Z :=
  fold_left countItem items counts.

Definition pageLimit : nat := 1000.

Section Holdings.
Variable E : Env.

(** The request of one page, as passed to [withRetry]. *)
Definition fetchDasPage (owner : string) (page : Z) (attempt : nat)
  : outcome DasPageResponse :=
  match dasAssetsByOwner E owner page attempt with
  | RequestFailed e => Throw e
  | Response status body =>
      if status_ok status then Ok body
      else Throw ("DAS request failed with status " +:+ pretty status)
  end.

(** The [while (true)] loop, from page [page] with the counts so far. *)
Fixpoint fetchNftPages (fuel : nat) (owner : string) (page : Z)
    (counts : gmap string Z) : outcome (gmap string Z) :=
  match fuel with
  | O => OutOfFuel
  | S fuel' =>
      match withRetry (fetchDasPage owner page) defaultDelaysMs with
      | Ok data =>
          let items := default [] (page_items data) in
          let counts' := countItems counts items in
          if bool_decide (length items < pageLimit) then Ok counts'
          else fetchNftPages fuel' owner (page + 1)%Z counts'
      | Throw e => Throw e
      | OutOfFuel => OutOfFuel
      end
  end.

Definition fetchNftCountsByCollection (fuel : nat) (owner : string)
  : outcome (gmap string Z) :=
  fetchNftPages fuel owner 1%Z ∅.

Definition addTokenAccount (balances : gmap string number) (account : TokenAccount)
  : gmap string number :=
  match parsed account with
  | None => balances
  | Some p =>
      if bool_decide (parsed_type p = "account") then
        let uiAmount := default 0%float (info_uiAmount p) in
        let prev := default 0%float (balances !! info_mint p) in
        <[info_mint p := PrimFloat.add prev uiAmount]> balances
      else balances
  end.

Definition fetchTokenBalances (owner : string) : outcome (gmap string number) :=
  match withRetry
          (fun attempt =>
             match rpcTokenAccounts E owner attempt with
             | RequestFailed e => Throw e
             | Response _ accounts => Ok accounts
             end)
          defaultDelaysMs with
  | Ok accounts => Ok (fold_left addTokenAccount accounts ∅)
  | Throw e => Throw e
  | OutOfFuel => OutOfFuel
  end.

(** [new PublicKey(wallet)]: a base58 string of 32 bytes, or it throws: the
    error of [bs58.decode] for a string that is not base58, its own for
    another length. *)
Definition newPublicKey (wallet : string) : outcome string :=
  match bs58_decode E wallet with
  | Some bytes =>
      if bool_decide (length bytes = 32) then Ok wallet
      else Throw "Invalid public key input"
  | None => Throw "Non-base58 character"
  end.

Definition getWalletSnapshot (fuel : nat) (wallet : string)
    (includeTokenBalances includeNftCounts : bool) : outcome WalletSnapshot :=
  match newPublicKey wallet with
  | Ok owner =>
      match (if includeTokenBalances then fetchTokenBalances owner else Ok ∅) with
      | Ok tokenBalances =>
          match (if includeNftCounts then fetchNftCountsByCollection fuel wallet
                 else Ok ∅) with
          | Ok nftCounts =>
              Ok {| snap_wallet := wallet;
                    tokenBalancesByMint := tokenBalances;
                    nftCountsByCollection := nftCounts |}
          | Throw e => Throw e
          | OutOfFuel => OutOfFuel
          end
      | Throw e => Throw e
      | OutOfFuel => OutOfFuel
      end
  | Throw e => Throw e
  | OutOfFuel => OutOfFuel
  end.
End Holdings.

(** ** Persistent state and the chat platform *)

Record WalletLink := {
  wl_id : string;
  wl_guildId : string;
  wl_discordUserId : string;
  wl_walletPubkey : string;
  wl_verifiedAt : Z;
  wl_lastCheckedAt : option Z
}.

Record VerifySession := {
  vs_id : string;
  vs_guildId : string;
  vs_discordUserId : string;
  vs_nonce : string;
  vs_challengeMessage : string;
  vs_expiresAt : Z;
  vs_usedAt : option Z
}.

Record AuditLog := {
  al_id : string;
  al_timestamp : Z;
  al_guildId : string;
  al_discordUserId : string;
  al_ruleId : option string;
  al_roleId : string;
  al_action : AuditAction;
  al_reason : string
}.

Record PriceCache := {
  pc_assetId : string;
  pc_priceUsd : Decimal;
  pc_fetchedAt : Z
}.

(** A guild as the chat platform holds it: the bot member the client has
    cached, the reply to [members.fetchMe()], the roles by id and the role
    ids of each member. *)
Record GuildState := {
  gs_me : option BotMember;
  gs_fetchMe : Error + BotMember;
  gs_roles : gmap string Role;
  gs_members : gmap string (list string)
}.

(** A role request the chat platform accepted. *)
Inductive RoleCall :=
| RoleAdd (guildId discordUserId roleId : string)
| RoleRemove (guildId discordUserId roleId : string).

(** The database tables (rows in insertion order), the chat platform, the
    clock, and two logs of outbound requests: the role requests the platform
    accepted and the id lists sent to the price provider. *)
Record World := {
  clock : Z;
  next_id : N;
  gating_rules : list GatingRule;
  wallet_links : list WalletLink;
  verify_sessions : list VerifySession;
  audit_log : list AuditLog;
  price_cache : list PriceCache;
  discord : gmap string GuildState;
  role_calls : list RoleCall;
  price_calls : list (list string)
}.

Definition with_next_id (n : N) (w : World) : World :=
  {| clock := clock w; next_id := n; gating_rules := gating_rules w;
     wallet_links := wallet_links w; verify_sessions := verify_sessions w;
     audit_log := audit_log w; price_cache := price_cache w;
     discord := discord w; role_calls := role_calls w;
     price_calls := price_calls w |}.

Definition with_wallet_links (l : list WalletLink) (w : World) : World :=
  {| clock := clock w; next_id := next_id w; gating_rules := gating_rules w;
     wallet_links := l; verify_sessions := verify_sessions w;
     audit_log := audit_log w; price_cache := price_cache w;
     discord := discord w; role_calls := role_calls w;
     price_calls := price_calls w |}.

Definition with_verify_sessions (l : list VerifySession) (w : World) : World :=
  {| clock := clock w; next_id := next_id w; gating_rules := gating_rules w;
     wallet_links := wallet_links w; verify_sessions := l;
     audit_log := audit_log w; price_cache := price_cache w;
     discord := discord w; role_calls := role_calls w;
     price_calls := price_calls w |}.

Definition with_audit_log (l : list AuditLog) (w : World) : World :=
  {| clock := clock w; next_id := next_id w; gating_rules := gating_rules w;
     wallet_links := wallet_links w; verify_sessions := verify_sessions w;
     audit_log := l; price_cache := price_cache w;
     discord := discord w; role_calls := role_calls w;
     price_calls := price_calls w |}.

Definition with_price_cache (l : list PriceCache) (w : World) : World :=
  {| clock := clock w; next_id := next_id w; gating_rules := gating_rules w;
     wallet_links := wallet_links w; verify_sessions := verify_sessions w;
     audit_log := audit_log w; price_cache := l;
     discord := discord w; role_calls := role_calls w;
     price_calls := price_calls w |}.

Definition with_discord (d : gmap string GuildState) (w : World) : World :=
  {| clock := clock w; next_id := next_id w; gating_rules := gating_rules w;
     wallet_links := wallet_links w; verify_sessions := verify_sessions w;
     audit_log := audit_log w; price_cache := price_cache w;
     discord := d; role_calls := role_calls w;
     price_calls := price_calls w |}.

Definition with_role_calls (l : list RoleCall) (w : World) : World :=
  {| clock := clock w; next_id := next_id w; gating_rules := gating_rules w;
     wallet_links := wallet_links w; verify_sessions := verify_sessions w;
     audit_log := audit_log w; price_cache := price_cache w;
     discord := discord w; role_calls := l;
     price_calls := price_calls w |}.

Definition with_price_calls (l : list (list string)) (w : World) : World :=
  {| clock := clock w; next_id := next_id w; gating_rules := gating_rules w;
     wallet_links := wallet_links w; verify_sessions := verify_sessions w;
     audit_log := audit_log w; price_cache := price_cache w;
     discord := discord w; role_calls := role_calls w;
     price_calls := l |}.

(** ** The monad of one uninterrupted run

    State passing over [World] with the three outcomes.  The state reached
    when a call throws is kept: what was written before the throw stays
    written. *)
Definition M (A : Type) : Type := World -> outcome A * World.

Definition ret {A : Type} (a : A) : M A := fun w => (Ok a, w).

Definition throw {A : Type} (e : Error) : M A := fun w => (Throw e, w).

Definition bind {A B : Type} (m : M A) (k : A -> M B) : M B :=
  fun w =>
    match m w with
    | (Ok a, w') => k a w'
    | (Throw e, w') => (Throw e, w')
    | (OutOfFuel, w') => (OutOfFuel, w')
    end.

Declare Scope M_scope.
Delimit Scope M_scope with M.
Notation "'let!' x ':=' m 'in' k" := (bind m (fun x => k))
  (at level 10, x pattern, m at level 100, k at level 200) : M_scope.
Notation "m ';;' k" := (bind m (fun _ => k))
  (at level 100, k at level 200, right associativity) : M_scope.
Open Scope M_scope.

(** [try { m } catch (error) { handler }] *)
Definition try_catch {A : Type} (m : M A) (handler : Error -> M A) : M A :=
  fun w =>
    match m w with
    | (Throw e, w') => handler e w'
    | r => r
    end.

(** [promise.catch(() => null)] *)
Definition catch_null {A : Type} (m : M A) : M (option A) :=
  fun w =>
    match m w with
    | (Ok a, w') => (Ok (Some a), w')
    | (Throw _, w') => (Ok None, w')
    | (OutOfFuel, w') => (OutOfFuel, w')
    end.

Definition lift {A : Type} (o : outcome A) : M A := fun w => (o, w).

Definition get_world : M World := fun w => (Ok w, w).

Definition modify (f : World -> World) : M unit := fun w => (Ok tt, f w).

(** [Date.now()] / [new Date()] *)
Definition now : M Z := fun w => (Ok (clock w), w).

(** The default of an id column ([cuid()]): a fresh identifier. *)
Definition fresh_id : M string :=
  fun w => (Ok ("c" +:+ pretty (next_id w)), with_next_id (N.succ (next_id w)) w).

Fixpoint for_each {A : Type} (l : list A) (body : A -> M unit) : M unit :=
  match l with
  | [] => ret tt
  | x :: rest => body x ;; for_each rest body
  end.

(** ** Audit service ([src/services/auditService.ts]) *)

Record AuditInput := {
  ai_guildId : string;
  ai_discordUserId : string;
  ai_roleId : string;
  ai_action : AuditAction;
  ai_reason : string;
  ai_ruleId : option string
}.

(** [prisma.auditLog.create]: id and timestamp take their column defaults. *)
Definition writeAuditLog (input : AuditInput) : M unit :=
  let! id := fresh_id in
  let! timestamp := now in
  modify (fun w =>
    with_audit_log
      (audit_log w ++
       [{| al_id := id; al_timestamp := timestamp;
           al_guildId := ai_guildId input;
           al_discordUserId := ai_discordUserId input;
           al_ruleId := ai_ruleId input;
           al_roleId := ai_roleId input;
           al_action := ai_action input;
           al_reason := ai_reason input |}]) w).

(** ** Price cache ([src/integrations/coingeckoClient.ts]) *)

(** [[...new Set(ids)]]: first occurrences, in order. *)
Definition uniqueInOrder (ids : list string) : list string :=
  fold_left (fun seen id => if bool_decide (id ∈ seen) then seen else seen ++ [id])
            ids [].

(** [Boolean(s)] for a string. *)
Definition nonEmpty (s : string) : bool := negb (bool_decide (s = "")).

(** [prisma.priceCache.upsert({ where: { assetId } ... })] *)
Definition upsertPriceCache (update : PriceCache) : M unit :=
  modify (fun w =>
    let rows := price_cache w in
    with_price_cache
      (if bool_decide (pc_assetId update ∈ map pc_assetId rows) then
         map (fun row =>
                if bool_decide (pc_assetId row = pc_assetId update)
                then {| pc_assetId := pc_assetId row;
                        pc_priceUsd := pc_priceUsd update;
                        pc_fetchedAt := pc_fetchedAt update |}
                else row) rows
       else rows ++ [update]) w).

(** [fetch(url)] of the price provider with the ids joined in the query; the
    request is logged whether or not it succeeds. *)
Definition fetchSimplePrice (E : Env) (ids : list string)
  : M (gmap string JsValue) :=
  modify (fun w => with_price_calls (price_calls w ++ [ids]) w) ;;
  match coingeckoSimplePrice E ids with
  | RequestFailed e => throw e
  | Response status json =>
      if status_ok status then ret json
      else throw ("CoinGecko request failed with status " +:+ pretty status)
  end.

(** The [for (const id of missing)] loop: the result map and the updates. *)
Definition collectQuote (E : Env) (json : gmap string JsValue) (fetchedAt : Z)
    (acc : gmap string number * list PriceCache) (id : string)
  : gmap string number * list PriceCache :=
  match json !! id with
  | Some (JsNumber price) =>
      if isFinite price then
        (<[id := price]> (acc.1),
         acc.2 ++ [{| pc_assetId := id;
                      pc_priceUsd := numberToDecimal E price;
                      pc_fetchedAt := fetchedAt |}])
      else acc
  | _ => acc
  end.

Definition getUsdPrices (E : Env) (ttlSeconds : Z) (assetIds : list string)
  : M (gmap string number) :=
  let uniqueIds := uniqueInOrder (List.filter nonEmpty assetIds) in
  if bool_decide (length uniqueIds = 0) then ret ∅
  else
    let! now_ := now in
    let ttlStart := (now_ - ttlSeconds * 1000)%Z in
    let! w := get_world in
    let cached :=
      List.filter
        (fun row => bool_decide (pc_assetId row ∈ uniqueIds)
                    && bool_decide (ttlStart ≤ pc_fetchedAt row)%Z)
        (price_cache w) in
    let result : gmap string number :=
      fold_left
        (fun result row => <[pc_assetId row := decimalToNumber E (pc_priceUsd row)]> result)
        cached ∅ in
    let missing :=
      List.filter (fun id => negb (bool_decide (is_Some (result !! id)))) uniqueIds in
    if bool_decide (length missing = 0) then ret result
    else
      let! json := fetchSimplePrice E missing in
      let '(result', updates) :=
        fold_left (collectQuote E json now_) missing (result, []) in
      for_each updates upsertPriceCache ;;
      ret result'.

(** ** Asynchronous functions

    An [async] function runs without interruption between two [await]s.  A
    [Task] makes the [await]s explicit: each [Await] carries the uninterrupted
    block that ends with the awaited operation, and the continuation that
    receives its result.  [run] is the function called alone; [runInterleaved]
    runs two calls on the shared state under a schedule. *)
Inductive Task (A : Type) : Type :=
| Done (o : outcome A)
| Await {X : Type} (op : M X) (k : X -> Task A).
Arguments Done {A} o.
Arguments Await {A X} op k.

Fixpoint run {A : Type} (t : Task A) : M A :=
  match t with
  | Done o => lift o
  | Await op k =>
      fun w =>
        match op w with
        | (Ok x, w') => run (k x) w'
        | (Throw e, w') => (Throw e, w')
        | (OutOfFuel, w') => (OutOfFuel, w')
        end
  end.

(** One uninterrupted block of a task. *)
Definition step {A : Type} (t : Task A) (w : World) : Task A * World :=
  match t with
  | Done o => (Done o, w)
  | Await op k =>
      match op w with
      | (Ok x, w') => (k x, w')
      | (Throw e, w') => (Done (Throw e), w')
      | (OutOfFuel, w') => (Done OutOfFuel, w')
      end
  end.

(** [true] lets the first task take its next block, [false] the second. *)
Fixpoint runInterleaved {A B : Type} (schedule : list bool)
    (t1 : Task A) (t2 : Task B) (w : World) : Task A * Task B * World :=
  match schedule with
  | [] => (t1, t2, w)
  | true :: schedule' =>
      let '(t1', w') := step t1 w in runInterleaved schedule' t1' t2 w'
  | false :: schedule' =>
      let '(t2', w') := step t2 w in runInterleaved schedule' t1 t2' w'
  end.

(** ** Verification service ([src/services/verifyService.ts]) *)

Definition decodeVerifyToken (E : Env) (token : string) : M VerifyTokenPayload :=
  let! now_ := now in
  match jwt_verify E token now_ with
  | JwtThrows e => throw e
  | JwtStringPayload => throw "Invalid verify token payload"
  | JwtObjectPayload (Some guildId) (Some discordUserId) (Some sessionId) =>
      if nonEmpty guildId && nonEmpty discordUserId && nonEmpty sessionId then
        ret {| vp_guildId := guildId;
               vp_discordUserId := discordUserId;
               vp_sessionId := sessionId |}
      else throw "Missing verify token claims"
  | JwtObjectPayload _ _ _ => throw "Missing verify token claims"
  end.

(** [prisma.verifySession.findUnique({ where: { id } })] *)
Definition findVerifySession (id : string) : M (option VerifySession) :=
  fun w => (Ok (find (fun s => bool_decide (vs_id s = id)) (verify_sessions w)), w).

(** [prisma.walletLink.findUnique({ where: { guildId_discordUserId } })] *)
Definition findWalletLink (guildId discordUserId : string) : M (option WalletLink) :=
  fun w =>
    (Ok (find (fun l => bool_decide (wl_guildId l = guildId)
                        && bool_decide (wl_discordUserId l = discordUserId))
              (wallet_links w)), w).

Definition markUsed (usedAt : Z) (s : VerifySession) : VerifySession :=
  {| vs_id := vs_id s; vs_guildId := vs_guildId s;
     vs_discordUserId := vs_discordUserId s; vs_nonce := vs_nonce s;
     vs_challengeMessage := vs_challengeMessage s;
     vs_expiresAt := vs_expiresAt s; vs_usedAt := Some usedAt |}.

(** [prisma.verifySession.update({ where: { id }, data: { usedAt: new Date() } })]:
    unconditional on the row's current [usedAt]; throws when no row has the id. *)
Definition updateSessionUsedAt (id : string) : M unit :=
  let! usedAt := now in
  let! w := get_world in
  if existsb (fun s => bool_decide (vs_id s = id)) (verify_sessions w) then
    modify (with_verify_sessions
      (map (fun s => if bool_decide (vs_id s = id) then markUsed usedAt s else s)
           (verify_sessions w)))
  else throw "Record to update not found".

(** [prisma.walletLink.upsert] on the unique key [(guildId, discordUserId)] *)
Definition upsertWalletLink (guildId discordUserId walletPubkey : string) : M unit :=
  let! verifiedAt := now in
  let! w := get_world in
  let same l := bool_decide (wl_guildId l = guildId)
                && bool_decide (wl_discordUserId l = discordUserId) in
  if existsb same (wallet_links w) then
    modify (with_wallet_links
      (map (fun l =>
              if same l then
                {| wl_id := wl_id l; wl_guildId := wl_guildId l;
                   wl_discordUserId := wl_discordUserId l;
                   wl_walletPubkey := walletPubkey;
                   wl_verifiedAt := verifiedAt;
                   wl_lastCheckedAt := wl_lastCheckedAt l |}
              else l)
           (wallet_links w)))
  else
    let! id := fresh_id in
    modify (fun w' => with_wallet_links
      (wallet_links w' ++
       [{| wl_id := id; wl_guildId := guildId;
           wl_discordUserId := discordUserId;
           wl_walletPubkey := walletPubkey;
           wl_verifiedAt := verifiedAt;
           wl_lastCheckedAt := None |}]) w').

(** [prisma.walletLink.delete({ where: { id } })] *)
Definition deleteWalletLink (id : string) : M unit :=
  let! w := get_world in
  if existsb (fun l => bool_decide (wl_id l = id)) (wallet_links w) then
    modify (with_wallet_links
      (List.filter (fun l => negb (bool_decide (wl_id l = id))) (wallet_links w)))
  else throw "Record to delete does not exist".

Record SubmitInput := {
  si_token : string;
  si_walletPubkey : string;
  si_signatureBase58 : string
}.

Record SubmitResult := {
  sr_guildId : string;
  sr_discordUserId : string;
  sr_replaced : bool
}.

(** The synchronous checks between the session lookup and the wallet-link
    lookup: used, expired, base58 decoding, Ed25519 verification. *)
Definition checkSessionAndSignature (E : Env) (session : VerifySession)
    (input : SubmitInput) : M unit :=
  if bool_decide (is_Some (vs_usedAt session)) then
    throw "Verify session already used"
  else
    let! now_ := now in
    if bool_decide (vs_expiresAt session < now_)%Z then
      throw "Verify session expired"
    else
      match bs58_decode E (si_signatureBase58 input),
            bs58_decode E (si_walletPubkey input) with
      | Some signatureBytes, Some pubkeyBytes =>
          if negb (bool_decide (length signatureBytes = 64)) then
            throw "bad signature size"
          else if negb (bool_decide (length pubkeyBytes = 32)) then
            throw "bad public key size"
          else if nacl_verify E (vs_challengeMessage session)
                               signatureBytes pubkeyBytes
          then ret tt
          else throw "Invalid wallet signature"
      | _, _ => throw "Non-base58 character"
      end.

Definition submitVerifySignature (E : Env) (input : SubmitInput)
  : Task SubmitResult :=
  Await (let! payload := decodeVerifyToken E (si_token input) in
         findVerifySession (vp_sessionId payload))
  (fun found =>
  match found with
  | None => Done (Throw "Verify session not found")
  | Some session =>
  Await (checkSessionAndSignature E session input ;;
         findWalletLink (vs_guildId session) (vs_discordUserId session))
  (fun existing =>
  Await (updateSessionUsedAt (vs_id session))
  (fun _ =>
  Await (upsertWalletLink (vs_guildId session) (vs_discordUserId session)
                          (si_walletPubkey input))
  (fun _ =>
  let replaced :=
    match existing with
    | Some link => negb (bool_decide (wl_walletPubkey link = si_walletPubkey input))
    | None => false
    end in
  Await (writeAuditLog
           {| ai_guildId := vs_guildId session;
              ai_discordUserId := vs_discordUserId session;
              ai_roleId := "-";
              ai_action := if replaced then VERIFY_REPLACED else VERIFY_SUCCESS;
              ai_reason :=
                if replaced then
                  "wallet replaced " +:+
                  from_option wl_walletPubkey "undefined" existing +:+
                  " -> " +:+ si_walletPubkey input
                else "wallet verified " +:+ si_walletPubkey input;
              ai_ruleId := None |})
  (fun _ =>
  Done (Ok {| sr_guildId := vs_guildId session;
              sr_discordUserId := vs_discordUserId session;
              sr_replaced := replaced |})))))
  end).

Record UnlinkResult := {
  ur_deleted : bool;
  ur_wallet : option string
}.

Definition unlinkWallet (guildId discordUserId : string) : Task UnlinkResult :=
  Await (findWalletLink guildId discordUserId)
  (fun found =>
  match found with
  | None => Done (Ok {| ur_deleted := false; ur_wallet := None |})
  | Some existing =>
  Await (deleteWalletLink (wl_id existing))
  (fun _ =>
  Await (writeAuditLog
           {| ai_guildId := guildId;
              ai_discordUserId := discordUserId;
              ai_roleId := "-";
              ai_action := VERIFY_UNLINKED;
              ai_reason := "wallet unlinked " +:+ wl_walletPubkey existing;
              ai_ruleId := None |})
  (fun _ =>
  Done (Ok {| ur_deleted := true; ur_wallet := Some (wl_walletPubkey existing) |})))
  end).

(** ** Chat platform requests (discord.js) *)

(** [discordClient.guilds.fetch(guildId)] *)
Definition fetchGuild (guildId : string) : M Guild :=
  let! w := get_world in
  match discord w !! guildId with
  | Some gs => ret {| guild_id := guildId; guild_me := gs_me gs |}
  | None => throw "Unknown Guild"
  end.

(** [guild.members.fetchMe()]: on success [guild.members.me] is the bot. *)
Definition fetchMe (guild : Guild) : M Guild :=
  let! w := get_world in
  match discord w !! guild_id guild with
  | Some gs =>
      match gs_fetchMe gs with
      | inr bot => ret {| guild_id := guild_id guild; guild_me := Some bot |}
      | inl e => throw e
      end
  | None => throw "Unknown Guild"
  end.

(** [guild.members.fetch(discordUserId)] *)
Definition fetchMember (guild : Guild) (discordUserId : string) : M GuildMember :=
  let! w := get_world in
  match discord w !! guild_id guild with
  | Some gs =>
      match gs_members gs !! discordUserId with
      | Some roles => ret {| member_id := discordUserId; member_roles := roles |}
      | None => throw "Unknown Member"
      end
  | None => throw "Unknown Guild"
  end.

(** [guild.roles.fetch(roleId)] *)
Definition fetchRole (guild : Guild) (roleId : string) : M Role :=
  let! w := get_world in
  match discord w !! guild_id guild with
  | Some gs =>
      match gs_roles gs !! roleId with
      | Some role => ret role
      | None => throw "Unknown Role"
      end
  | None => throw "Unknown Guild"
  end.

Definition setMemberRoles (guildId discordUserId : string)
    (f : list string -> list string) (w : World) : World :=
  with_discord
    (alter (fun gs =>
              {| gs_me := gs_me gs; gs_fetchMe := gs_fetchMe gs;
                 gs_roles := gs_roles gs;
                 gs_members := alter f discordUserId (gs_members gs) |})
           guildId (discord w)) w.

(** [member.roles.add(roleId, reason)] *)
Definition rolesAdd (E : Env) (guild : Guild) (member : GuildMember)
    (roleId : string) : M unit :=
  match roleRequestError E (guild_id guild) (member_id member) roleId with
  | Some e => throw e
  | None =>
      modify (fun w =>
        with_role_calls
          (role_calls w ++ [RoleAdd (guild_id guild) (member_id member) roleId])
          (setMemberRoles (guild_id guild) (member_id member)
             (fun roles => if bool_decide (roleId ∈ roles) then roles
                           else roles ++ [roleId]) w))
  end.

(** [member.roles.remove(roleId, reason)] *)
Definition rolesRemove (E : Env) (guild : Guild) (member : GuildMember)
    (roleId : string) : M unit :=
  match roleRequestError E (guild_id guild) (member_id member) roleId with
  | Some e => throw e
  | None =>
      modify (fun w =>
        with_role_calls
          (role_calls w ++ [RoleRemove (guild_id guild) (member_id member) roleId])
          (setMemberRoles (guild_id guild) (member_id member)
             (List.filter (fun r => negb (bool_decide (r = roleId)))) w))
  end.

(** ** Reconciliation worker ([src/worker/gatingWorker.ts]) *)

Definition canManageRole (E : Env) (guild : Guild) (role : Role) : bool :=
  match guild_me guild with
  | None => false
  | Some botMember =>
      if negb (bot_manageRoles botMember) then false
      else bool_decide (0 < comparePositionTo E (bot_highest botMember) role)%Z
  end.

(** [prisma.gatingRule.findMany({ where: { guildId, enabled: true } })] *)
Definition findEnabledRules (guildId : string) : M (list GatingRule) :=
  fun w =>
    (Ok (List.filter (fun rule => bool_decide (rule_guildId rule = guildId)
                                  && rule_enabled rule)
                     (gating_rules w)), w).

(** [prisma.walletLink.update({ where: { id }, data: { lastCheckedAt: new Date() } })] *)
Definition updateLastCheckedAt (id : string) : M unit :=
  let! lastCheckedAt := now in
  let! w := get_world in
  if existsb (fun l => bool_decide (wl_id l = id)) (wallet_links w) then
    modify (with_wallet_links
      (map (fun l =>
              if bool_decide (wl_id l = id) then
                {| wl_id := wl_id l; wl_guildId := wl_guildId l;
                   wl_discordUserId := wl_discordUserId l;
                   wl_walletPubkey := wl_walletPubkey l;
                   wl_verifiedAt := wl_verifiedAt l;
                   wl_lastCheckedAt := Some lastCheckedAt |}
              else l)
           (wallet_links w)))
  else throw "Record to update not found".

Definition syncRoleDecision (E : Env) (guild : Guild) (member : GuildMember)
    (guildId discordUserId : string) (decision : RoleDecision)
    (evaluations : list EvaluationResult) : M unit :=
  match dec_shouldHave decision with
  | None => ret tt
  | Some shouldHave =>
      let! role := catch_null (fetchRole guild (dec_roleId decision)) in
      match role with
      | None => ret tt
      | Some role =>
          if negb (canManageRole E guild role) then ret tt
          else
            let currentlyHasRole :=
              bool_decide (dec_roleId decision ∈ member_roles member) in
            if shouldHave && negb currentlyHasRole then
              try_catch
                (rolesAdd E guild member (dec_roleId decision) ;;
                 let matched :=
                   find (fun e => bool_decide (ev_roleId e = dec_roleId decision)
                                  && isTrue e) evaluations in
                 writeAuditLog
                   {| ai_guildId := guildId;
                      ai_discordUserId := discordUserId;
                      ai_roleId := dec_roleId decision;
                      ai_action := ROLE_ADDED;
                      ai_reason := from_option ev_reason "role added by gating" matched;
                      ai_ruleId := ev_ruleId <$> matched |})
                (fun _ => ret tt)
            else if negb shouldHave && currentlyHasRole then
              try_catch
                (rolesRemove E guild member (dec_roleId decision) ;;
                 writeAuditLog
                   {| ai_guildId := guildId;
                      ai_discordUserId := discordUserId;
                      ai_roleId := dec_roleId decision;
                      ai_action := ROLE_REMOVED;
                      ai_reason := "no active rule satisfied for role";
                      ai_ruleId := None |})
                (fun _ => ret tt)
            else ret tt
      end
  end.

(** [rules.filter(TOKEN_USD).map(priceAssetId).filter(Boolean)] *)
Definition usdRuleAssetIds (rules : list GatingRule) : list string :=
  List.filter nonEmpty
    (omap rule_priceAssetId
       (List.filter (fun rule => bool_decide (rule_type rule = TOKEN_USD)) rules)).

Definition priceTtlSeconds : Z := 60.

Definition runUserCheck (E : Env) (fuel : nat) (guildId discordUserId : string)
    (preloadedRules : option (list GatingRule)) : M unit :=
  let! rules :=
    match preloadedRules with
    | Some rules => ret rules
    | None => findEnabledRules guildId
    end in
  if bool_decide (length rules = 0) then ret tt
  else
  let! walletLink := findWalletLink guildId discordUserId in
  match walletLink with
  | None => ret tt
  | Some walletLink =>
  let! prices :=
    try_catch (getUsdPrices E priceTtlSeconds (usdRuleAssetIds rules))
              (fun _ => ret ∅) in
  let! guild := catch_null (fetchGuild guildId) in
  match guild with
  | None => ret tt
  | Some guild =>
  let! guild := fetchMe guild in
  let! member := catch_null (fetchMember guild discordUserId) in
  match member with
  | None => ret tt
  | Some member =>
  let needsTokenSnapshot :=
    existsb (fun rule => bool_decide (rule_type rule = TOKEN_AMOUNT)
                         || bool_decide (rule_type rule = TOKEN_USD)) rules in
  let needsNftSnapshot :=
    existsb (fun rule => bool_decide (rule_type rule = NFT_COLLECTION)) rules in
  match getWalletSnapshot E fuel (wl_walletPubkey walletLink)
                          needsTokenSnapshot needsNftSnapshot with
  | OutOfFuel => lift OutOfFuel
  | Throw _ => updateLastCheckedAt (wl_id walletLink)
  | Ok snapshot =>
      let evaluations := evaluateRules E rules snapshot prices in
      let decisions := computeRoleDecisions evaluations in
      for_each decisions
        (fun decision =>
           syncRoleDecision E guild member guildId discordUserId decision evaluations) ;;
      updateLastCheckedAt (wl_id walletLink)
  end
  end
  end
  end.

(** [findMany({ where: { guildId }, distinct: ["roleId"], select: { roleId } })] *)
Definition findManagedRoleIds (guildId : string) : M (list string) :=
  fun w =>
    (Ok (uniqueInOrder
           (map rule_roleId
              (List.filter (fun rule => bool_decide (rule_guildId rule = guildId))
                           (gating_rules w)))), w).

Definition removeManagedRolesForMember (E : Env) (guildId discordUserId : string)
  : M unit :=
  let! guild := catch_null (fetchGuild guildId) in
  match guild with
  | None => ret tt
  | Some guild =>
  let! guild := fetchMe guild in
  let! member := catch_null (fetchMember guild discordUserId) in
  match member with
  | None => ret tt
  | Some member =>
  let! managedRoles := findManagedRoleIds guildId in
  for_each managedRoles
    (fun roleId =>
       let! role := catch_null (fetchRole guild roleId) in
       match role with
       | None => ret tt
       | Some role =>
           if negb (bool_decide (roleId ∈ member_roles member))
              || negb (canManageRole E guild role)
           then ret tt
           else
             try_catch
               (rolesRemove E guild member roleId ;;
                writeAuditLog
                  {| ai_guildId := guildId;
                     ai_discordUserId := discordUserId;
                     ai_roleId := roleId;
                     ai_action := ROLE_REMOVED;
                     ai_reason := "wallet unlinked - removed managed role";
                     ai_ruleId := None |})
               (fun _ => ret tt)
       end)
  end
  end.

(** * Vocabulary of the statements *)

(** ** Rule evaluator *)

(** The evaluations of one role, in order. *)
Definition roleGroup (roleId : string) (evaluations : list EvaluationResult)
  : list EvaluationResult :=
  List.filter (fun e => bool_decide (ev_roleId e = roleId)) evaluations.

(** A snapshot whose balances and counts are not negative (and not NaN), as
    the chain reports them. *)
Definition nonNegativeSnapshot (snapshot : WalletSnapshot) : Prop :=
  map_Forall (fun _ balance => js_ge balance 0%float = true)
             (tokenBalancesByMint snapshot) /\
  map_Forall (fun _ count => (0 ≤ count)%Z) (nftCountsByCollection snapshot).

(** The rule with the empty string in place of a null mint or collection. *)
Definition emptyForNull (rule : GatingRule) : GatingRule :=
  {| rule_id := rule_id rule; rule_guildId := rule_guildId rule;
     rule_type := rule_type rule;
     rule_mint := Some (default "" (rule_mint rule));
     rule_collection := Some (default "" (rule_collection rule));
     rule_thresholdAmount := rule_thresholdAmount rule;
     rule_thresholdUsd := rule_thresholdUsd rule;
     rule_thresholdCount := rule_thresholdCount rule;
     rule_roleId := rule_roleId rule;
     rule_priceAssetId := rule_priceAssetId rule;
     rule_enabled := rule_enabled rule |}.

(** The rule with 0 in place of a null count threshold. *)
Definition zeroCountForNull (rule : GatingRule) : GatingRule :=
  {| rule_id := rule_id rule; rule_guildId := rule_guildId rule;
     rule_type := rule_type rule;
     rule_mint := rule_mint rule;
     rule_collection := rule_collection rule;
     rule_thresholdAmount := rule_thresholdAmount rule;
     rule_thresholdUsd := rule_thresholdUsd rule;
     rule_thresholdCount := Some (default 0%Z (rule_thresholdCount rule));
     rule_roleId := rule_roleId rule;
     rule_priceAssetId := rule_priceAssetId rule;
     rule_enabled := rule_enabled rule |}.

(** ** Chain-holdings adapter *)

(** Truthiness of a JS value. *)
Definition truthy (v : JsValue) : bool :=
  match v with
  | JsUndefined | JsNull => false
  | JsBool b => b
  | JsNumber x => negb (PrimFloat.eqb x 0%float || PrimFloat.is_nan x)
  | JsString s => nonEmpty s
  | JsObject => true
  end.

(** A grouping entry that asserts [collection] as the code tests it: key
    ["collection"], a string value, and a flag that is the boolean [true]. *)
Definition verifiedGroupFor (collection : string) (group : DasGroup) : Prop :=
  group_key group = JsString "collection" /\
  group_value group = JsString collection /\
  (verified group = JsBool true \/ collection_verified group = JsBool true).

(** A grouping entry that asserts some collection. *)
Definition verifiedGroup (group : DasGroup) : Prop :=
  exists collection, verifiedGroupFor collection group.

(** [content.metadata.collection] is verified and has the non-empty key
    [collection]. *)
Definition verifiedMetadataFor (collection : string) (asset : DasAsset) : Prop :=
  exists c, asset_collection asset = Some c /\
            coll_verified c = Some true /\ coll_key c = Some collection /\
            collection <> "".

(** The collection the code retains for an asset: the value of the first
    asserting grouping entry, or, when no entry asserts one, the verified
    metadata key. *)
Definition chosenCollection (asset : DasAsset) (collection : string) : Prop :=
  (exists before group after,
     default [] (grouping asset) = before ++ group :: after /\
     Forall (fun g => ~ verifiedGroup g) before /\
     verifiedGroupFor collection group) \/
  (Forall (fun g => ~ verifiedGroup g) (default [] (grouping asset)) /\
   verifiedMetadataFor collection asset).

(** The verification signal in the words of the specification: some
    grouping entry with key ["collection"], a string value and a truthy
    [verified] or [collection_verified], or verified metadata with a
    non-empty key. *)
Definition claimedSignal (asset : DasAsset) (collection : string) : Prop :=
  (exists group, group ∈ default [] (grouping asset) /\
     group_key group = JsString "collection" /\
     group_value group = JsString collection /\
     (truthy (verified group) = true \/ truthy (collection_verified group) = true)) \/
  verifiedMetadataFor collection asset.

(** The counting step counts the asset under [collection]. *)
Definition countedUnder (asset : DasAsset) (collection : string) : Prop :=
  forall counts,
    countItem counts asset !! collection =
    Some (default 0 (counts !! collection) + 1)%Z.

(** How many items of a page the code retains for [collection]. *)
Definition chosenCount (collection : string) (items : list DasAsset) : nat :=
  length (List.filter
            (fun item =>
               bool_decide (extractVerifiedCollectionAddress item = Some collection))
            items).

(** An asset whose only grouping entry carries the flag [1]: truthy, but not
    the boolean [true]. *)
Definition truthyFlagAsset : DasAsset :=
  {| grouping :=
       Some [ {| group_key := JsString "collection";
                 group_value := JsString "C";
                 verified := JsNumber 1%float;
                 collection_verified := JsUndefined |} ];
     asset_collection := None |}.

(** An asset with verified metadata whose first verified grouping entry has
    the empty string as value. *)
Definition emptyValueAsset : DasAsset :=
  {| grouping :=
       Some [ {| group_key := JsString "collection";
                 group_value := JsString "";
                 verified := JsBool true;
                 collection_verified := JsUndefined |} ];
     asset_collection :=
       Some {| coll_key := Some "K"; coll_verified := Some true |} |}.

(** ** Verification service *)

(** [n] uninterrupted blocks of a task. *)
Fixpoint steps {A : Type} (n : nat) (t : Task A) (w : World) : Task A * World :=
  match n with
  | O => (t, w)
  | S n' => let '(t', w') := step t w in steps n' t' w'
  end.

(** The session a token designates in a state, if the token verifies. *)
Definition sessionOfToken (E : Env) (token : string) (w : World)
  : option VerifySession :=
  match decodeVerifyToken E token w with
  | (Ok payload, _) =>
      find (fun s => bool_decide (vs_id s = vp_sessionId payload)) (verify_sessions w)
  | _ => None
  end.

(** The specification's error class SESSION_INVALID: a missing, expired,
    mismatched or already-used session, by the message the service throws. *)
Definition SESSION_INVALID (e : Error) : Prop :=
  e ∈ [ "Verify session not found"; "Verify session mismatch";
        "Verify session already used"; "Verify session expired" ].

(** No wallet link is stored for the pair. *)
Definition noWalletLink (guildId discordUserId : string) (w : World) : Prop :=
  Forall (fun l => ~ (wl_guildId l = guildId /\ wl_discordUserId l = discordUserId))
         (wallet_links w).

(** ** Price cache *)

(** A row is within the TTL at the clock of [w]. *)
Definition isFresh (ttlSeconds : Z) (w : World) (row : PriceCache) : bool :=
  bool_decide (clock w - ttlSeconds * 1000 ≤ pc_fetchedAt row)%Z.

(** The stored quote of an id that is within the TTL, if there is one. *)
Definition freshQuote (ttlSeconds : Z) (w : World) (id : string)
  : option PriceCache :=
  find (fun row => bool_decide (pc_assetId row = id) && isFresh ttlSeconds w row)
       (price_cache w).

(** The primary key of [price_cache]: one row per asset id; no row is keyed
    by the empty string (the client never writes one). *)
Definition priceCacheKeyed (w : World) : Prop :=
  NoDup (map pc_assetId (price_cache w)) /\
  Forall (fun row => pc_assetId row <> "") (price_cache w).

(** The requested ids that have no stored quote within the TTL. *)
Definition missingIds (ttlSeconds : Z) (w : World) (assetIds : list string)
  : list string :=
  List.filter (fun id => negb (bool_decide (is_Some (freshQuote ttlSeconds w id))))
              (uniqueInOrder (List.filter nonEmpty assetIds)).

(** The finite quote a JSON body holds for an id, if any. *)
Definition quoteOf (json : gmap string JsValue) (id : string) : option number :=
  match json !! id with
  | Some (JsNumber price) => if isFinite price then Some price else None
  | _ => None
  end.

(** The rows of an id. *)
Definition rowsOf (id : string) (rows : list PriceCache) : list PriceCache :=
  List.filter (fun row => bool_decide (pc_assetId row = id)) rows.

(** The table after [upsertPriceCache]. *)
Definition upsertRows (update : PriceCache) (rows : list PriceCache)
  : list PriceCache :=
  if bool_decide (pc_assetId update ∈ map pc_assetId rows) then
    map (fun row =>
           if bool_decide (pc_assetId row = pc_assetId update)
           then {| pc_assetId := pc_assetId row;
                   pc_priceUsd := pc_priceUsd update;
                   pc_fetchedAt := pc_fetchedAt update |}
           else row) rows
  else rows ++ [update].

(** The table after the upserts of a list of updates, in order. *)
Definition upsertAll (updates rows : list PriceCache) : list PriceCache :=
  fold_left (fun rows u => upsertRows u rows) updates rows.

(** The row written for a fetched quote. *)
Definition quoteRow (E : Env) (fetchedAt : Z) (id : string) (price : number)
  : PriceCache :=
  {| pc_assetId := id; pc_priceUsd := numberToDecimal E price;
     pc_fetchedAt := fetchedAt |}.

(** The result map with the fetched quotes of [ids] added. *)
Definition addQuotes (json : gmap string JsValue) (ids : list string)
    (result : gmap string number) : gmap string number :=
  fold_left
    (fun r id => match quoteOf json id with Some p => <[id := p]> r | None => r end)
    ids result.

(** The rows to upsert for the fetched quotes of [ids]. *)
Definition quoteRows (E : Env) (json : gmap string JsValue) (fetchedAt : Z)
    (ids : list string) : list PriceCache :=
  omap (fun id => quoteRow E fetchedAt id <$> quoteOf json id) ids.

(** The finite quote the price provider returns for [id] when asked for
    [ids], if the request succeeds and holds one. *)
Definition upstreamQuote (E : Env) (ids : list string) (id : string)
  : option number :=
  match coingeckoSimplePrice E ids with
  | Response status json => if status_ok status then quoteOf json id else None
  | RequestFailed _ => None
  end.

(** The result map served from the cache. *)
Definition cachedPrices (E : Env) (ttlSeconds : Z) (w : World)
    (uniqueIds : list string) : gmap string number :=
  fold_left
    (fun result row =>
       <[pc_assetId row := decimalToNumber E (pc_priceUsd row)]> result)
    (List.filter
       (fun row => bool_decide (pc_assetId row ∈ uniqueIds)
                   && bool_decide (clock w - ttlSeconds * 1000 ≤ pc_fetchedAt row)%Z)
       (price_cache w))
    ∅.

(** [w'] differs from [w] at most in the price cache and the log of price
    requests. *)
Definition samePricesAside (w w' : World) : Prop :=
  clock w' = clock w /\ next_id w' = next_id w /\
  gating_rules w' = gating_rules w /\ wallet_links w' = wallet_links w /\
  verify_sessions w' = verify_sessions w /\ audit_log w' = audit_log w /\
  discord w' = discord w /\ role_calls w' = role_calls w.

(** ** Reconciliation worker *)

(** The rules a check works with: the preloaded ones, or the enabled rules
    of the guild. *)
Definition rulesOfCheck (guildId : string)
    (preloadedRules : option (list GatingRule)) (w : World) : list GatingRule :=
  match preloadedRules with
  | Some rules => rules
  | None =>
      List.filter (fun rule => bool_decide (rule_guildId rule = guildId)
                               && rule_enabled rule) (gating_rules w)
  end.

(** The snapshot slices a check asks for. *)
Definition checkNeedsTokens (rules : list GatingRule) : bool :=
  existsb (fun rule => bool_decide (rule_type rule = TOKEN_AMOUNT)
                       || bool_decide (rule_type rule = TOKEN_USD)) rules.

Definition checkNeedsNfts (rules : list GatingRule) : bool :=
  existsb (fun rule => bool_decide (rule_type rule = NFT_COLLECTION)) rules.

(** The link of id [id] with [lastCheckedAt] set, every other link as is. *)
Definition touched (id : string) (checkedAt : Z) (l : WalletLink) : WalletLink :=
  if bool_decide (wl_id l = id) then
    {| wl_id := wl_id l; wl_guildId := wl_guildId l;
       wl_discordUserId := wl_discordUserId l;
       wl_walletPubkey := wl_walletPubkey l;
       wl_verifiedAt := wl_verifiedAt l;
       wl_lastCheckedAt := Some checkedAt |}
  else l.

(** The stored link of a member. *)
Definition linkOf (guildId discordUserId : string) (w : World) : option WalletLink :=
  find (fun l => bool_decide (wl_guildId l = guildId)
                 && bool_decide (wl_discordUserId l = discordUserId))
       (wallet_links w).

(** The bot cannot manage a role: its member is unknown, or it lacks the
    role-management permission, or its highest role does not rank strictly
    above the role. *)
Definition cannotManage (E : Env) (guild : Guild) (role : Role) : Prop :=
  match guild_me guild with
  | None => True
  | Some bot =>
      bot_manageRoles bot = false \/
      (comparePositionTo E (bot_highest bot) role ≤ 0)%Z
  end.

(** The roles of the guild, as role requests resolve them. *)
Definition rolesView (guild : Guild) (w : World) : option (gmap string Role) :=
  gs_roles <$> discord w !! guild_id guild.

(** Role [roleId] resolves in the guild to a role the bot can manage. *)
Definition manageableIn (E : Env) (guild : Guild) (w : World) (roleId : string)
  : Prop :=
  exists roles role,
    rolesView guild w = Some roles /\ roles !! roleId = Some role /\
    canManageRole E guild role = true.

Definition callRole (call : RoleCall) : string :=
  match call with RoleAdd _ _ roleId | RoleRemove _ _ roleId => roleId end.

Definition isRoleAction (action : AuditAction) : Prop :=
  action = ROLE_ADDED \/ action = ROLE_REMOVED.

(** The body of the decision loop of [runUserCheck]. *)
Definition syncAll (E : Env) (guild : Guild) (member : GuildMember)
    (guildId discordUserId : string) (evaluations : list EvaluationResult)
    (decisions : list RoleDecision) : M unit :=
  for_each decisions
    (fun decision =>
       syncRoleDecision E guild member guildId discordUserId decision evaluations).

(** What the handling of one role may do to the state: nothing, or, for a
    role the bot can manage, one accepted role request and one ROLE_ADDED or
    ROLE_REMOVED audit entry for that role. *)
Definition gatedChange (E : Env) (guild : Guild) (roleId : string)
    (w w' : World) : Prop :=
  rolesView guild w' = rolesView guild w /\
  (w' = w \/
   (manageableIn E guild w roleId /\
    exists call entry,
      role_calls w' = role_calls w ++ [call] /\
      audit_log w' = audit_log w ++ [entry] /\
      callRole call = roleId /\ al_roleId entry = roleId /\
      isRoleAction (al_action entry))).

(** What a run may do to roles and to the audit log: the role requests and
    audit entries it adds are all for roles the bot can manage, and the
    entries are ROLE_ADDED or ROLE_REMOVED. *)
Definition gatedTrace (E : Env) (guild : Guild) (w w' : World) : Prop :=
  rolesView guild w' = rolesView guild w /\
  exists calls entries,
    role_calls w' = role_calls w ++ calls /\
    audit_log w' = audit_log w ++ entries /\
    Forall (fun call => manageableIn E guild w (callRole call)) calls /\
    Forall (fun entry => manageableIn E guild w (al_roleId entry) /\
                         isRoleAction (al_action entry)) entries.

(** The guild object the worker holds after [fetchMe]. *)
Definition botGuild (guildId : string) (w : World) : option Guild :=
  match discord w !! guildId with
  | Some gs =>
      match gs_fetchMe gs with
      | inr bot => Some {| guild_id := guildId; guild_me := Some bot |}
      | inl _ => None
      end
  | None => None
  end.

(** [gatedTrace] for a whole worker call on guild [guildId]. *)
Definition workerGated (E : Env) (guildId : string) (w w' : World) : Prop :=
  exists calls entries,
    role_calls w' = role_calls w ++ calls /\
    audit_log w' = audit_log w ++ entries /\
    Forall (fun call =>
              exists guild, botGuild guildId w = Some guild /\
                manageableIn E guild w (callRole call)) calls /\
    Forall (fun entry =>
              (exists guild, botGuild guildId w = Some guild /\
                 manageableIn E guild w (al_roleId entry)) /\
              isRoleAction (al_action entry)) entries.

(** * Sample data *)

(** A small exact conversion, for the sample environment. *)
Fixpoint float_of_positive (p : positive) : number :=
  match p with
  | xH => 1%float
  | xO p' => PrimFloat.mul 2%float (float_of_positive p')
  | xI p' => PrimFloat.add (PrimFloat.mul 2%float (float_of_positive p')) 1%float
  end.

Definition float_of_Z (z : Z) : number :=
  match z with
  | Z0 => 0%float
  | Zpos p => float_of_positive p
  | Zneg p => PrimFloat.opp (float_of_positive p)
  end.

(** The integer part of a finite number, 0 otherwise. *)
Definition Z_of_float (x : number) : Z :=
  match Prim2SF x with
  | S754_finite s m e =>
      let magnitude := Z.shiftl (Z.pos m) e in
      if s then (- magnitude)%Z else magnitude
  | _ => 0%Z
  end.

(** The sample environment.  Its tokens are the strings "jwt:<session id>",
    taken as signed at clock 1000 for 600 seconds: [jwt_verify] accepts them
    while the time in whole seconds is below 601. *)
Definition sampleEnv : Env :=
  {| decimalToNumber := fun d =>
       PrimFloat.div (float_of_Z (dec_unscaled d)) (float_of_Z 1000000000000);
     numberToDecimal := fun x =>
       {| dec_unscaled := Z_of_float (PrimFloat.mul x (float_of_Z 1000000000000)) |};
     showNumber := fun x => pretty (Z_of_float x);
     jwt_verify := fun token now_ =>
       if String.prefix "jwt:" token then
         if bool_decide (now_ / 1000 < 601)%Z then
           JwtObjectPayload (Some "guild-1") (Some "user-1")
             (Some (String.substring 4 (String.length token - 4) token))
         else JwtThrows "jwt expired"
       else JwtThrows "jwt malformed";
     bs58_decode := fun s =>
       if String.prefix "SIG" s then Some (replicate 64 1%Z)
       else if String.prefix "WALLET" s then Some (replicate 32 2%Z)
       else None;
     nacl_verify := fun _ signature _ => bool_decide (signature = replicate 64 1%Z);
     rpcTokenAccounts := fun owner _ =>
       if bool_decide (owner = "WALLET-DOWN") then RequestFailed "fetch failed"
       else Response 200
              [ {| parsed := Some {| parsed_type := "account";
                                     info_mint := "mint-a";
                                     info_uiAmount := Some (float_of_Z 100) |} |} ];
     dasAssetsByOwner := fun _ _ _ => Response 200 {| page_items := Some [] |};
     coingeckoSimplePrice := fun _ =>
       Response 200 {[ "sol" := JsNumber (float_of_Z 150);
                       "usdc" := JsNumber 1%float;
                       "broken" := JsNumber infinity ]};
     comparePositionTo := fun a b => (role_position a - role_position b)%Z;
     roleRequestError := fun _ _ _ => None |}.

Definition sampleSession : VerifySession :=
  {| vs_id := "s1"; vs_guildId := "guild-1"; vs_discordUserId := "user-1";
     vs_nonce := "00112233445566778899aabbccddeeff";
     vs_challengeMessage :=
       "Verify Discord user-1 in Guild guild-1 nonce 00112233445566778899aabbccddeeff exp 2026-01-01T00:10:00.000Z";
     vs_expiresAt := 600000; vs_usedAt := None |}.

Definition sampleBot : BotMember :=
  {| bot_manageRoles := true;
     bot_highest := {| role_id := "role-bot"; role_position := 10 |} |}.

Definition sampleGuild : GuildState :=
  {| gs_me := Some sampleBot;
     gs_fetchMe := inr sampleBot;
     gs_roles := {[ "role-1" := {| role_id := "role-1"; role_position := 5 |};
                    "role-top" := {| role_id := "role-top"; role_position := 20 |} ]};
     gs_members := {[ "user-1" := ["role-1"; "role-top"] ]} |}.

Definition sampleRule : GatingRule :=
  {| rule_id := "r1"; rule_guildId := "guild-1"; rule_type := TOKEN_AMOUNT;
     rule_mint := Some "mint-a"; rule_collection := None;
     rule_thresholdAmount := Some {| dec_unscaled := 100000000000000 |};
     rule_thresholdUsd := None; rule_thresholdCount := None;
     rule_roleId := "role-1"; rule_priceAssetId := None; rule_enabled := true |}.

(** A state with one open session, one rule, and no wallet link. *)
Definition sampleWorld : World :=
  {| clock := 1000; next_id := 0;
     gating_rules := [sampleRule];
     wallet_links := [];
     verify_sessions := [sampleSession];
     audit_log := [];
     price_cache := [];
     discord := {[ "guild-1" := sampleGuild ]};
     role_calls := [];
     price_calls := [] |}.

Definition sampleSubmit (wallet signature : string) : SubmitInput :=
  {| si_token := "jwt:s1"; si_walletPubkey := wallet;
     si_signatureBase58 := signature |}.

(** Two submits for one session: each looks the session up before the other
    has marked it used. *)
Definition raceSchedule : list bool :=
  [true; false; true; true; true; true; false; false; false; false].

(** The two calls run to their end under [raceSchedule]. *)
Definition raceOutcome : Task SubmitResult * Task SubmitResult * World :=
  runInterleaved raceSchedule
    (submitVerifySignature sampleEnv (sampleSubmit "WALLET-A" "SIG-A"))
    (submitVerifySignature sampleEnv (sampleSubmit "WALLET-B" "SIG-B"))
    sampleWorld.

(** The sample state with a verified member whose wallet the chain RPC
    cannot serve. *)
Definition sampleDownLink : WalletLink :=
  {| wl_id := "link-1"; wl_guildId := "guild-1"; wl_discordUserId := "user-1";
     wl_walletPubkey := "WALLET-DOWN"; wl_verifiedAt := 500;
     wl_lastCheckedAt := None |}.

Definition sampleDownWorld : World :=
  with_wallet_links [sampleDownLink] sampleWorld.

(** The sample state with a fresh quote for "sol" and a stale one for
    "usdc", at clock 100000. *)
Definition samplePriceWorld : World :=
  {| clock := 100000; next_id := 0; gating_rules := []; wallet_links := [];
     verify_sessions := []; audit_log := [];
     price_cache :=
       [ {| pc_assetId := "sol";
            pc_priceUsd := {| dec_unscaled := 150000000000000 |};
            pc_fetchedAt := 90000 |};
         {| pc_assetId := "usdc";
            pc_priceUsd := {| dec_unscaled := 990000000000 |};
            pc_fetchedAt := 10000 |} ];
     discord := ∅; role_calls := []; price_calls := [] |}.

(** A request with a cached id, a stale one, two unknown ones, an empty id
    and a repetition. *)
Definition sampleAssetIds : list string :=
  ["sol"; "usdc"; ""; "bonk"; "broken"; "sol"].

(** The guild object of the sample guild, and its member "user-1". *)
Definition sampleGuildObject : Guild :=
  {| guild_id := "guild-1"; guild_me := Some sampleBot |}.

Definition sampleMember : GuildMember :=
  {| member_id := "user-1"; member_roles := ["role-1"; "role-top"] |}.

(** A decision to remove "role-top", which ranks above the bot's roles. *)
Definition sampleTopDecision : RoleDecision :=
  {| dec_roleId := "role-top"; dec_shouldHave := Some false;
     dec_matchedRuleIds := [] |}.

(** A TOKEN_AMOUNT rule whose threshold and mint are null. *)
Definition sampleNullRule : GatingRule :=
  {| rule_id := "r-null"; rule_guildId := "guild-1"; rule_type := TOKEN_AMOUNT;
     rule_mint := None; rule_collection := None;
     rule_thresholdAmount := None; rule_thresholdUsd := None;
     rule_thresholdCount := None;
     rule_roleId := "role-1"; rule_priceAssetId := None; rule_enabled := true |}.

Definition sampleEmptySnapshot : WalletSnapshot :=
  {| snap_wallet := "WALLET-A"; tokenBalancesByMint := ∅;
     nftCountsByCollection := ∅ |}.

(** * Further parts of the program *)

(** ** Chain-holdings adapter: token balances *)

(** The amount an RPC token account contributes to a mint: [uiAmount] (0 when
    null) for a parsed entry of type ["account"] of that mint. *)
Definition accountAmount (mint : string) (account : TokenAccount) : option number :=
  match parsed account with
  | Some p =>
      if bool_decide (parsed_type p = "account") && bool_decide (info_mint p = mint)
      then Some (default 0%float (info_uiAmount p))
      else None
  | None => None
  end.

(** The amounts of a mint, in the order of the accounts. *)
Definition mintAmounts (mint : string) (accounts : list TokenAccount) : list number :=
  omap (accountAmount mint) accounts.

(** ** Chain-holdings adapter: pagination *)

(** The reply the loop works with for one page: the request under
    [withRetry]. *)
Definition dasPage (E : Env) (owner : string) (page : Z) : outcome DasPageResponse :=
  withRetry (fetchDasPage E owner page) defaultDelaysMs.

(** [data.result?.items ?? []] *)
Definition pageItems (data : DasPageResponse) : list DasAsset :=
  default [] (page_items data).

(** Page [page] is served with the items [items]. *)
Definition servedPage (E : Env) (owner : string) (page : Z) (items : list DasAsset)
  : Prop :=
  exists data, dasPage E owner page = Ok data /\ pageItems data = items.

(** The environment with another token RPC. *)
Definition withTokenRpc (rpc : string -> nat -> Reply (list TokenAccount)) (E : Env)
  : Env :=
  {| decimalToNumber := decimalToNumber E; numberToDecimal := numberToDecimal E;
     showNumber := showNumber E; jwt_verify := jwt_verify E;
     bs58_decode := bs58_decode E; nacl_verify := nacl_verify E;
     rpcTokenAccounts := rpc;
     dasAssetsByOwner := dasAssetsByOwner E;
     coingeckoSimplePrice := coingeckoSimplePrice E;
     comparePositionTo := comparePositionTo E;
     roleRequestError := roleRequestError E |}.

(** The environment with another indexer. *)
Definition withIndexer (das : string -> Z -> nat -> Reply DasPageResponse) (E : Env)
  : Env :=
  {| decimalToNumber := decimalToNumber E; numberToDecimal := numberToDecimal E;
     showNumber := showNumber E; jwt_verify := jwt_verify E;
     bs58_decode := bs58_decode E; nacl_verify := nacl_verify E;
     rpcTokenAccounts := rpcTokenAccounts E;
     dasAssetsByOwner := das;
     coingeckoSimplePrice := coingeckoSimplePrice E;
     comparePositionTo := comparePositionTo E;
     roleRequestError := roleRequestError E |}.

(** An asset of the verified collection "col-1". *)
Definition sampleAsset : DasAsset :=
  {| grouping :=
       Some [ {| group_key := JsString "collection";
                 group_value := JsString "col-1";
                 verified := JsBool true;
                 collection_verified := JsUndefined |} ];
     asset_collection := None |}.

(** An indexer with a full first page and a second page of one asset that is
    served at the third attempt. *)
Definition samplePagedEnv : Env :=
  withIndexer
    (fun _ page attempt =>
       if bool_decide (page = 1)%Z then
         Response 200 {| page_items := Some (replicate 1000 sampleAsset) |}
       else if bool_decide (attempt < 2) then
         Response 503 {| page_items := None |}
       else Response 200 {| page_items := Some [sampleAsset] |})
    sampleEnv.

(** An indexer that answers every page with 1000 assets. *)
Definition sampleEndlessEnv : Env :=
  withIndexer
    (fun _ _ _ => Response 200 {| page_items := Some (replicate 1000 sampleAsset) |})
    sampleEnv.

(** A token RPC that fails twice, then reports two accounts of "mint-a", one
    of "mint-b" and an entry that is not an account. *)
Definition sampleTokenEnv : Env :=
  withTokenRpc
    (fun _ attempt =>
       if bool_decide (attempt < 2) then RequestFailed "fetch failed"
       else
         Response 200
           [ {| parsed := Some {| parsed_type := "account"; info_mint := "mint-a";
                                  info_uiAmount := Some (float_of_Z 100) |} |};
             {| parsed := Some {| parsed_type := "account"; info_mint := "mint-b";
                                  info_uiAmount := None |} |};
             {| parsed := Some {| parsed_type := "mint"; info_mint := "mint-a";
                                  info_uiAmount := Some (float_of_Z 7) |} |};
             {| parsed := None |};
             {| parsed := Some {| parsed_type := "account"; info_mint := "mint-a";
                                  info_uiAmount := Some (float_of_Z 20) |} |} ])
    sampleEnv.

(** ** Rule evaluator: from rules to decisions *)

(** The rules of one role, in order. *)
Definition rulesOfRole (roleId : string) (rules : list GatingRule) : list GatingRule :=
  List.filter (fun rule => bool_decide (rule_roleId rule = roleId)) rules.

(** ** Reconciliation worker: what a check does to the member *)

(** The role ids the chat platform holds for a member. *)
Definition memberRoles (guildId discordUserId : string) (w : World)
  : option (list string) :=
  discord w !! guildId ≫= fun gs => gs_members gs !! discordUserId.

(** [w'] differs from [w] at most in the chat platform, the audit log, the
    log of role requests and the id counter. *)
Definition sameAsideRoles (w w' : World) : Prop :=
  clock w' = clock w /\ gating_rules w' = gating_rules w /\
  wallet_links w' = wallet_links w /\ verify_sessions w' = verify_sessions w /\
  price_cache w' = price_cache w /\ price_calls w' = price_calls w.

(** The prices a check works with: those of the price client, or none when
    the client throws. *)
Definition pricesOfCheck (E : Env) (rules : list GatingRule) (w : World)
  : gmap string number :=
  match getUsdPrices E priceTtlSeconds (usdRuleAssetIds rules) w with
  | (Ok prices, _) => prices
  | _ => ∅
  end.

(** The role ids [removeManagedRolesForMember] goes through: the distinct
    role ids of the guild's rules, enabled or not. *)
Definition managedRoleIds (guildId : string) (w : World) : list string :=
  uniqueInOrder
    (map rule_roleId
       (List.filter (fun rule => bool_decide (rule_guildId rule = guildId))
                    (gating_rules w))).

(** The body of the loop of [removeManagedRolesForMember]. *)
Definition removeManagedRole (E : Env) (guild : Guild) (member : GuildMember)
    (guildId discordUserId roleId : string) : M unit :=
  let! role := catch_null (fetchRole guild roleId) in
  match role with
  | None => ret tt
  | Some role =>
      if negb (bool_decide (roleId ∈ member_roles member))
         || negb (canManageRole E guild role)
      then ret tt
      else
        try_catch
          (rolesRemove E guild member roleId ;;
           writeAuditLog
             {| ai_guildId := guildId;
                ai_discordUserId := discordUserId;
                ai_roleId := roleId;
                ai_action := ROLE_REMOVED;
                ai_reason := "wallet unlinked - removed managed role";
                ai_ruleId := None |})
          (fun _ => ret tt)
  end.

(** ** Verification service: the other entry points *)

Record VerifyChallenge := {
  vc_challengeMessage : string;
  vc_expiresAt : Z
}.

(** The checks of [getVerifyChallenge] after the session lookup. *)
Definition checkChallenge (payload : VerifyTokenPayload) (session : VerifySession)
  : M VerifyChallenge :=
  if negb (bool_decide (vs_guildId session = vp_guildId payload))
     || negb (bool_decide (vs_discordUserId session = vp_discordUserId payload))
  then throw "Verify session mismatch"
  else if bool_decide (is_Some (vs_usedAt session)) then
    throw "Verify session already used"
  else
    let! now_ := now in
    if bool_decide (vs_expiresAt session < now_)%Z then
      throw "Verify session expired"
    else
      ret {| vc_challengeMessage := vs_challengeMessage session;
             vc_expiresAt := vs_expiresAt session |}.

Definition getVerifyChallenge (E : Env) (token : string) : Task VerifyChallenge :=
  Await (let! payload := decodeVerifyToken E token in
         let! found := findVerifySession (vp_sessionId payload) in
         ret (payload, found))
  (fun lookup =>
  match lookup.2 with
  | None => Done (Throw "Verify session not found")
  | Some session =>
  Await (checkChallenge lookup.1 session)
  (fun challenge => Done (Ok challenge))
  end).

(** [prisma.verifySession.deleteMany({ where: { OR: [{ expiresAt: { lt: new
    Date() } }, { usedAt: { not: null } }] } })] *)
Definition deleteStaleVerifySessions : M Z :=
  let! now_ := now in
  let! w := get_world in
  let stale s :=
    bool_decide (vs_expiresAt s < now_)%Z || bool_decide (is_Some (vs_usedAt s)) in
  modify (with_verify_sessions
            (List.filter (fun s => negb (stale s)) (verify_sessions w))) ;;
  ret (Z.of_nat (length (List.filter stale (verify_sessions w)))).

Definition cleanupExpiredVerifySessions : Task Z :=
  Await deleteStaleVerifySessions (fun count => Done (Ok count)).

(** A session that is neither used nor expired at the clock of [w]. *)
Definition usableSession (w : World) (s : VerifySession) : bool :=
  negb (bool_decide (vs_expiresAt s < clock w)%Z || bool_decide (is_Some (vs_usedAt s))).

(** ** Guild service ([src/services/guildService.ts]) *)


(** ** Verification service: creating a session *)










(** The unique index of [wallet_links]: one link per guild and user. *)
Definition walletLinksKeyed (w : World) : Prop :=
  NoDup (map (fun l => (wl_guildId l, wl_discordUserId l)) (wallet_links w)).

(** The links after [upsertWalletLink] at the clock and id counter of [w]. *)
Definition upsertedLinks (guildId discordUserId walletPubkey : string) (w : World)
  : list WalletLink :=
  let same l := bool_decide (wl_guildId l = guildId)
                && bool_decide (wl_discordUserId l = discordUserId) in
  if existsb same (wallet_links w) then
    map (fun l =>
           if same l then
             {| wl_id := wl_id l; wl_guildId := wl_guildId l;
                wl_discordUserId := wl_discordUserId l;
                wl_walletPubkey := walletPubkey;
                wl_verifiedAt := clock w;
                wl_lastCheckedAt := wl_lastCheckedAt l |}
           else l)
        (wallet_links w)
  else
    wallet_links w ++
    [{| wl_id := "c" +:+ pretty (next_id w); wl_guildId := guildId;
        wl_discordUserId := discordUserId;
        wl_walletPubkey := walletPubkey;
        wl_verifiedAt := clock w;
        wl_lastCheckedAt := None |}].

(** ** Rule service ([src/services/ruleService.ts]) *)

(** [prisma.gatingRule.deleteMany({ where: { guildId, id: ruleId } })]; the
    result is [count]. *)
Definition removeRule (guildId ruleId : string) : M Z :=
  let! w := get_world in
  let hit rule := bool_decide (rule_guildId rule = guildId)
                  && bool_decide (rule_id rule = ruleId) in
  modify (fun w' =>
    {| clock := clock w'; next_id := next_id w';
       gating_rules := List.filter (fun rule => negb (hit rule)) (gating_rules w');
       wallet_links := wallet_links w'; verify_sessions := verify_sessions w';
       audit_log := audit_log w'; price_cache := price_cache w';
       discord := discord w'; role_calls := role_calls w';
       price_calls := price_calls w' |}) ;;
  ret (Z.of_nat (length (List.filter hit (gating_rules w)))).

Definition withEnabled (enabled : bool) (rule : GatingRule) : GatingRule :=
  {| rule_id := rule_id rule; rule_guildId := rule_guildId rule;
     rule_type := rule_type rule; rule_mint := rule_mint rule;
     rule_collection := rule_collection rule;
     rule_thresholdAmount := rule_thresholdAmount rule;
     rule_thresholdUsd := rule_thresholdUsd rule;
     rule_thresholdCount := rule_thresholdCount rule;
     rule_roleId := rule_roleId rule;
     rule_priceAssetId := rule_priceAssetId rule;
     rule_enabled := enabled |}.

(** [prisma.gatingRule.updateMany({ where: { guildId, id: ruleId }, data: {
    enabled } })]; the result is [count]. *)
Definition setRuleEnabled (guildId ruleId : string) (enabled : bool) : M Z :=
  let! w := get_world in
  let hit rule := bool_decide (rule_guildId rule = guildId)
                  && bool_decide (rule_id rule = ruleId) in
  modify (fun w' =>
    {| clock := clock w'; next_id := next_id w';
       gating_rules :=
         map (fun rule => if hit rule then withEnabled enabled rule else rule)
             (gating_rules w');
       wallet_links := wallet_links w'; verify_sessions := verify_sessions w';
       audit_log := audit_log w'; price_cache := price_cache w';
       discord := discord w'; role_calls := role_calls w';
       price_calls := price_calls w' |}) ;;
  ret (Z.of_nat (length (List.filter hit (gating_rules w)))).

Definition getActiveRulesByGuild (guildId : string) : M (list GatingRule) :=
  findEnabledRules guildId.

(** [getActiveRulesGroupedByGuild]: the enabled rules, then the grouping
    loop. *)
Definition getActiveRulesGroupedByGuild : M (JsMap.t (list GatingRule)) :=
  let! w := get_world in
  let rules := List.filter rule_enabled (gating_rules w) in
  ret (fold_left
         (fun byGuild rule =>
            let list := default [] (JsMap.get byGuild (rule_guildId rule)) in
            JsMap.set byGuild (rule_guildId rule) (list ++ [rule]))
         rules JsMap.empty).

(** The grouping loop of [getActiveRulesGroupedByGuild]. *)
Definition groupByGuild (rules : list GatingRule) : JsMap.t (list GatingRule) :=
  fold_left
    (fun byGuild rule =>
       let list := default [] (JsMap.get byGuild (rule_guildId rule)) in
       JsMap.set byGuild (rule_guildId rule) (list ++ [rule]))
    rules JsMap.empty.

(** The rule that [guildId] and [ruleId] designate. *)
Definition hitsRule (guildId ruleId : string) (rule : GatingRule) : bool :=
  bool_decide (rule_guildId rule = guildId) && bool_decide (rule_id rule = ruleId).

(** ** Bounded concurrency ([src/utils/concurrency.ts])

    [runWithConcurrency] starts [maxWorkers] runners, each an [async] loop
    that takes the next index from the shared counter and awaits the worker on
    that item.  A runner is at the head of its loop, or awaits a worker call,
    or has returned.  Which runner goes on next is up to the event loop: a
    schedule names the runner that takes each step.  The pool keeps, besides
    the counter and the runners, the indices handed to the worker so far, in
    the order of the calls, and the first rejection, which is the one
    [Promise.all] rejects with. *)

Inductive Runner :=
| AtLoopHead
| Awaiting (call : Task unit)
| Returned (o : outcome unit).

Record Pool := {
  pool_index : nat;
  pool_runners : list Runner;
  pool_started : list nat;
  pool_rejected : option Error
}.

Section RunWithConcurrency.
Context {T : Type}.
Variable items : list T.
Variable worker : T -> nat -> Task unit.

(** [const current = index; index += 1; if (current >= items.length) break;
    await worker(items[current], current)]: the runner returns, or the worker
    is called and runs up to its first [await]. *)
Definition claim (index : nat) (w : World) : Runner * World * list nat :=
  match items !! index with
  | None => (Returned (Ok tt), w, [])
  | Some item =>
      let '(call, w') := step (worker item index) w in
      (Awaiting call, w', [index])
  end.

(** One step of a runner: the worker call it awaits takes its next block;
    or the call has returned and the loop goes round; or the call has thrown
    and the runner rejects. *)
Definition stepRunner (r : Runner) (index : nat) (w : World)
  : Runner * nat * World * list nat :=
  match r with
  | Returned o => (Returned o, index, w, [])
  | AtLoopHead | Awaiting (Done (Ok _)) =>
      let '(r', w', started) := claim index w in (r', S index, w', started)
  | Awaiting (Done (Throw e)) => (Returned (Throw e), index, w, [])
  | Awaiting (Done OutOfFuel) => (Returned OutOfFuel, index, w, [])
  | Awaiting (Await op k) =>
      let '(call, w') := step (Await op k) w in (Awaiting call, index, w', [])
  end.

Definition isReturned (r : Runner) : bool :=
  match r with Returned _ => true | _ => false end.

Definition stepPool (i : nat) (p : Pool) (w : World) : Pool * World :=
  match pool_runners p !! i with
  | None => (p, w)
  | Some r =>
      let '(r', index', w', started) := stepRunner r (pool_index p) w in
      ({| pool_index := index';
          pool_runners := <[i := r']> (pool_runners p);
          pool_started := pool_started p ++ started;
          pool_rejected :=
            match pool_rejected p, r' with
            | None, Returned (Throw e) =>
                if isReturned r then None else Some e
            | rejected, _ => rejected
            end |}, w')
  end.

Definition stepsPool (schedule : list nat) (p : Pool) (w : World) : Pool * World :=
  fold_left (fun pw i => stepPool i pw.1 pw.2) schedule (p, w).

(** [Math.max(1, Math.min(concurrency, items.length))], for a whole number
    [concurrency]. *)
Definition maxWorkers (concurrency : Z) : nat :=
  Z.to_nat (Z.max 1 (Z.min concurrency (Z.of_nat (length items)))).

(** The call: nothing for no items; else [Array.from] starts the runners one
    after the other, each up to its first [await], and then the schedule
    decides. *)
Definition runWithConcurrency (concurrency : Z) (schedule : list nat) (w : World)
  : Pool * World :=
  if bool_decide (length items = 0) then
    ({| pool_index := 0; pool_runners := []; pool_started := [];
        pool_rejected := None |}, w)
  else
    stepsPool (seq 0 (maxWorkers concurrency) ++ schedule)
      {| pool_index := 0;
         pool_runners := replicate (maxWorkers concurrency) AtLoopHead;
         pool_started := []; pool_rejected := None |} w.

(** What [await Promise.all(runners)] has settled to, if it has. *)
Definition poolOutcome (p : Pool) : option (outcome unit) :=
  match pool_rejected p with
  | Some e => Some (Throw e)
  | None =>
      if forallb (fun r => match r with Returned (Ok _) => true | _ => false end)
                 (pool_runners p)
      then Some (Ok tt) else None
  end.

(** The invariant of the pool: the indices handed out are 0, 1, ... up to
    the counter or the number of items, and a runner returns normally only
    once the counter has passed the last item. *)
Definition poolInv (p : Pool) : Prop :=
  pool_started p = seq 0 (pool_index p `min` length items) /\
  (Returned (Ok tt) ∈ pool_runners p -> length items <= pool_index p).

End RunWithConcurrency.

(** ** The run-now queue of the worker ([enqueueRecheck])

    The worker object holds the queue [runNowQueue] and the flag
    [processingRunNow].  A call of [enqueueRecheck] pushes its request and,
    unless a call is already draining the queue, drains it: it takes the
    requests from the front and awaits the check of each.  The checks are
    [this.runUserCheck] and [this.runGuildCheck], given here as tasks. *)

Record Recheck := {
  rc_guildId : string;
  rc_discordUserId : option string
}.

Record RunNow := {
  runNowQueue : list Recheck;
  processingRunNow : bool
}.

(** A call of [enqueueRecheck]: it awaits a check, or it has returned. *)
Inductive Drain :=
| DrainAwaiting (check : Task unit)
| DrainReturned (o : outcome unit).

(** The worker object, the calls of [enqueueRecheck] made so far, and two
    logs: the requests passed to the calls and the requests whose check was
    started, both in order. *)
Record Rechecks := {
  rn_fields : RunNow;
  rn_calls : list Drain;
  rn_enqueued : list Recheck;
  rn_started : list Recheck
}.

(** A call arrives, or the call of the given number takes its next step. *)
Inductive RecheckEvent :=
| CallEnqueue (guildId : string) (discordUserId : option string)
| ResumeCall (i : nat).

Section RunNowQueue.
Variable runUserCheckTask : string -> string -> Task unit.
Variable runGuildCheckTask : string -> Task unit.

(** [if (next.discordUserId) runUserCheck(...) else runGuildCheck(...)] *)
Definition checkOf (next : Recheck) : Task unit :=
  match rc_discordUserId next with
  | Some discordUserId =>
      if nonEmpty discordUserId then runUserCheckTask (rc_guildId next) discordUserId
      else runGuildCheckTask (rc_guildId next)
  | None => runGuildCheckTask (rc_guildId next)
  end.

(** The head of the [while] loop: with an empty queue the loop ends and
    [finally] clears the flag; else the front request is shifted and its
    check is called, which runs up to its first [await]. *)
Definition drainLoop (fields : RunNow) (w : World)
  : Drain * RunNow * World * list Recheck :=
  match runNowQueue fields with
  | [] =>
      (DrainReturned (Ok tt),
       {| runNowQueue := []; processingRunNow := false |}, w, [])
  | next :: rest =>
      let '(check, w') := step (checkOf next) w in
      (DrainAwaiting check,
       {| runNowQueue := rest; processingRunNow := processingRunNow fields |},
       w', [next])
  end.

(** The call up to its first [await] or its return. *)
Definition enqueueRecheck (guildId : string) (discordUserId : option string)
    (fields : RunNow) (w : World) : Drain * RunNow * World * list Recheck :=
  let queue :=
    runNowQueue fields ++
    [{| rc_guildId := guildId; rc_discordUserId := discordUserId |}] in
  if processingRunNow fields then
    (DrainReturned (Ok tt),
     {| runNowQueue := queue; processingRunNow := true |}, w, [])
  else
    drainLoop {| runNowQueue := queue; processingRunNow := true |} w.

(** The next step of a call: the check it awaits goes on; or the check has
    returned and the loop goes round; or the check has thrown: [finally]
    clears the flag and the call rejects. *)
Definition resumeDrain (d : Drain) (fields : RunNow) (w : World)
  : Drain * RunNow * World * list Recheck :=
  match d with
  | DrainReturned o => (DrainReturned o, fields, w, [])
  | DrainAwaiting (Await op k) =>
      let '(check, w') := step (Await op k) w in
      (DrainAwaiting check, fields, w', [])
  | DrainAwaiting (Done (Ok _)) => drainLoop fields w
  | DrainAwaiting (Done (Throw e)) =>
      (DrainReturned (Throw e),
       {| runNowQueue := runNowQueue fields; processingRunNow := false |}, w, [])
  | DrainAwaiting (Done OutOfFuel) =>
      (DrainReturned OutOfFuel,
       {| runNowQueue := runNowQueue fields; processingRunNow := false |}, w, [])
  end.

Definition recheckStep (event : RecheckEvent) (s : Rechecks) (w : World)
  : Rechecks * World :=
  match event with
  | CallEnqueue guildId discordUserId =>
      let '(d, fields, w', started) :=
        enqueueRecheck guildId discordUserId (rn_fields s) w in
      ({| rn_fields := fields;
          rn_calls := rn_calls s ++ [d];
          rn_enqueued :=
            rn_enqueued s ++
            [{| rc_guildId := guildId; rc_discordUserId := discordUserId |}];
          rn_started := rn_started s ++ started |}, w')
  | ResumeCall i =>
      match rn_calls s !! i with
      | None => (s, w)
      | Some d =>
          let '(d', fields, w', started) := resumeDrain d (rn_fields s) w in
          ({| rn_fields := fields;
              rn_calls := <[i := d']> (rn_calls s);
              rn_enqueued := rn_enqueued s;
              rn_started := rn_started s ++ started |}, w')
      end
  end.

Definition recheckSteps (events : list RecheckEvent) (s : Rechecks) (w : World)
  : Rechecks * World :=
  fold_left (fun sw event => recheckStep event sw.1 sw.2) events (s, w).

(** A fresh worker. *)
Definition idleWorker : Rechecks :=
  {| rn_fields := {| runNowQueue := []; processingRunNow := false |};
     rn_calls := []; rn_enqueued := []; rn_started := [] |}.

Definition isDraining (d : Drain) : bool :=
  match d with DrainAwaiting _ => true | DrainReturned _ => false end.

Definition hasRejected (d : Drain) : bool :=
  match d with
  | DrainReturned (Ok _) | DrainAwaiting _ => false
  | DrainReturned _ => true
  end.

(** The invariant of the queue. *)
Definition recheckInv (s : Rechecks) : Prop :=
  length (List.filter isDraining (rn_calls s)) =
    (if processingRunNow (rn_fields s) then 1 else 0) /\
  rn_started s ++ runNowQueue (rn_fields s) = rn_enqueued s /\
  (processingRunNow (rn_fields s) = false ->
   runNowQueue (rn_fields s) = [] \/ existsb hasRejected (rn_calls s) = true).

End RunNowQueue.

(** ** The [/unlink] command of the bot

    The branch of the [interactionCreate] handler for the command [unlink],
    inside the handler's [try]/[catch].  [guildId] is [interaction.guildId],
    [userId] is [interaction.user.id], [workerRef] tells whether
    [workerRef.current] is set.  [replyError] gives the error with which
    [interaction.reply] rejects for a content, if it does.  The value is the
    list of the contents delivered to the user. *)

Section UnlinkCommand.
Variable E : Env.
Variable replyError : string -> option Error.

Definition interactionReply (content : string) : M (list string) :=
  match replyError content with
  | Some e => throw e
  | None => ret [content]
  end.

Definition unlinkedContent (result : UnlinkResult) : string :=
  if ur_deleted result then
    "Wallet " +:+ default "undefined" (ur_wallet result) +:+
    " unlinked and managed roles removed."
  else "No wallet link found.".

Definition unlinkCommand (guildId : option string) (userId : string)
    (workerRef : bool) : M (list string) :=
  try_catch
    (match guildId with
     | Some guildId =>
         if nonEmpty guildId then
           let! result := run (unlinkWallet guildId userId) in
           (if ur_deleted result && workerRef then
              removeManagedRolesForMember E guildId userId
            else ret tt) ;;
           interactionReply (unlinkedContent result)
         else interactionReply "This command must be used in a server."
     | None => interactionReply "This command must be used in a server."
     end)
    (fun _ =>
       let! sent := catch_null (interactionReply "Command failed. Check logs.") in
       ret (default [] sent)).

(** What reaches the user when the handler's [catch] replies. *)
Definition failedReply : list string :=
  match replyError "Command failed. Check logs." with
  | None => ["Command failed. Check logs."]
  | Some _ => []
  end.

(** What reaches the user when the command replies [content]: the content, or
    what the [catch] replies when the reply rejects. *)
Definition delivered (content : string) : list string :=
  match replyError content with
  | None => [content]
  | Some _ => failedReply
  end.

End UnlinkCommand.

(** ** Further sample data *)

(** The sample state with a verified member whose wallet holds 100 of
    "mint-a" and who has "role-top" only. *)
Definition sampleHolderLink : WalletLink :=
  {| wl_id := "link-1"; wl_guildId := "guild-1"; wl_discordUserId := "user-1";
     wl_walletPubkey := "WALLET-A"; wl_verifiedAt := 500;
     wl_lastCheckedAt := None |}.

Definition sampleHolderWorld : World :=
  with_discord
    {[ "guild-1" :=
         {| gs_me := Some sampleBot; gs_fetchMe := inr sampleBot;
            gs_roles := gs_roles sampleGuild;
            gs_members := {[ "user-1" := ["role-top"] ]} |} ]}
    (with_wallet_links [sampleHolderLink] sampleWorld).

Definition sampleHolderSnapshot : WalletSnapshot :=
  {| snap_wallet := "WALLET-A";
     tokenBalancesByMint := {[ "mint-a" := float_of_Z 100 ]};
     nftCountsByCollection := ∅ |}.


(** The sample state after the member has verified "WALLET-A". *)
Definition sampleSubmitted : outcome SubmitResult * World :=
  run (submitVerifySignature sampleEnv (sampleSubmit "WALLET-A" "SIG-A")) sampleWorld.

(** The sample state of the verified holder, in a guild where the bot's own
    member cannot be fetched. *)
Definition sampleNoBotWorld : World :=
  with_discord
    {[ "guild-1" :=
         {| gs_me := None; gs_fetchMe := inl "Missing Access";
            gs_roles := gs_roles sampleGuild;
            gs_members := {[ "user-1" := ["role-1"; "role-top"] ]} |} ]}
    (with_wallet_links [sampleHolderLink] sampleWorld).

(** ** Price client: a call after a call *)

(** The requested ids for which a call returned no price. *)
Definition unpricedIds (assetIds : list string) (prices : gmap string number)
  : list string :=
  List.filter (fun id => negb (bool_decide (is_Some (prices !! id))))
              (uniqueInOrder (List.filter nonEmpty assetIds)).

(** * Properties *)

(** ** Insertion-ordered maps *)

Section JsMapFacts.
Context {V : Type}.
Implicit Types (m : JsMap.t V) (k : string) (v : V).

Lemma JsMap_get_set m k k' v :
  JsMap.get (JsMap.set m k v) k' = if decide (k = k') then Some v else JsMap.get m k'.
Proof.
  induction m as [|[k0 v0] m IH]; simpl.
  - done.
  - destruct (decide (k0 = k)) as [->|Hne]; simpl.
    + by destruct (decide (k = k')).
    + rewrite IH. destruct (decide (k0 = k')) as [->|?]; [|done].
      by rewrite decide_False.
Qed.

Lemma JsMap_keys_set m k v :
  JsMap.keys (JsMap.set m k v) =
  if bool_decide (k ∈ JsMap.keys m) then JsMap.keys m else JsMap.keys m ++ [k].
Proof.
  unfold JsMap.keys. induction m as [|[k0 v0] m IH]; [done|].
  cbn [JsMap.set]. destruct (decide (k0 = k)) as [->|Hne]; rewrite !fmap_cons /=.
  - rewrite bool_decide_true; [done|left].
  - rewrite IH. case_bool_decide as Hin.
    + rewrite bool_decide_true; [done|by right].
    + rewrite bool_decide_false; [done|].
      intros [?|?]%elem_of_cons; by simplify_eq.
Qed.

Lemma JsMap_elem_of_get m k v :
  NoDup (JsMap.keys m) -> (k, v) ∈ JsMap.entries m -> JsMap.get m k = Some v.
Proof.
  unfold JsMap.keys, JsMap.entries.
  induction m as [|[k0 v0] m IH]; simpl; intros Hnd Hin.
  - by apply elem_of_nil in Hin.
  - apply NoDup_cons in Hnd as [Hk0 Hnd].
    apply elem_of_cons in Hin as [?|Hin]; simplify_eq.
    + by rewrite decide_True.
    + rewrite decide_False; [by apply IH|].
      intros ->. apply Hk0. apply list_elem_of_fmap. by exists (k, v).
Qed.
End JsMapFacts.

(** ** First occurrences *)

Lemma uniqueInOrder_snoc (l : list string) (x : string) :
  uniqueInOrder (l ++ [x]) =
  if bool_decide (x ∈ uniqueInOrder l) then uniqueInOrder l
  else uniqueInOrder l ++ [x].
Proof. unfold uniqueInOrder. by rewrite fold_left_app. Qed.

Lemma uniqueInOrder_elem_of (l : list string) (x : string) :
  x ∈ uniqueInOrder l <-> x ∈ l.
Proof.
  revert x. induction l as [|y l IH] using rev_ind; intros x; [done|].
  rewrite uniqueInOrder_snoc. case_bool_decide as Hy.
  - rewrite elem_of_app list_elem_of_singleton IH. apply IH in Hy.
    split; [by left|]. by intros [?| ->].
  - by rewrite !elem_of_app IH.
Qed.

Lemma uniqueInOrder_NoDup (l : list string) : NoDup (uniqueInOrder l).
Proof.
  induction l as [|y l IH] using rev_ind; [constructor|].
  rewrite uniqueInOrder_snoc. case_bool_decide as Hy; [done|].
  apply NoDup_app. split_and!; [done| |apply NoDup_singleton].
  by intros x Hx ->%list_elem_of_singleton.
Qed.

(** ** Rule evaluator *)

Lemma groupByRole_snoc evaluations e :
  groupByRole (evaluations ++ [e]) =
  JsMap.set (groupByRole evaluations) (ev_roleId e)
    (default [] (JsMap.get (groupByRole evaluations) (ev_roleId e)) ++ [e]).
Proof. unfold groupByRole. by rewrite fold_left_app. Qed.

Lemma groupByRole_get evaluations roleId :
  JsMap.get (groupByRole evaluations) roleId =
  match roleGroup roleId evaluations with [] => None | g => Some g end.
Proof.
  induction evaluations as [|e evaluations IH] using rev_ind; [done|].
  rewrite groupByRole_snoc JsMap_get_set. unfold roleGroup in *.
  rewrite List.filter_app /=. case_decide as Hr.
  - subst roleId. rewrite bool_decide_true // IH.
    by destruct (List.filter _ evaluations).
  - rewrite bool_decide_false // app_nil_r. exact IH.
Qed.

Lemma groupByRole_keys evaluations :
  JsMap.keys (groupByRole evaluations) = uniqueInOrder (map ev_roleId evaluations).
Proof.
  induction evaluations as [|e evaluations IH] using rev_ind; [done|].
  by rewrite groupByRole_snoc JsMap_keys_set map_app uniqueInOrder_snoc IH.
Qed.

Lemma groupByRole_entries evaluations roleId evals :
  (roleId, evals) ∈ JsMap.entries (groupByRole evaluations) ->
  evals = roleGroup roleId evaluations.
Proof.
  intros Hin. apply JsMap_elem_of_get in Hin.
  - rewrite groupByRole_get in Hin. by destruct (roleGroup _ _); simplify_eq.
  - rewrite groupByRole_keys. apply uniqueInOrder_NoDup.
Qed.

Lemma computeRoleDecisions_roleIds evaluations :
  map dec_roleId (computeRoleDecisions evaluations) =
  uniqueInOrder (map ev_roleId evaluations).
Proof.
  rewrite -groupByRole_keys. unfold computeRoleDecisions, JsMap.keys, JsMap.entries.
  rewrite map_map. apply map_ext. by intros [k g].
Qed.

Lemma existsb_isTrue evals :
  existsb isTrue evals = true <-> Exists (fun e => ev_satisfied e = Some true) evals.
Proof.
  rewrite existsb_exists Exists_exists. unfold isTrue.
  split; intros (e & Hin & He); exists e; (split; [by apply list_elem_of_In|]).
  - by destruct (ev_satisfied e) as [[]|].
  - by rewrite He.
Qed.

Lemma existsb_isNull evals :
  existsb isNull evals = true <-> Exists (fun e => ev_satisfied e = None) evals.
Proof.
  rewrite existsb_exists Exists_exists. unfold isNull.
  split; intros (e & Hin & He); exists e; (split; [by apply list_elem_of_In|]).
  - by destruct (ev_satisfied e) as [[]|].
  - by rewrite He.
Qed.

Lemma decideRole_shouldHave roleId evals :
  let d := decideRole (roleId, evals) in
  (dec_shouldHave d = Some true <->
     Exists (fun e => ev_satisfied e = Some true) evals) /\
  (dec_shouldHave d = None <->
     Forall (fun e => ev_satisfied e <> Some true) evals /\
     Exists (fun e => ev_satisfied e = None) evals) /\
  (dec_shouldHave d = Some false <->
     Forall (fun e => ev_satisfied e = Some false) evals).
Proof.
  simpl. rewrite -existsb_isTrue -existsb_isNull.
  assert (Forall (fun e => ev_satisfied e <> Some true) evals <->
          existsb isTrue evals = false) as ->.
  { by rewrite -not_true_iff_false existsb_isTrue -Forall_Exists_neg. }
  assert (Forall (fun e => ev_satisfied e = Some false) evals <->
          existsb isTrue evals = false /\ existsb isNull evals = false) as ->.
  { rewrite -!not_true_iff_false existsb_isTrue existsb_isNull.
    rewrite -!Forall_Exists_neg -Forall_and. apply Forall_proper; [|done].
    intros e. destruct (ev_satisfied e) as [[]|]; intuition congruence. }
  destruct (existsb isTrue evals), (existsb isNull evals); intuition congruence.
Qed.

(** C2.  [computeRoleDecisions] groups the evaluations by role id and
    returns exactly one decision per role id that occurs.  For each decision,
    with [group] the evaluations of its role: [shouldHave] is [true] iff some
    evaluation of the group is satisfied, and [matchedRuleIds] are the rule
    ids of exactly the satisfied ones; [shouldHave] is [null] iff none is
    satisfied and some is [null]; it is [false] otherwise, that is iff every
    evaluation of the group is [false]. *)
Theorem computeRoleDecisions_or_semantics (evaluations : list EvaluationResult) :
  let decisions := computeRoleDecisions evaluations in
  NoDup (map dec_roleId decisions) /\
  (forall roleId,
     roleId ∈ map dec_roleId decisions <-> roleId ∈ map ev_roleId evaluations) /\
  Forall (fun d =>
    let group := roleGroup (dec_roleId d) evaluations in
    (dec_shouldHave d = Some true <->
       Exists (fun e => ev_satisfied e = Some true) group) /\
    dec_matchedRuleIds d =
      map ev_ruleId
        (List.filter (fun e => bool_decide (ev_satisfied e = Some true)) group) /\
    (dec_shouldHave d = None <->
       Forall (fun e => ev_satisfied e <> Some true) group /\
       Exists (fun e => ev_satisfied e = None) group) /\
    (dec_shouldHave d = Some false <->
       Forall (fun e => ev_satisfied e = Some false) group)) decisions.
Proof.
  intros decisions. subst decisions. rewrite computeRoleDecisions_roleIds.
  split_and!.
  - apply uniqueInOrder_NoDup.
  - intros roleId. apply uniqueInOrder_elem_of.
  - apply Forall_forall. intros d Hd.
    apply list_elem_of_In, in_map_iff in Hd as ([roleId evals] & <- & Hin).
    apply list_elem_of_In, groupByRole_entries in Hin as ->.
    pose proof (decideRole_shouldHave roleId (roleGroup roleId evaluations))
      as (H1 & H2 & H3).
    cbn [decideRole dec_roleId dec_shouldHave dec_matchedRuleIds] in *.
    split_and!; try done.
    f_equal. apply filter_ext. intros e. unfold isTrue.
    by destruct (ev_satisfied e) as [[]|].
Qed.

(** Scenario S4 of the specification, as the repository's test has it. *)
Example computeRoleDecisions_S4 :
  computeRoleDecisions
    [ {| ev_ruleId := "r1"; ev_roleId := "role-1";
         ev_satisfied := Some false; ev_reason := "false" |};
      {| ev_ruleId := "r2"; ev_roleId := "role-1";
         ev_satisfied := None; ev_reason := "indeterminate" |};
      {| ev_ruleId := "r3"; ev_roleId := "role-2";
         ev_satisfied := Some true; ev_reason := "true" |} ]
  = [ {| dec_roleId := "role-1"; dec_shouldHave := None;
         dec_matchedRuleIds := [] |};
      {| dec_roleId := "role-2"; dec_shouldHave := Some true;
         dec_matchedRuleIds := ["r3"] |} ].
Proof. reflexivity. Qed.

(** [x >= x] holds for every number but NaN. *)
Lemma js_ge_refl (x : number) : PrimFloat.is_nan x = false -> js_ge x x = true.
Proof.
  unfold js_ge, PrimFloat.is_nan.
  rewrite FloatAxioms.leb_spec FloatAxioms.eqb_spec.
  unfold SFleb, SFeqb. by destruct (SFcompare _ _) as [[]|].
Qed.

(** C3.  [evaluateRules] returns exactly one evaluation per rule, in order,
    carrying the rule's id and role.  The thresholds are the stored decimals
    as numbers (0 for a null column).  TOKEN_AMOUNT: [satisfied] is
    [balance >= threshold] with the balance of the rule's mint (0 when
    absent), never [null], and [true] at exact equality.  TOKEN_USD:
    [satisfied] is [null] exactly when the price of [priceAssetId] is absent,
    and [balance * price >= thresholdUsd] otherwise.  NFT_COLLECTION:
    [satisfied] is [count >= thresholdCount] with the count of the collection
    (0 when absent), never [null]. *)
Theorem evaluateRules_spec (E : Env) (rules : list GatingRule)
    (snapshot : WalletSnapshot) (prices : gmap string number) :
  Forall2 (fun rule ev =>
    let balance :=
      default 0%float (tokenBalancesByMint snapshot !! default "" (rule_mint rule)) in
    let count :=
      default 0%Z
        (nftCountsByCollection snapshot !! default "" (rule_collection rule)) in
    ev_ruleId ev = rule_id rule /\ ev_roleId ev = rule_roleId rule /\
    match rule_type rule with
    | TOKEN_AMOUNT =>
        let threshold :=
          match rule_thresholdAmount rule with
          | Some stored => decimalToNumber E stored
          | None => 0%float
          end in
        ev_satisfied ev = Some (js_ge balance threshold) /\
        (balance = threshold -> PrimFloat.is_nan balance = false ->
         ev_satisfied ev = Some true)
    | TOKEN_USD =>
        let thresholdUsd :=
          match rule_thresholdUsd rule with
          | Some stored => decimalToNumber E stored
          | None => 0%float
          end in
        match prices !! default "" (rule_priceAssetId rule) with
        | None => ev_satisfied ev = None
        | Some price =>
            ev_satisfied ev = Some (js_ge (PrimFloat.mul balance price) thresholdUsd)
        end
    | NFT_COLLECTION =>
        ev_satisfied ev =
        Some (bool_decide (default 0 (rule_thresholdCount rule) ≤ count)%Z)
    end)
    rules (evaluateRules E rules snapshot prices).
Proof.
  unfold evaluateRules. induction rules as [|rule rules IH]; constructor; [|done].
  unfold evaluateRule. destruct (rule_type rule); simpl.
  - unfold numberOrZero. split_and!; try done. intros <- Hnan. by rewrite js_ge_refl.
  - unfold evaluateTokenUsd, numberOrZero. by destruct (prices !! _).
  - done.
Qed.

(** C9.  A null threshold is read as 0: a TOKEN_AMOUNT or NFT_COLLECTION rule
    with a null threshold compares the balance or count with 0, and is
    satisfied on every snapshot whose balances and counts are not negative;
    a TOKEN_USD rule with a null threshold compares the value with 0.  A null
    mint or collection is read as the empty string.  A rule whose type is
    neither TOKEN_AMOUNT nor TOKEN_USD takes the NFT_COLLECTION branch. *)
Theorem evaluateRule_null_columns (E : Env) (rule : GatingRule)
    (snapshot : WalletSnapshot) (prices : gmap string number) :
  let ev := evaluateRule E rule snapshot prices in
  let balance :=
    default 0%float (tokenBalancesByMint snapshot !! default "" (rule_mint rule)) in
  let count :=
    default 0%Z
      (nftCountsByCollection snapshot !! default "" (rule_collection rule)) in
  (rule_type rule = TOKEN_AMOUNT -> rule_thresholdAmount rule = None ->
     ev_satisfied ev = Some (js_ge balance 0%float) /\
     (nonNegativeSnapshot snapshot -> ev_satisfied ev = Some true)) /\
  (rule_type rule = TOKEN_USD -> rule_thresholdUsd rule = None ->
     forall price, prices !! default "" (rule_priceAssetId rule) = Some price ->
     ev_satisfied ev = Some (js_ge (PrimFloat.mul balance price) 0%float)) /\
  (rule_type rule = NFT_COLLECTION -> rule_thresholdCount rule = None ->
     ev_satisfied ev = Some (bool_decide (0 ≤ count)%Z) /\
     (nonNegativeSnapshot snapshot -> ev_satisfied ev = Some true)) /\
  ev = evaluateRule E (emptyForNull rule) snapshot prices /\
  ev = evaluateRule E (zeroCountForNull rule) snapshot prices /\
  (rule_type rule <> TOKEN_AMOUNT -> rule_type rule <> TOKEN_USD ->
     ev = evaluateNftCollection rule snapshot).
Proof.
  intros ev balance count. subst ev balance count. unfold evaluateRule.
  split_and!.
  - intros -> Hnull. simpl. unfold evaluateTokenAmount. rewrite Hnull /=.
    split; [done|]. intros [Htok _]. f_equal.
    destruct (tokenBalancesByMint snapshot !! _) as [x|] eqn:Hx; [|done].
    by apply Htok in Hx.
  - intros -> Hnull price Hprice. simpl. unfold evaluateTokenUsd.
    by rewrite Hprice Hnull.
  - intros -> Hnull. simpl. unfold evaluateNftCollection. rewrite Hnull /=.
    split; [done|]. intros [_ Hnft]. f_equal. apply bool_decide_eq_true.
    destruct (nftCountsByCollection snapshot !! _) as [n|] eqn:Hn; [|done].
    by apply Hnft in Hn.
  - unfold emptyForNull. simpl. by repeat case_decide.
  - unfold zeroCountForNull. simpl. by repeat case_decide.
  - intros H1 H2. by rewrite !decide_False.
Qed.

(** ** Chain-holdings adapter *)

Lemma verifiedGroupValue_Some group collection :
  verifiedGroupValue group = Some collection <-> verifiedGroupFor collection group.
Proof.
  unfold verifiedGroupValue, verifiedGroupFor, isStrictlyTrue.
  destruct (group_key group) as [| |?|?|key|]; try (split; [done|by intros (?&?&?)]).
  destruct (group_value group) as [| |?|?|value|]; try (split; [done|by intros (?&?&?)]).
  case_bool_decide as Hk; simpl.
  - subst key. destruct (verified group) as [| |[]|?|?|],
      (collection_verified group) as [| |[]|?|?|]; simpl;
      try (split; [intros [= ->]; split_and!; by eauto|intros (_&[= ->]&_); done]);
      split; try done; intros (_&_&[?|?]); done.
  - split; [done|]. intros ([= ->]&_). done.
Qed.

Lemma verifiedGroupValue_None group :
  verifiedGroupValue group = None <-> ~ verifiedGroup group.
Proof.
  split.
  - intros Hn [c Hc%verifiedGroupValue_Some]. congruence.
  - intros Hn. destruct (verifiedGroupValue group) as [c|] eqn:Hc; [|done].
    exfalso. apply Hn. exists c. by apply verifiedGroupValue_Some.
Qed.

Lemma firstVerifiedGroupValue_Some groups collection :
  firstVerifiedGroupValue groups = Some collection <->
  exists before group after,
    groups = before ++ group :: after /\
    Forall (fun g => ~ verifiedGroup g) before /\
    verifiedGroupFor collection group.
Proof.
  induction groups as [|g groups IH]; simpl.
  - split; [done|]. intros (before & ? & ? & H & _). by destruct before.
  - destruct (verifiedGroupValue g) as [c|] eqn:Hg.
    + split.
      * intros [= ->]. exists [], g, groups. split_and!; [done|constructor|].
        by apply verifiedGroupValue_Some.
      * intros ([|g' before] & group & after & Heq & Hbefore & Hgroup);
          simplify_eq/=.
        -- apply verifiedGroupValue_Some in Hgroup. congruence.
        -- apply Forall_cons in Hbefore as [Hg' _].
           apply verifiedGroupValue_None in Hg'. congruence.
    + rewrite IH. split.
      * intros (before & group & after & -> & Hbefore & Hgroup).
        exists (g :: before), group, after. split_and!; [done| |done].
        constructor; [by apply verifiedGroupValue_None|done].
      * intros ([|g' before] & group & after & Heq & Hbefore & Hgroup);
          simplify_eq/=.
        -- apply verifiedGroupValue_Some in Hgroup. congruence.
        -- apply Forall_cons in Hbefore as [_ Hbefore]. by eauto 6.
Qed.

Lemma firstVerifiedGroupValue_None groups :
  firstVerifiedGroupValue groups = None <->
  Forall (fun g => ~ verifiedGroup g) groups.
Proof.
  induction groups as [|g groups IH]; simpl.
  - split; [constructor|done].
  - rewrite Forall_cons -IH -verifiedGroupValue_None.
    destruct (verifiedGroupValue g); intuition congruence.
Qed.

Lemma verifiedMetadataKey_Some asset collection :
  verifiedMetadataKey (asset_collection asset) = Some collection <->
  verifiedMetadataFor collection asset.
Proof.
  unfold verifiedMetadataKey, verifiedMetadataFor.
  destruct (asset_collection asset) as [c|]; [|split; [done|by intros (?&?&?)]].
  destruct (coll_verified c) as [[]|] eqn:Hv, (coll_key c) as [key|] eqn:Hk;
    try (split; [done|intros (? & [= <-] & ? & ? & ?); congruence]).
  case_bool_decide as Hkey.
  - split; [done|]. intros (? & [= <-] & ? & ? & ?). congruence.
  - split.
    + intros [= ->]. by exists c.
    + intros (? & [= <-] & ? & ? & ?). congruence.
Qed.

Lemma extract_chosen asset collection :
  extractVerifiedCollectionAddress asset = Some collection <->
  chosenCollection asset collection.
Proof.
  unfold extractVerifiedCollectionAddress, chosenCollection.
  destruct (firstVerifiedGroupValue _) as [c|] eqn:Hf.
  - split.
    + intros [= ->]. left. by apply firstVerifiedGroupValue_Some.
    + intros [H|[H _]].
      * apply firstVerifiedGroupValue_Some in H. congruence.
      * apply firstVerifiedGroupValue_None in H. congruence.
  - rewrite verifiedMetadataKey_Some. split.
    + intros H. right. split; [|done]. by apply firstVerifiedGroupValue_None.
    + intros [H|[_ H]]; [|done].
      apply firstVerifiedGroupValue_Some in H. congruence.
Qed.

Lemma countItem_lookup counts item collection :
  collection <> "" ->
  countItem counts item !! collection =
  if bool_decide (extractVerifiedCollectionAddress item = Some collection)
  then Some (default 0 (counts !! collection) + 1)%Z
  else counts !! collection.
Proof.
  intros Hne. unfold countItem.
  destruct (extractVerifiedCollectionAddress item) as [c|]; [|done].
  destruct (decide (c = collection)) as [->|Hc].
  - rewrite bool_decide_false // bool_decide_true //. by rewrite lookup_insert_eq.
  - rewrite (bool_decide_false (Some c = Some collection)); [|congruence].
    case_bool_decide; [done|]. by rewrite lookup_insert_ne.
Qed.

Lemma countItem_lookup_empty counts item :
  countItem counts item !! "" = counts !! "".
Proof.
  unfold countItem.
  destruct (extractVerifiedCollectionAddress item) as [c|]; [|done].
  case_bool_decide as Hc; [done|]. by rewrite lookup_insert_ne.
Qed.

Lemma countItems_lookup items counts collection :
  collection <> "" ->
  countItems counts items !! collection =
  match chosenCount collection items with
  | O => counts !! collection
  | S n => Some (default 0 (counts !! collection) + Z.of_nat (S n))%Z
  end.
Proof.
  intros Hne. unfold countItems, chosenCount.
  revert counts. induction items as [|item items IH]; intros counts; [done|].
  cbn [fold_left List.filter]. rewrite IH countItem_lookup //.
  case_bool_decide as Hc; cbn [length].
  - destruct (length _); simpl; f_equal; lia.
  - done.
Qed.

Lemma countItems_lookup_empty items counts :
  countItems counts items !! "" = counts !! "".
Proof.
  unfold countItems. revert counts.
  induction items as [|item items IH]; intros counts; [done|].
  simpl. by rewrite IH countItem_lookup_empty.
Qed.

(** C8, as amended.  The counting step retains at most one collection per
    asset: the value of the first grouping entry with key ["collection"], a
    string value and [verified] or [collection_verified] equal to the boolean
    [true]; failing such an entry, the key of [content.metadata.collection]
    when it is verified and non-empty.  Over the items of a page, the count
    of every non-empty collection grows by exactly the number of items that
    retain it (an entry appears only when some item does), and nothing is
    counted under the empty string: every other asset is skipped. *)
Theorem nft_counting_step (counts : gmap string Z) (items : list DasAsset) :
  (forall item collection,
     extractVerifiedCollectionAddress item = Some collection <->
     chosenCollection item collection) /\
  (forall collection, collection <> "" ->
     countItems counts items !! collection =
     match chosenCount collection items with
     | O => counts !! collection
     | S n => Some (default 0 (counts !! collection) + Z.of_nat (S n))%Z
     end) /\
  countItems counts items !! "" = counts !! "".
Proof.
  split_and!.
  - apply extract_chosen.
  - intros. by apply countItems_lookup.
  - apply countItems_lookup_empty.
Qed.

(** C8, as stated, fails.  A grouping entry whose [verified] flag is the
    truthy value [1] is a signal in the specification's words, and the code
    skips the asset.  An asset with verified metadata of key ["K"] carries
    the second signal, and the code skips it as well when its first verified
    grouping entry has the empty string as value. *)
Lemma truthy_flag_not_counted :
  (claimedSignal truthyFlagAsset "C" /\
   ~ countedUnder truthyFlagAsset "C" /\
   forall counts, countItem counts truthyFlagAsset = counts) /\
  (claimedSignal emptyValueAsset "K" /\
   ~ countedUnder emptyValueAsset "K" /\
   forall counts, countItem counts emptyValueAsset = counts).
Proof.
  split; split_and!.
  - left. eexists. split; [by apply list_elem_of_here|]. split_and!; try done.
    by left.
  - intros H. by specialize (H ∅).
  - done.
  - right. by eexists.
  - intros H. by specialize (H ∅).
  - done.
Qed.


(** The counts the adapter builds are positive: what [nonNegativeSnapshot]
    asks of the NFT side holds of every snapshot it returns. *)
Lemma countItem_positive counts item :
  map_Forall (fun _ count => (0 < count)%Z) counts ->
  map_Forall (fun _ count => (0 < count)%Z) (countItem counts item).
Proof.
  intros Hpos. unfold countItem.
  destruct (extractVerifiedCollectionAddress item) as [collection|]; [|done].
  case_bool_decide; [done|]. apply map_Forall_insert_2; [|done].
  destruct (counts !! collection) as [n|] eqn:Hn; simpl; [|lia].
  apply Hpos in Hn. lia.
Qed.

Lemma countItems_positive items counts :
  map_Forall (fun _ count => (0 < count)%Z) counts ->
  map_Forall (fun _ count => (0 < count)%Z) (countItems counts items).
Proof.
  unfold countItems. revert counts.
  induction items as [|item items IH]; intros counts Hpos; [done|].
  simpl. by apply IH, countItem_positive.
Qed.

Lemma fetchNftPages_positive E fuel owner page counts result :
  map_Forall (fun _ count => (0 < count)%Z) counts ->
  fetchNftPages E fuel owner page counts = Ok result ->
  map_Forall (fun _ count => (0 < count)%Z) result.
Proof.
  revert page counts. induction fuel as [|fuel IH]; intros page counts Hpos; [done|].
  cbn [fetchNftPages].
  destruct (withRetry _ _) as [data|e|]; [|done|done].
  case_bool_decide.
  - intros [= <-]. by apply countItems_positive.
  - apply IH. by apply countItems_positive.
Qed.

Lemma getWalletSnapshot_counts E fuel wallet tokens nfts snapshot :
  getWalletSnapshot E fuel wallet tokens nfts = Ok snapshot ->
  map_Forall (fun _ count => (0 ≤ count)%Z) (nftCountsByCollection snapshot).
Proof.
  unfold getWalletSnapshot.
  destruct (newPublicKey E wallet) as [owner|e|]; [|done|done].
  destruct (if tokens then _ else _) as [balances|e|]; [|done|done].
  destruct nfts.
  - destruct (fetchNftCountsByCollection E fuel wallet) as [counts|e|] eqn:Hnft;
      [|done|done].
    intros [= <-]. cbn [nftCountsByCollection].
    apply (fetchNftPages_positive E fuel wallet 1 ∅) in Hnft; [|done].
    eapply map_Forall_impl; [exact Hnft|]. intros. simpl in *. lia.
  - intros [= <-]. done.
Qed.

(** ** Verification service *)

Lemma run_steps {A : Type} (n : nat) (t : Task A) (w : World) :
  run t w = run (steps n t w).1 (steps n t w).2.
Proof.
  revert t w. induction n as [|n IH]; intros t w; [done|].
  cbn [steps]. destruct t as [o|X op k]; cbn [step].
  - apply IH.
  - cbn [run]. by destruct (op w) as [[x|e|] w'] eqn:Hop; rewrite -IH.
Qed.

Lemma decodeVerifyToken_world E token w :
  (decodeVerifyToken E token w).2 = w.
Proof.
  unfold decodeVerifyToken, bind, now. simpl.
  destruct (jwt_verify E token (clock w)) as [e| |[g|] [u|] [s|]]; try done.
  by destruct (nonEmpty g && nonEmpty u && nonEmpty s).
Qed.

Lemma find_none_Forall {A} (f : A -> bool) (l : list A) :
  Forall (fun x => f x = false) l -> find f l = None.
Proof. induction 1 as [|x l Hx _ IH]; [done|]. simpl. by rewrite Hx. Qed.

Lemma findWalletLink_absent guildId discordUserId w :
  noWalletLink guildId discordUserId w ->
  findWalletLink guildId discordUserId w = (Ok None, w).
Proof.
  intros Hno. unfold findWalletLink. f_equal. f_equal.
  apply find_none_Forall. eapply Forall_impl; [exact Hno|].
  intros l Hl. simpl in Hl. apply andb_false_iff.
  destruct (decide (wl_guildId l = guildId)) as [Hg|Hg];
    [right|left]; apply bool_decide_eq_false; tauto.
Qed.

Lemma find_Some_elem_of {A} (f : A -> bool) (l : list A) (x : A) :
  find f l = Some x -> x ∈ l /\ f x = true.
Proof. intros [? ?]%find_some. by rewrite list_elem_of_In. Qed.

(** C10.  [unlinkWallet] for a pair with no stored wallet link returns
    [deleted = false] and leaves the whole state as it was: nothing is
    deleted and no audit entry is written.  Whatever the state, an audit
    entry that [unlinkWallet] adds is VERIFY_UNLINKED, and then a link of the
    pair existed before the call and is gone after it. *)
Theorem unlinkWallet_without_link (guildId discordUserId : string) (w : World) :
  let w' := (run (unlinkWallet guildId discordUserId) w).2 in
  (noWalletLink guildId discordUserId w ->
   run (unlinkWallet guildId discordUserId) w =
   (Ok {| ur_deleted := false; ur_wallet := None |}, w)) /\
  (forall entry, entry ∈ audit_log w' -> entry ∉ audit_log w ->
     al_action entry = VERIFY_UNLINKED /\
     exists link, link ∈ wallet_links w /\
       wl_guildId link = guildId /\ wl_discordUserId link = discordUserId /\
       link ∉ wallet_links w').
Proof.
  intros w'. split.
  - intros Hno. unfold unlinkWallet. cbn [run]. by rewrite findWalletLink_absent.
  - subst w'. unfold unlinkWallet. cbn [run]. unfold findWalletLink.
    destruct (find _ (wallet_links w)) as [existing|] eqn:Hfind; [|done].
    apply find_Some_elem_of in Hfind as [Hin [Hg Hu]%andb_true_iff].
    apply bool_decide_eq_true in Hg, Hu.
    cbn [run]. unfold deleteWalletLink, bind, get_world. cbn beta iota.
    assert (existsb (fun l => bool_decide (wl_id l = wl_id existing))
                    (wallet_links w) = true) as ->.
    { apply existsb_exists. exists existing.
      split; [by apply list_elem_of_In|by apply bool_decide_eq_true]. }
    simpl. intros entry [Hold| ->%list_elem_of_singleton]%elem_of_app Hnew; [done|].
    split; [done|]. exists existing. split_and!; try done.
    rewrite list_elem_of_In filter_In bool_decide_true //. by intros [_ ?].
Qed.

(** C10 on the sample state, where no link is stored. *)
Lemma unlinkWallet_without_link_witness :
  run (unlinkWallet "guild-1" "user-1") sampleWorld =
  (Ok {| ur_deleted := false; ur_wallet := None |}, sampleWorld).
Proof.
  apply (unlinkWallet_without_link "guild-1" "user-1" sampleWorld). constructor.
Defined.

Lemma checkSessionAndSignature_world E session input w :
  (checkSessionAndSignature E session input w).2 = w.
Proof.
  unfold checkSessionAndSignature, bind, now, throw, ret.
  repeat (case_bool_decide || case_match); simpl; done.
Qed.

Lemma checkSessionAndSignature_used E session input w :
  is_Some (vs_usedAt session) ->
  checkSessionAndSignature E session input w =
  (Throw "Verify session already used", w).
Proof. intros Hused. unfold checkSessionAndSignature. by rewrite bool_decide_true. Qed.

Lemma checkSessionAndSignature_expired E session input w :
  vs_usedAt session = None -> (vs_expiresAt session < clock w)%Z ->
  checkSessionAndSignature E session input w = (Throw "Verify session expired", w).
Proof.
  intros Hused Hexp. unfold checkSessionAndSignature, bind, now.
  rewrite bool_decide_false; [|by rewrite Hused; intros [? ?]].
  by rewrite bool_decide_true.
Qed.

Lemma checkSessionAndSignature_Ok E session input w r w' :
  checkSessionAndSignature E session input w = (Ok r, w') ->
  vs_usedAt session = None /\ (clock w ≤ vs_expiresAt session)%Z.
Proof.
  unfold checkSessionAndSignature, bind, now, throw.
  case_bool_decide as Hused; [done|]. case_bool_decide as Hexp; [done|].
  intros _. split; [|lia]. destruct (vs_usedAt session); [|done].
  exfalso. apply Hused. by eexists.
Qed.

(** The first block of [submitVerifySignature]: what the session lookup
    returns is [sessionOfToken]. *)
Lemma submit_lookup E token w :
  (let! payload := decodeVerifyToken E token in
   findVerifySession (vp_sessionId payload)) w =
  match decodeVerifyToken E token w with
  | (Ok _, _) => (Ok (sessionOfToken E token w), w)
  | (Throw e, _) => (Throw e, w)
  | (OutOfFuel, _) => (OutOfFuel, w)
  end.
Proof.
  unfold bind, sessionOfToken. pose proof (decodeVerifyToken_world E token w) as Hw.
  destruct (decodeVerifyToken E token w) as [[payload|e|] w0]; simpl in Hw; by subst.
Qed.

Lemma sessionOfToken_Some_decode E token w session :
  sessionOfToken E token w = Some session ->
  exists payload, decodeVerifyToken E token w = (Ok payload, w) /\
    find (fun s => bool_decide (vs_id s = vp_sessionId payload)) (verify_sessions w)
    = Some session.
Proof.
  unfold sessionOfToken. pose proof (decodeVerifyToken_world E token w) as Hw.
  destruct (decodeVerifyToken E token w) as [[payload|e|] w0]; simpl in Hw; subst;
    try done. by exists payload.
Qed.

Lemma submit_used E input w session :
  sessionOfToken E (si_token input) w = Some session ->
  is_Some (vs_usedAt session) ->
  run (submitVerifySignature E input) w = (Throw "Verify session already used", w).
Proof.
  intros Hs Hused. unfold submitVerifySignature. cbn [run].
  rewrite submit_lookup.
  destruct (sessionOfToken_Some_decode _ _ _ _ Hs) as (payload & -> & _).
  rewrite Hs. cbn [run]. unfold bind at 1.
  by rewrite checkSessionAndSignature_used.
Qed.

Lemma submit_expired E input w session :
  sessionOfToken E (si_token input) w = Some session ->
  vs_usedAt session = None -> (vs_expiresAt session < clock w)%Z ->
  run (submitVerifySignature E input) w = (Throw "Verify session expired", w).
Proof.
  intros Hs Hused Hexp. unfold submitVerifySignature. cbn [run].
  rewrite submit_lookup.
  destruct (sessionOfToken_Some_decode _ _ _ _ Hs) as (payload & -> & _).
  rewrite Hs. cbn [run]. unfold bind at 1.
  by rewrite checkSessionAndSignature_expired.
Qed.

Lemma find_map_mark (id : string) (usedAt : Z) (sessions : list VerifySession) :
  find (fun s => bool_decide (vs_id s = id))
       (map (fun s => if bool_decide (vs_id s = id) then markUsed usedAt s else s)
            sessions) =
  markUsed usedAt <$> find (fun s => bool_decide (vs_id s = id)) sessions.
Proof.
  induction sessions as [|s sessions IH]; [done|]. cbn [map find].
  destruct (decide (vs_id s = id)) as [Hs|Hs].
  - by rewrite !(bool_decide_true (vs_id s = id)) //=.
  - rewrite !(bool_decide_false (vs_id s = id)) //.
Qed.

Lemma find_Some_existsb {A} (f : A -> bool) (l : list A) (x : A) :
  find f l = Some x -> existsb f l = true.
Proof.
  intros [Hin Hf]%find_some. apply existsb_exists. by exists x.
Qed.

Lemma updateSessionUsedAt_found id w session :
  find (fun s => bool_decide (vs_id s = id)) (verify_sessions w) = Some session ->
  updateSessionUsedAt id w =
  (Ok tt,
   with_verify_sessions
     (map (fun s => if bool_decide (vs_id s = id) then markUsed (clock w) s else s)
          (verify_sessions w)) w).
Proof.
  intros Hfind. unfold updateSessionUsedAt, bind, now, get_world. cbn beta iota.
  by rewrite (find_Some_existsb _ _ _ Hfind).
Qed.

Lemma upsertWalletLink_Ok guildId discordUserId walletPubkey w :
  exists w', upsertWalletLink guildId discordUserId walletPubkey w = (Ok tt, w') /\
    clock w' = clock w /\ verify_sessions w' = verify_sessions w /\
    audit_log w' = audit_log w /\
    exists link, link ∈ wallet_links w' /\ wl_guildId link = guildId /\
      wl_discordUserId link = discordUserId /\ wl_walletPubkey link = walletPubkey.
Proof.
  unfold upsertWalletLink, bind, now, get_world, fresh_id, modify. cbn beta iota.
  destruct (existsb _ (wallet_links w)) eqn:Hex.
  - eexists. split; [done|]. split_and!; try done.
    apply existsb_exists in Hex as (l & Hin & [Hg Hu]%andb_true_iff).
    apply bool_decide_eq_true in Hg, Hu.
    eexists. split.
    + cbn [wallet_links with_wallet_links]. apply list_elem_of_In, in_map.
      exact Hin.
    + cbn beta. rewrite Hg Hu !bool_decide_true //.
  - eexists. split; [done|]. split_and!; try done.
    eexists. split; [apply elem_of_app; right; apply list_elem_of_singleton; done|done].
Qed.

Lemma writeAuditLog_Ok input w :
  exists w', writeAuditLog input w = (Ok tt, w') /\
    clock w' = clock w /\ verify_sessions w' = verify_sessions w /\
    wallet_links w' = wallet_links w.
Proof.
  unfold writeAuditLog, bind, now, fresh_id, modify. eexists. by split.
Qed.

(** What a successful [submitVerifySignature] went through. *)
Lemma submit_success_inv E input w result w' :
  run (submitVerifySignature E input) w = (Ok result, w') ->
  exists session,
    sessionOfToken E (si_token input) w = Some session /\
    vs_usedAt session = None /\
    let after3 := steps 3 (submitVerifySignature E input) w in
    after3.2 =
      with_verify_sessions
        (map (fun s => if bool_decide (vs_id s = vs_id session)
                       then markUsed (clock w) s else s)
             (verify_sessions w)) w /\
    run after3.1 after3.2 = (Ok result, w') /\
    clock w' = clock w /\ verify_sessions w' = verify_sessions after3.2 /\
    (exists link, link ∈ wallet_links (steps 1 after3.1 after3.2).2 /\
       wl_guildId link = vs_guildId session /\
       wl_discordUserId link = vs_discordUserId session /\
       wl_walletPubkey link = si_walletPubkey input) /\
    sr_guildId result = vs_guildId session /\
    sr_discordUserId result = vs_discordUserId session.
Proof.
  intros Hrun. rewrite (run_steps 3) in Hrun. cbn zeta.
  remember (steps 3 (submitVerifySignature E input) w) as after3 eqn:Hafter3.
  revert Hafter3. unfold submitVerifySignature.
  cbn [steps step]. rewrite submit_lookup.
  pose proof (decodeVerifyToken_world E (si_token input) w) as Hw.
  destruct (decodeVerifyToken E (si_token input) w) as [[payload|e|] w0] eqn:Hdec;
    simpl in Hw; subst w0; try (intros ->; done).
  destruct (sessionOfToken E (si_token input) w) as [session|] eqn:Hs;
    [|intros ->; done].
  cbn [steps step]. unfold bind at 1.
  pose proof (checkSessionAndSignature_world E session input w) as Hw.
  destruct (checkSessionAndSignature E session input w) as [[[]|e|] w0] eqn:Hchk;
    simpl in Hw; subst w0; try (intros ->; done).
  apply checkSessionAndSignature_Ok in Hchk as [Hunused _].
  unfold findWalletLink at 1. cbn [steps step].
  assert (find (fun s => bool_decide (vs_id s = vs_id session)) (verify_sessions w)
          = Some session) as Hfind.
  { apply sessionOfToken_Some_decode in Hs as (payload' & Hdec' & Hfind).
    rewrite Hdec in Hdec'. simplify_eq.
    pose proof Hfind as [_ Hid%bool_decide_eq_true]%find_Some_elem_of.
    by rewrite Hid. }
  rewrite (updateSessionUsedAt_found _ _ _ Hfind). cbn [fst snd steps step].
  set (w3 := with_verify_sessions _ w). intros ->. cbn [fst snd] in *.
  exists session. split; [done|]. split; [done|]. split; [done|].
  split; [exact Hrun|]. revert Hrun. cbn [run steps step].
  destruct (upsertWalletLink_Ok (vs_guildId session) (vs_discordUserId session)
              (si_walletPubkey input) w3) as (w4 & -> & Hc4 & Hv4 & _ & Hlink).
  match goal with |- context [writeAuditLog ?i w4] =>
    destruct (writeAuditLog_Ok i w4) as (w5 & -> & Hc5 & Hv5 & _) end.
  cbn [run lift]. intros [= <- <-]. split_and!; try done.
  - by rewrite Hc5 Hc4.
  - by rewrite Hv5 Hv4.
Qed.

Lemma sessionOfToken_same_clock E token w1 w2 :
  clock w1 = clock w2 -> verify_sessions w1 = verify_sessions w2 ->
  sessionOfToken E token w1 = sessionOfToken E token w2.
Proof.
  intros Hc Hv. unfold sessionOfToken, decodeVerifyToken, bind, now, throw, ret.
  rewrite Hc Hv.
  destruct (jwt_verify E token (clock w2)) as [e| |[g|] [u|] [s|]]; try done.
  by destruct (nonEmpty g && nonEmpty u && nonEmpty s).
Qed.

Lemma sessionOfToken_marked E token w session :
  sessionOfToken E token w = Some session ->
  sessionOfToken E token
    (with_verify_sessions
       (map (fun s => if bool_decide (vs_id s = vs_id session)
                      then markUsed (clock w) s else s)
            (verify_sessions w)) w)
  = Some (markUsed (clock w) session).
Proof.
  intros Hs. pose proof Hs as (payload & Hdec & Hfind)%sessionOfToken_Some_decode.
  pose proof Hfind as [_ Hid%bool_decide_eq_true]%find_Some_elem_of.
  revert Hs. unfold sessionOfToken, decodeVerifyToken, bind, now, throw, ret.
  cbn [clock with_verify_sessions verify_sessions].
  revert Hdec. unfold decodeVerifyToken, bind, now, throw, ret.
  destruct (jwt_verify E token (clock w)) as [e| |[g|] [u|] [s|]]; try done.
  destruct (nonEmpty g && nonEmpty u && nonEmpty s); [|done].
  intros [= <-]. cbn [vp_sessionId] in *. intros _.
  by rewrite -Hid find_map_mark Hid Hfind.
Qed.

(** C5.  A submit whose token designates a session that is already used
    throws "Verify session already used", one whose session has expired
    throws "Verify session expired", and one whose session is no longer
    stored throws "Verify session not found" (all in the class
    SESSION_INVALID); either way the state, and so the stored wallet link, is
    unchanged.  After
    a successful submit, every later submit with the same token is rejected
    in that way.  A successful submit marks the session used first: after its
    first three blocks the session is used and the wallet links are still
    those before the call; the upsert is the block that follows. *)
Theorem submit_replay_rejected (E : Env) (input : SubmitInput) (w : World) :
  (forall payload,
     decodeVerifyToken E (si_token input) w = (Ok payload, w) ->
     sessionOfToken E (si_token input) w = None ->
     run (submitVerifySignature E input) w =
     (Throw "Verify session not found", w)) /\
  SESSION_INVALID "Verify session not found" /\
  (forall session, sessionOfToken E (si_token input) w = Some session ->
     (is_Some (vs_usedAt session) ->
        run (submitVerifySignature E input) w =
        (Throw "Verify session already used", w)) /\
     (vs_usedAt session = None -> (vs_expiresAt session < clock w)%Z ->
        run (submitVerifySignature E input) w =
        (Throw "Verify session expired", w))) /\
  SESSION_INVALID "Verify session already used" /\
  SESSION_INVALID "Verify session expired" /\
  (forall result w',
     run (submitVerifySignature E input) w = (Ok result, w') ->
     (forall replay, si_token replay = si_token input ->
        run (submitVerifySignature E replay) w' =
        (Throw "Verify session already used", w')) /\
     let after3 := steps 3 (submitVerifySignature E input) w in
     (exists session,
        sessionOfToken E (si_token input) after3.2 = Some session /\
        vs_usedAt session = Some (clock w)) /\
     wallet_links after3.2 = wallet_links w /\
     run after3.1 after3.2 = (Ok result, w') /\
     (exists link, link ∈ wallet_links (steps 1 after3.1 after3.2).2 /\
        wl_guildId link = result.(sr_guildId) /\
        wl_discordUserId link = result.(sr_discordUserId) /\
        wl_walletPubkey link = si_walletPubkey input)).
Proof.
  split_and!.
  - intros payload Hdecode Hnone. unfold submitVerifySignature. cbn [run].
    by rewrite submit_lookup Hdecode Hnone.
  - unfold SESSION_INVALID. set_solver.
  - intros session Hs. split; [by apply submit_used|by apply submit_expired].
  - unfold SESSION_INVALID. set_solver.
  - unfold SESSION_INVALID. set_solver.
  - intros result w' Hrun.
    destruct (submit_success_inv _ _ _ _ _ Hrun)
      as (session & Hs & Hunused & Hw3 & Hrest & Hclock & Hsessions & Hlink & Hrg & Hru).
    cbn zeta in *. split_and!.
    + intros replay Htoken. apply (submit_used E replay w' (markUsed (clock w) session)).
      * rewrite Htoken -(sessionOfToken_marked E _ w session Hs).
        apply sessionOfToken_same_clock; [done|]. by rewrite Hsessions Hw3.
      * by eexists.
    + exists (markUsed (clock w) session). split; [|done].
      rewrite Hw3. by apply sessionOfToken_marked.
    + by rewrite Hw3.
    + done.
    + destruct Hlink as (link & Hin & Hg & Hu & Hpk). exists link.
      split_and!; congruence.
Qed.

(** C5 on the sample state: scenario S5 of the specification. *)
Lemma submit_replay_rejected_witness :
  let first := sampleSubmit "WALLET-A" "SIG-A" in
  let replay := sampleSubmit "WALLET-B" "SIG-B" in
  let w' := (run (submitVerifySignature sampleEnv first) sampleWorld).2 in
  run (submitVerifySignature sampleEnv replay) w' =
  (Throw "Verify session already used", w').
Proof.
  intros first replay w'.
  destruct (submit_replay_rejected sampleEnv first sampleWorld)
    as (_ & _ & _ & _ & _ & H).
  destruct (H {| sr_guildId := "guild-1"; sr_discordUserId := "user-1";
                 sr_replaced := false |} w' eq_refl) as [Hreplay _].
  exact (Hreplay replay eq_refl).
Defined.

(** C4.  The code does not have the property: on the sample state, two
    submits for the same session that interleave at their [await]s both
    return successfully.  Both look the session up while it is unused; the
    update that marks it used does not test it, so the second call upserts
    the wallet link as well and replaces the first caller's wallet. *)
Theorem concurrent_submits_both_succeed :
  raceOutcome.1 =
    (Done (Ok {| sr_guildId := "guild-1"; sr_discordUserId := "user-1";
                 sr_replaced := false |}),
     Done (Ok {| sr_guildId := "guild-1"; sr_discordUserId := "user-1";
                 sr_replaced := true |})) /\
  map wl_walletPubkey (wallet_links raceOutcome.2) = ["WALLET-B"] /\
  map al_action (audit_log raceOutcome.2) = [VERIFY_SUCCESS; VERIFY_REPLACED].
Proof. by vm_compute. Qed.

(** ** Price cache *)

Lemma upsertPriceCache_run update w :
  upsertPriceCache update w =
  (Ok tt, with_price_cache (upsertRows update (price_cache w)) w).
Proof. done. Qed.

Lemma for_each_upsert updates w :
  for_each updates upsertPriceCache w =
  (Ok tt,
   with_price_cache
     (fold_left (fun rows u => upsertRows u rows) updates (price_cache w)) w).
Proof.
  revert w. induction updates as [|u updates IH]; intros w.
  - by destruct w.
  - cbn [for_each fold_left]. unfold bind. rewrite upsertPriceCache_run IH.
    by destruct w.
Qed.

Lemma upsertRows_keys update rows :
  map pc_assetId (upsertRows update rows) =
  if bool_decide (pc_assetId update ∈ map pc_assetId rows)
  then map pc_assetId rows else map pc_assetId rows ++ [pc_assetId update].
Proof.
  unfold upsertRows. case_bool_decide.
  - rewrite map_map. apply map_ext. intros row. by case_bool_decide.
  - by rewrite map_app.
Qed.

Lemma upsertRows_NoDup update rows :
  NoDup (map pc_assetId rows) -> NoDup (map pc_assetId (upsertRows update rows)).
Proof.
  intros Hnd. rewrite upsertRows_keys. case_bool_decide as Hin; [done|].
  apply NoDup_app. split_and!; [done| |apply NoDup_singleton].
  by intros x Hx ->%list_elem_of_singleton.
Qed.

Lemma upsertRows_nonEmpty update rows :
  pc_assetId update <> "" ->
  Forall (fun row => pc_assetId row <> "") rows ->
  Forall (fun row => pc_assetId row <> "") (upsertRows update rows).
Proof.
  intros Hu Hrows. unfold upsertRows. case_bool_decide.
  - apply Forall_forall. intros row' Hin.
    apply list_elem_of_In, in_map_iff in Hin as (row & <- & Hin).
    rewrite Forall_forall in Hrows. apply list_elem_of_In, Hrows in Hin.
    by case_bool_decide.
  - apply Forall_app. split; [done|]. by constructor.
Qed.

Lemma upsertRows_other update rows id :
  id <> pc_assetId update -> rowsOf id (upsertRows update rows) = rowsOf id rows.
Proof.
  intros Hne. unfold upsertRows, rowsOf. case_bool_decide as Hin.
  - induction rows as [|row rows IH]; [done|]. cbn [map List.filter].
    destruct (decide (pc_assetId row = pc_assetId update)) as [Heq|Hneq].
    + rewrite (bool_decide_true _ Heq). cbn [pc_assetId].
      rewrite bool_decide_false; [|congruence].
      destruct (decide (pc_assetId update ∈ map pc_assetId rows)) as [Hin'|Hnin].
      * by apply IH.
      * clear IH Hin Heq. induction rows as [|r rows IH]; [done|].
        cbn [map List.filter]. rewrite not_elem_of_cons in Hnin.
        destruct Hnin as [Hr Hnin].
        rewrite (bool_decide_false (pc_assetId r = pc_assetId update)); [|done].
        by rewrite IH.
    + rewrite (bool_decide_false _ Hneq).
      assert (pc_assetId update ∈ map pc_assetId rows) as Hin'.
      { apply elem_of_cons in Hin as [?|?]; [congruence|done]. }
      by rewrite IH.
  - rewrite List.filter_app /=. rewrite bool_decide_false; [|congruence].
    by rewrite app_nil_r.
Qed.

Lemma upsertRows_written update rows :
  exists row, row ∈ upsertRows update rows /\
    pc_assetId row = pc_assetId update /\
    pc_priceUsd row = pc_priceUsd update /\
    pc_fetchedAt row = pc_fetchedAt update.
Proof.
  unfold upsertRows. case_bool_decide as Hin.
  - apply list_elem_of_In, in_map_iff in Hin as (row & Hid & Hin).
    eexists. split.
    + apply list_elem_of_In, in_map. exact Hin.
    + cbn beta. by rewrite bool_decide_true.
  - exists update. split; [|done]. apply elem_of_app. right.
    by apply list_elem_of_singleton.
Qed.

Lemma upsertRows_kept update rows row :
  row ∈ rows -> pc_assetId row <> pc_assetId update -> row ∈ upsertRows update rows.
Proof.
  intros Hin Hne. unfold upsertRows. case_bool_decide.
  - apply list_elem_of_In, in_map_iff. exists row.
    split; [by rewrite bool_decide_false|by apply list_elem_of_In].
  - apply elem_of_app. by left.
Qed.

Lemma upsertAll_keyed updates rows :
  Forall (fun u => pc_assetId u <> "") updates ->
  NoDup (map pc_assetId rows) /\ Forall (fun row => pc_assetId row <> "") rows ->
  NoDup (map pc_assetId (upsertAll updates rows)) /\
  Forall (fun row => pc_assetId row <> "") (upsertAll updates rows).
Proof.
  unfold upsertAll. revert rows.
  induction updates as [|u updates IH]; intros rows Hups [Hnd Hne]; [done|].
  apply Forall_cons in Hups as [Hu Hups]. cbn [fold_left]. apply IH; [done|].
  split; [by apply upsertRows_NoDup|by apply upsertRows_nonEmpty].
Qed.

Lemma upsertAll_other updates rows id :
  id ∉ map pc_assetId updates ->
  rowsOf id (upsertAll updates rows) = rowsOf id rows.
Proof.
  unfold upsertAll. revert rows.
  induction updates as [|u updates IH]; intros rows Hid; [done|].
  cbn [map] in Hid. apply not_elem_of_cons in Hid as [Hne Hid].
  cbn [fold_left]. by rewrite IH // upsertRows_other.
Qed.

Lemma upsertAll_kept updates rows row :
  row ∈ rows -> pc_assetId row ∉ map pc_assetId updates ->
  row ∈ upsertAll updates rows.
Proof.
  unfold upsertAll. revert rows.
  induction updates as [|u updates IH]; intros rows Hin Hid; [done|].
  cbn [map] in Hid. apply not_elem_of_cons in Hid as [Hne Hid].
  cbn [fold_left]. apply IH; [|done]. by apply upsertRows_kept.
Qed.

Lemma upsertAll_written updates rows u :
  NoDup (map pc_assetId updates) -> u ∈ updates ->
  exists row, row ∈ upsertAll updates rows /\
    pc_assetId row = pc_assetId u /\
    pc_priceUsd row = pc_priceUsd u /\
    pc_fetchedAt row = pc_fetchedAt u.
Proof.
  unfold upsertAll. revert rows.
  induction updates as [|u0 updates IH]; intros rows Hnd Hin.
  - by apply elem_of_nil in Hin.
  - cbn [map] in Hnd. apply NoDup_cons in Hnd as [Hu0 Hnd].
    cbn [fold_left]. apply elem_of_cons in Hin as [->|Hin].
    + destruct (upsertRows_written u0 rows) as (row & Hrow & Hid & Hp & Hf).
      exists row. split; [|done].
      apply (upsertAll_kept updates); [done|]. by rewrite Hid.
    + by apply IH.
Qed.

(** The result map built from the cached rows. *)
Lemma cached_lookup (value : PriceCache -> number) (rows : list PriceCache)
    (result : gmap string number) (id : string) :
  NoDup (map pc_assetId rows) ->
  fold_left (fun result row => <[pc_assetId row := value row]> result) rows result
    !! id =
  match find (fun row => bool_decide (pc_assetId row = id)) rows with
  | Some row => Some (value row)
  | None => result !! id
  end.
Proof.
  revert result. induction rows as [|row rows IH]; intros result Hnd; [done|].
  cbn [map] in Hnd. apply NoDup_cons in Hnd as [Hrow Hnd].
  cbn [fold_left find]. rewrite IH //.
  destruct (find _ rows) as [r|] eqn:Hfind.
  - apply find_some in Hfind as [Hin Hid%bool_decide_eq_true].
    rewrite bool_decide_false //. intros Heq. apply Hrow.
    rewrite Heq -Hid. apply list_elem_of_In, in_map. done.
  - case_bool_decide as Hid.
    + by rewrite -Hid lookup_insert_eq.
    + by rewrite lookup_insert_ne.
Qed.

Lemma find_filter {A} (p q : A -> bool) (l : list A) :
  find p (List.filter q l) = find (fun x => q x && p x) l.
Proof.
  induction l as [|x l IH]; [done|]. cbn [List.filter find].
  destruct (q x); simpl; [|done]. by rewrite IH.
Qed.

Lemma find_ext {A} (p q : A -> bool) (l : list A) :
  (forall x, p x = q x) -> find p l = find q l.
Proof.
  intros Hpq. induction l as [|x l IH]; [done|]. simpl. by rewrite Hpq IH.
Qed.

Lemma NoDup_filter_keys (q : PriceCache -> bool) (rows : list PriceCache) :
  NoDup (map pc_assetId rows) -> NoDup (map pc_assetId (List.filter q rows)).
Proof.
  induction rows as [|row rows IH]; [done|]. cbn [map List.filter].
  intros [Hrow Hnd]%NoDup_cons. destruct (q row); [|by apply IH].
  cbn [map]. apply NoDup_cons. split; [|by apply IH].
  intros Hin. apply Hrow.
  apply list_elem_of_In, in_map_iff in Hin as (r & Hid & [Hin _]%filter_In).
  rewrite -Hid. by apply list_elem_of_In, in_map.
Qed.

(** The cached part of the result of [getUsdPrices]: a requested id maps to
    the number of its fresh row, every other id is absent. *)
Lemma cached_result E ttlSeconds w (uniqueIds : list string) id :
  NoDup (map pc_assetId (price_cache w)) ->
  fold_left
    (fun result row =>
       <[pc_assetId row := decimalToNumber E (pc_priceUsd row)]> result)
    (List.filter
       (fun row => bool_decide (pc_assetId row ∈ uniqueIds)
                   && bool_decide (clock w - ttlSeconds * 1000 ≤ pc_fetchedAt row)%Z)
       (price_cache w))
    (∅ : gmap string number) !! id =
  if bool_decide (id ∈ uniqueIds)
  then (fun row => decimalToNumber E (pc_priceUsd row)) <$> freshQuote ttlSeconds w id
  else None.
Proof.
  intros Hnd.
  rewrite (cached_lookup (fun row => decimalToNumber E (pc_priceUsd row)));
    [|by apply NoDup_filter_keys].
  rewrite find_filter lookup_empty. unfold freshQuote, isFresh.
  case_bool_decide as Hid.
  - rewrite (find_ext _ (fun row => bool_decide (pc_assetId row = id)
       && bool_decide (clock w - ttlSeconds * 1000 ≤ pc_fetchedAt row)%Z)).
    + by destruct (find _ _).
    + intros row. destruct (decide (pc_assetId row = id)) as [Hrow|Hrow].
      * rewrite !(bool_decide_true (pc_assetId row = id)) // Hrow.
        rewrite (bool_decide_true (id ∈ uniqueIds)) //.
        by destruct (bool_decide (_ ≤ _)%Z).
      * rewrite !(bool_decide_false (pc_assetId row = id)) //.
        by rewrite andb_false_r.
  - rewrite (find_ext _ (fun _ => false)).
    + clear Hnd. induction (price_cache w) as [|? ? IH]; [done|exact IH].
    + intros row. destruct (decide (pc_assetId row = id)) as [Hrow|Hrow].
      * rewrite Hrow (bool_decide_false (id ∈ uniqueIds)) //.
      * rewrite (bool_decide_false (pc_assetId row = id)) //.
        by rewrite andb_false_r.
Qed.

Lemma collectQuote_step E json t acc id :
  collectQuote E json t acc id =
  match quoteOf json id with
  | Some p => (<[id := p]> (acc.1), acc.2 ++ [quoteRow E t id p])
  | None => acc
  end.
Proof.
  unfold collectQuote, quoteOf.
  destruct (json !! id) as [[| |?|price|?|]|]; try done.
  by destruct (isFinite price).
Qed.

Lemma collectQuote_fold E json t ids result updates :
  fold_left (collectQuote E json t) ids (result, updates) =
  (addQuotes json ids result, updates ++ quoteRows E json t ids).
Proof.
  unfold addQuotes, quoteRows. revert result updates.
  induction ids as [|id ids IH]; intros result updates.
  - simpl. by rewrite app_nil_r.
  - cbn [fold_left]. rewrite collectQuote_step.
    destruct (quoteOf json id) as [p|] eqn:Hq; simpl; rewrite Hq /= IH; [|done].
    by rewrite -app_assoc.
Qed.

Lemma addQuotes_lookup json ids result id :
  addQuotes json ids result !! id =
  if bool_decide (id ∈ ids) then
    match quoteOf json id with Some p => Some p | None => result !! id end
  else result !! id.
Proof.
  unfold addQuotes. revert result.
  induction ids as [|x ids IH]; intros result; [done|].
  cbn [fold_left]. rewrite IH.
  destruct (decide (x = id)) as [->|Hne].
  - rewrite (bool_decide_true (id ∈ id :: ids)); [|by left].
    destruct (quoteOf json id) as [p|] eqn:Hq.
    + case_bool_decide; [done|by rewrite lookup_insert_eq].
    + by case_bool_decide.
  - assert (bool_decide (id ∈ x :: ids) = bool_decide (id ∈ ids)) as ->.
    { apply bool_decide_ext. rewrite elem_of_cons. intuition congruence. }
    destruct (quoteOf json x); [|done].
    rewrite lookup_insert_ne //. 
Qed.

Lemma quoteRows_cons E json t id ids :
  quoteRows E json t (id :: ids) =
  match quoteOf json id with
  | Some p => quoteRow E t id p :: quoteRows E json t ids
  | None => quoteRows E json t ids
  end.
Proof. unfold quoteRows. simpl. by destruct (quoteOf json id). Qed.

Lemma quoteRows_keys E json t ids id :
  id ∈ map pc_assetId (quoteRows E json t ids) <->
  id ∈ ids /\ is_Some (quoteOf json id).
Proof.
  induction ids as [|x ids IH].
  - split; [by intros ?%elem_of_nil|by intros [?%elem_of_nil _]].
  - rewrite quoteRows_cons. destruct (quoteOf json x) as [p|] eqn:Hq.
    + cbn [map pc_assetId quoteRow]. rewrite !elem_of_cons IH. split.
      * intros [->|[? ?]]; [split; [by left|by rewrite Hq]|split; [by right|done]].
      * intros [[->|?] ?]; [by left|by right].
    + rewrite elem_of_cons IH. split.
      * intros [? ?]. split; [by right|done].
      * intros [[->|?] Hs]; [|done]. rewrite Hq in Hs. by destruct Hs.
Qed.

Lemma quoteRows_NoDup E json t ids :
  NoDup ids -> NoDup (map pc_assetId (quoteRows E json t ids)).
Proof.
  induction 1 as [|x ids Hx Hnd IH]; [constructor|].
  rewrite quoteRows_cons. destruct (quoteOf json x) as [p|]; [|done].
  cbn [map pc_assetId quoteRow].
  apply NoDup_cons. split; [|done].
  by intros [Hin _]%quoteRows_keys.
Qed.

Lemma quoteRows_elem E json t ids id p :
  id ∈ ids -> quoteOf json id = Some p -> quoteRow E t id p ∈ quoteRows E json t ids.
Proof.
  intros Hin Hq. unfold quoteRows. apply list_elem_of_omap. exists id.
  split; [done|]. by rewrite Hq.
Qed.

Lemma quoteRows_nonEmpty E json t ids :
  Forall (fun id => id <> "") ids ->
  Forall (fun u => pc_assetId u <> "") (quoteRows E json t ids).
Proof.
  induction 1 as [|x ids Hx Hids IH]; [constructor|].
  rewrite quoteRows_cons. destruct (quoteOf json x); [|done]. by constructor.
Qed.

Lemma missingIds_code E ttlSeconds w assetIds :
  NoDup (map pc_assetId (price_cache w)) ->
  let uniqueIds := uniqueInOrder (List.filter nonEmpty assetIds) in
  List.filter
    (fun id => negb (bool_decide (is_Some (cachedPrices E ttlSeconds w uniqueIds !! id))))
    uniqueIds
  = missingIds ttlSeconds w assetIds.
Proof.
  intros Hnd uniqueIds. unfold missingIds. fold uniqueIds.
  apply filter_ext_in. intros id Hin%list_elem_of_In. f_equal.
  apply bool_decide_ext. unfold cachedPrices.
  rewrite cached_result // bool_decide_true //. by rewrite fmap_is_Some.
Qed.

Lemma length_zero_nil {A} (l : list A) :
  bool_decide (length l = 0) = bool_decide (l = []).
Proof. apply bool_decide_ext. by destruct l. Qed.

(** [getUsdPrices], block by block. *)
Lemma getUsdPrices_unfold E ttlSeconds assetIds w :
  NoDup (map pc_assetId (price_cache w)) ->
  let uniqueIds := uniqueInOrder (List.filter nonEmpty assetIds) in
  let cached := cachedPrices E ttlSeconds w uniqueIds in
  let missing := missingIds ttlSeconds w assetIds in
  let called := with_price_calls (price_calls w ++ [missing]) w in
  getUsdPrices E ttlSeconds assetIds w =
  if bool_decide (uniqueIds = []) then (Ok ∅, w)
  else if bool_decide (missing = []) then (Ok cached, w)
  else
    match coingeckoSimplePrice E missing with
    | RequestFailed e => (Throw e, called)
    | Response status json =>
        if status_ok status then
          (Ok (addQuotes json missing cached),
           with_price_cache
             (upsertAll (quoteRows E json (clock w) missing) (price_cache w))
             called)
        else
          (Throw ("CoinGecko request failed with status " +:+ pretty status),
           called)
    end.
Proof.
  intros Hnd uniqueIds cached missing called.
  unfold getUsdPrices. fold uniqueIds. rewrite length_zero_nil.
  case_bool_decide as HU; [done|].
  unfold bind at 1. unfold now at 1. cbn beta iota.
  unfold bind at 1. unfold get_world at 1. cbn beta iota.
  fold (cachedPrices E ttlSeconds w uniqueIds). fold cached.
  pose proof (missingIds_code E ttlSeconds w assetIds Hnd) as Hmissing.
  cbn zeta in Hmissing. fold uniqueIds cached in Hmissing. rewrite Hmissing.
  fold missing. rewrite length_zero_nil.
  case_bool_decide as HM; [done|].
  unfold bind at 1. unfold fetchSimplePrice, bind at 1, modify at 1.
  cbn beta iota. fold called.
  destruct (coingeckoSimplePrice E missing) as [e|status json]; [done|].
  destruct (status_ok status); [|done].
  unfold ret at 1. cbn beta iota.
  rewrite collectQuote_fold. cbn [app]. unfold bind.
  rewrite for_each_upsert. by unfold ret.
Qed.

Lemma uniqueIds_elem_of (assetIds : list string) (id : string) :
  id ∈ uniqueInOrder (List.filter nonEmpty assetIds) <-> id ∈ assetIds /\ id <> "".
Proof.
  rewrite uniqueInOrder_elem_of list_elem_of_In filter_In -list_elem_of_In.
  unfold nonEmpty. rewrite negb_true_iff bool_decide_eq_false. done.
Qed.

Lemma missingIds_elem_of ttlSeconds w assetIds id :
  id ∈ missingIds ttlSeconds w assetIds <->
  id ∈ assetIds /\ id <> "" /\ freshQuote ttlSeconds w id = None.
Proof.
  unfold missingIds.
  rewrite list_elem_of_In filter_In -list_elem_of_In uniqueIds_elem_of.
  rewrite negb_true_iff bool_decide_eq_false -eq_None_not_Some. tauto.
Qed.

Lemma missingIds_NoDup ttlSeconds w assetIds :
  NoDup (missingIds ttlSeconds w assetIds).
Proof.
  unfold missingIds. apply NoDup_ListNoDup, List.NoDup_filter, NoDup_ListNoDup.
  apply uniqueInOrder_NoDup.
Qed.

Lemma freshQuote_Some ttlSeconds w id row :
  freshQuote ttlSeconds w id = Some row ->
  row ∈ price_cache w /\ pc_assetId row = id /\ isFresh ttlSeconds w row = true.
Proof.
  intros [Hin [Hid Hf]%andb_true_iff]%find_some.
  apply bool_decide_eq_true in Hid. by rewrite list_elem_of_In.
Qed.

Lemma and5_and (A1 A2 A3 A4 A5 B : Prop) :
  A1 /\ A2 /\ A3 /\ A4 /\ A5 -> B -> A1 /\ A2 /\ A3 /\ A4 /\ A5 /\ B.
Proof. tauto. Qed.

(** C7.  On a cache that respects its primary key, [getUsdPrices] with the
    TTL of 60 seconds: issues one upstream request, for exactly the requested
    ids that have no stored quote with [fetchedAt >= now - 60 s], and none
    when there is no such id; serves every requested id that has such a
    quote from the cache (its rows untouched, the id not in the request);
    for an id sent upstream, a finite quote is returned and upserted with
    [fetchedAt = now], a missing or non-finite quote gives no entry in the
    returned map and leaves the rows of the id as they were; a failed request
    writes nothing; and the cache still has at most one row per asset id.
    The call returns a map whenever nothing is missing or the upstream
    request is answered with an ok status, and throws only when ids are
    missing and the request fails or is answered with another status; the
    map has entries for requested ids only. *)
Theorem getUsdPrices_cache (E : Env) (assetIds : list string) (w : World) :
  priceCacheKeyed w ->
  let missing := missingIds priceTtlSeconds w assetIds in
  let r := (getUsdPrices E priceTtlSeconds assetIds w).1 in
  let w' := (getUsdPrices E priceTtlSeconds assetIds w).2 in
  price_calls w' =
    price_calls w ++ (if bool_decide (missing = []) then [] else [missing]) /\
  (forall id row,
     id ∈ assetIds -> freshQuote priceTtlSeconds w id = Some row ->
     (id ∉ missing) /\
     rowsOf id (price_cache w') = rowsOf id (price_cache w) /\
     forall result, r = Ok result ->
       result !! id = Some (decimalToNumber E (pc_priceUsd row))) /\
  (forall id result, id ∈ missing -> r = Ok result ->
     match upstreamQuote E missing id with
     | Some price =>
         result !! id = Some price /\
         exists row, row ∈ price_cache w' /\ pc_assetId row = id /\
           pc_priceUsd row = numberToDecimal E price /\
           pc_fetchedAt row = clock w
     | None =>
         result !! id = None /\
         rowsOf id (price_cache w') = rowsOf id (price_cache w)
     end) /\
  (forall e, r = Throw e -> price_cache w' = price_cache w) /\
  priceCacheKeyed w' /\
  r <> OutOfFuel /\
  (missing = [] -> exists result, r = Ok result) /\
  (forall status json,
     coingeckoSimplePrice E missing = Response status json ->
     status_ok status = true -> exists result, r = Ok result) /\
  (forall e, r = Throw e ->
     missing <> [] /\
     (coingeckoSimplePrice E missing = RequestFailed e \/
      exists status json,
        coingeckoSimplePrice E missing = Response status json /\
        status_ok status = false)) /\
  (forall id result,
     r = Ok result -> is_Some (result !! id) -> id ∈ assetIds /\ id <> "").
Proof.
  intros [Hnd Hne] missing r w'. apply and5_and; subst r w'; cycle 1.
  { rewrite (getUsdPrices_unfold E priceTtlSeconds assetIds w Hnd). cbn zeta.
    fold missing.
    set (uniqueIds := uniqueInOrder (List.filter nonEmpty assetIds)).
    set (cached := cachedPrices E priceTtlSeconds w uniqueIds).
    assert (forall id, is_Some (cached !! id) -> id ∈ assetIds /\ id <> "")
      as Hserved.
    { intros id. unfold cached, cachedPrices. rewrite cached_result //.
      case_bool_decide as Hin; [|by intros [? ?]]. intros _.
      by apply uniqueIds_elem_of. }
    case_bool_decide as HU.
    { cbn [fst]. split_and!; [done|by eexists|by eexists|done|].
      intros id result [= <-]. rewrite lookup_empty. by intros [? ?]. }
    case_bool_decide as HM.
    { cbn [fst]. split_and!; [done|by eexists|by eexists|done|].
      intros id result [= <-]. apply Hserved. }
    destruct (coingeckoSimplePrice E missing) as [e|status json] eqn:Hreply.
    { cbn [fst]. split_and!; [done|done|done| |done].
      intros e' [= <-]. split; [done|by left]. }
    destruct (status_ok status) eqn:Hok; cycle 1.
    { cbn [fst]. split_and!; [done|done| | |done].
      - intros status' json' [= <- <-]. congruence.
      - intros e' _. split; [done|]. right. by exists status, json. }
    cbn [fst]. split_and!; [done|done|by eexists|done|].
    intros id result [= <-]. rewrite addQuotes_lookup.
    case_bool_decide as Hin; [|apply Hserved].
    intros _. apply missingIds_elem_of in Hin as (? & ? & _). done. }
  rewrite (getUsdPrices_unfold E priceTtlSeconds assetIds w Hnd). cbn zeta.
  fold missing.
  set (uniqueIds := uniqueInOrder (List.filter nonEmpty assetIds)).
  set (cached := cachedPrices E priceTtlSeconds w uniqueIds).
  assert (forall id row, id ∈ assetIds ->
            freshQuote priceTtlSeconds w id = Some row ->
            id ∈ uniqueIds /\ (id ∉ missing) /\
            cached !! id = Some (decimalToNumber E (pc_priceUsd row))) as Hcached.
  { intros id row Hin Hfresh.
    pose proof (freshQuote_Some _ _ _ _ Hfresh) as (Hrow & Hid & _).
    assert (id ∈ uniqueIds) as HU.
    { apply uniqueIds_elem_of. split; [done|]. rewrite -Hid.
      rewrite Forall_forall in Hne. by apply Hne. }
    split_and!; [done| |].
    - intros (_ & _ & Hnone)%missingIds_elem_of. congruence.
    - unfold cached, cachedPrices. rewrite cached_result // bool_decide_true //.
      by rewrite Hfresh. }
  assert (uniqueIds = [] -> missing = []) as Hnil.
  { intros HU. unfold missing, missingIds. fold uniqueIds. by rewrite HU. }
  assert (forall id, id ∈ missing -> cached !! id = None) as Hmiss.
  { intros id (Hin & Hid & Hnone)%missingIds_elem_of.
    unfold cached, cachedPrices. rewrite cached_result //.
    case_bool_decide; [|done]. by rewrite Hnone. }
  case_bool_decide as HU.
  { rewrite (bool_decide_true (missing = [])); [|by apply Hnil].
    cbn [fst snd]. rewrite app_nil_r. split_and!; try done.
    - intros id row Hin Hfresh. destruct (Hcached id row Hin Hfresh) as (HinU & _).
      rewrite HU in HinU. by apply elem_of_nil in HinU.
    - intros id result Hin. rewrite (Hnil HU) in Hin. by apply elem_of_nil in Hin. }
  case_bool_decide as HM.
  { cbn [fst snd]. rewrite app_nil_r. split_and!; try done.
    - intros id row Hin Hfresh. destruct (Hcached id row Hin Hfresh) as (_ & ? & ?).
      split_and!; try done. by intros result [= <-].
    - intros id result Hin. rewrite HM in Hin. by apply elem_of_nil in Hin. }
  unfold upstreamQuote.
  destruct (coingeckoSimplePrice E missing) as [e|status json] eqn:Hreply.
  { cbn [fst snd price_calls price_cache with_price_calls]. split_and!; try done.
    intros id row Hin Hfresh. destruct (Hcached id row Hin Hfresh) as (_ & ? & ?).
    by split_and!. }
  destruct (status_ok status) eqn:Hok; cycle 1.
  { cbn [fst snd price_calls price_cache with_price_calls]. split_and!; try done.
    intros id row Hin Hfresh. destruct (Hcached id row Hin Hfresh) as (_ & ? & ?).
    by split_and!. }
  cbn [fst snd price_calls price_cache with_price_calls with_price_cache].
  split_and!; try done.
  - intros id row Hin Hfresh.
    destruct (Hcached id row Hin Hfresh) as (_ & Hnot & Hlook).
    split_and!; [done| |].
    + apply upsertAll_other. by intros [? _]%quoteRows_keys.
    + intros result [= <-]. rewrite addQuotes_lookup bool_decide_false //.
  - intros id result Hin [= <-]. rewrite addQuotes_lookup bool_decide_true //.
    destruct (quoteOf json id) as [price|] eqn:Hq.
    + split; [done|].
      destruct (upsertAll_written
                  (quoteRows E json (clock w) missing) (price_cache w)
                  (quoteRow E (clock w) id price)) as (row & ? & ? & ? & ?).
      * apply quoteRows_NoDup, missingIds_NoDup.
      * by apply quoteRows_elem.
      * by exists row.
    + split; [by apply Hmiss|].
      apply upsertAll_other. intros [_ Hs]%quoteRows_keys.
      rewrite Hq in Hs. by destruct Hs.
  - apply upsertAll_keyed; [|done]. apply quoteRows_nonEmpty.
    apply Forall_forall. by intros id (_ & ? & _)%missingIds_elem_of.
Qed.

(** ** Reconciliation worker *)

Lemma getUsdPrices_shape E ttlSeconds assetIds w :
  exists r cache calls,
    getUsdPrices E ttlSeconds assetIds w =
    (r, with_price_cache cache (with_price_calls calls w)) /\
    r <> OutOfFuel.
Proof.
  assert (w = with_price_cache (price_cache w) (with_price_calls (price_calls w) w))
    as Hw by (by destruct w).
  unfold getUsdPrices.
  case_bool_decide.
  { eexists (Ok ∅), (price_cache w), (price_calls w). split; [|done].
    unfold ret. by rewrite -Hw. }
  unfold bind at 1. unfold now at 1. cbn beta iota.
  unfold bind at 1. unfold get_world at 1. cbn beta iota.
  case_bool_decide.
  { eexists (Ok _), (price_cache w), (price_calls w). split; [|done].
    unfold ret. by rewrite -Hw. }
  unfold bind at 1. unfold fetchSimplePrice, bind at 1, modify at 1. cbn beta iota.
  destruct (coingeckoSimplePrice E _) as [e|status json].
  { eexists (Throw _), (price_cache w), _. split; [|done]. unfold throw.
    f_equal; by destruct w. }
  destruct (status_ok status); cycle 1.
  { eexists (Throw _), (price_cache w), _. split; [|done]. unfold throw.
    f_equal; by destruct w. }
  unfold ret at 1. cbn beta iota. rewrite collectQuote_fold. cbn [app].
  unfold bind. rewrite for_each_upsert. unfold ret.
  eexists (Ok _), _, _. split; [|done]. f_equal; by destruct w.
Qed.

Lemma getUsdPrices_frame E ttlSeconds assetIds w :
  samePricesAside w (getUsdPrices E ttlSeconds assetIds w).2 /\
  (getUsdPrices E ttlSeconds assetIds w).1 <> OutOfFuel.
Proof.
  destruct (getUsdPrices_shape E ttlSeconds assetIds w)
    as (r & cache & calls & -> & Hr).
  split; [|done]. unfold samePricesAside. by split_and!.
Qed.

Lemma prices_or_empty_frame E ttlSeconds assetIds w :
  exists prices w1,
    try_catch (getUsdPrices E ttlSeconds assetIds) (fun _ => ret ∅) w
    = (Ok prices, w1) /\ samePricesAside w w1.
Proof.
  unfold try_catch, ret.
  destruct (getUsdPrices_frame E ttlSeconds assetIds w) as [Hframe Hfuel].
  destruct (getUsdPrices E ttlSeconds assetIds w) as [[prices|e|] w1]; [| |done].
  - by exists prices, w1.
  - by exists ∅, w1.
Qed.

Lemma updateLastCheckedAt_found id w link :
  link ∈ wallet_links w -> wl_id link = id ->
  updateLastCheckedAt id w =
  (Ok tt, with_wallet_links (map (touched id (clock w)) (wallet_links w)) w).
Proof.
  intros Hin Hid. unfold updateLastCheckedAt, bind, now, get_world. cbn beta iota.
  assert (existsb (fun l => bool_decide (wl_id l = id)) (wallet_links w) = true) as ->.
  { apply existsb_exists. exists link.
    split; [by apply list_elem_of_In|by apply bool_decide_eq_true]. }
  done.
Qed.

(** C1.  For a member with a stored link whose wallet snapshot fetch
    throws, [runUserCheck] sends no role request, leaves the chat platform as
    it was and writes no audit entry (so no ROLE_ADDED and no ROLE_REMOVED);
    and when the check gets as far as the fetch (there are rules, the guild,
    the bot and the member resolve) it returns normally with the member's
    [lastCheckedAt] set to the current time and every other link unchanged. *)
Theorem runUserCheck_fail_open (E : Env) (fuel : nat)
    (guildId discordUserId : string) (preloadedRules : option (list GatingRule))
    (w : World) (link : WalletLink) (e : Error) :
  let rules := rulesOfCheck guildId preloadedRules w in
  let r := (runUserCheck E fuel guildId discordUserId preloadedRules w).1 in
  let w' := (runUserCheck E fuel guildId discordUserId preloadedRules w).2 in
  linkOf guildId discordUserId w = Some link ->
  getWalletSnapshot E fuel (wl_walletPubkey link)
    (checkNeedsTokens rules) (checkNeedsNfts rules) = Throw e ->
  role_calls w' = role_calls w /\
  discord w' = discord w /\
  audit_log w' = audit_log w /\
  (rules <> [] ->
   forall gs bot roles,
     discord w !! guildId = Some gs -> gs_fetchMe gs = inr bot ->
     gs_members gs !! discordUserId = Some roles ->
     r = Ok tt /\
     wallet_links w' = map (touched (wl_id link) (clock w)) (wallet_links w) /\
     exists link', link' ∈ wallet_links w' /\ wl_id link' = wl_id link /\
       wl_guildId link' = guildId /\ wl_discordUserId link' = discordUserId /\
       wl_lastCheckedAt link' = Some (clock w)).
Proof.
  intros rules r w' Hlink Hsnap. subst r w'.
  destruct (runUserCheck E fuel guildId discordUserId preloadedRules w)
    as [r w'] eqn:Hrun.
  cbn [fst snd]. revert Hrun. unfold runUserCheck.
  assert ((match preloadedRules with
           | Some rules => ret rules
           | None => findEnabledRules guildId
           end) w = (Ok rules, w)) as Hrules.
  { subst rules. unfold rulesOfCheck. by destruct preloadedRules. }
  unfold bind at 1. rewrite Hrules.
  case_bool_decide as Hempty.
  { intros [= <- <-]. split_and!; try done. intros Hne. by destruct rules. }
  unfold bind at 1. unfold findWalletLink at 1. fold (linkOf guildId discordUserId w).
  rewrite Hlink.
  destruct (prices_or_empty_frame E priceTtlSeconds (usdRuleAssetIds rules) w)
    as (prices & w1 & Hprices & Hframe).
  unfold bind at 1. rewrite Hprices.
  destruct Hframe as (Hclock & _ & _ & Hlinks & _ & Haudit & Hdiscord & Hcalls).
  unfold bind at 1, catch_null at 1, fetchGuild at 1, bind at 1, get_world at 1.
  cbn beta iota. rewrite Hdiscord.
  destruct (discord w !! guildId) as [gs|] eqn:Hgs; cycle 1.
  { unfold throw, ret. intros [= <- <-]. by split_and!. }
  unfold ret at 1. cbn beta iota.
  unfold bind at 1, fetchMe at 1, bind at 1, get_world at 1. cbn beta iota.
  cbn [guild_id]. rewrite Hdiscord Hgs.
  destruct (gs_fetchMe gs) as [err|bot] eqn:Hbot.
  { unfold throw. intros [= <- <-]. split_and!; try done.
    intros _ gs' bot' roles' [= <-]. congruence. }
  unfold ret at 1. cbn beta iota.
  unfold bind at 1, catch_null at 1, fetchMember at 1, bind at 1, get_world at 1.
  cbn beta iota. cbn [guild_id]. rewrite Hdiscord Hgs.
  destruct (gs_members gs !! discordUserId) as [roles|] eqn:Hroles; cycle 1.
  { unfold throw, ret. intros [= <- <-]. split_and!; try done.
    intros _ gs' bot' roles' [= <-]. congruence. }
  unfold ret at 1. cbn beta iota.
  fold (checkNeedsTokens rules) (checkNeedsNfts rules). rewrite Hsnap.
  pose proof Hlink as [Hin [Hg Hu]%andb_true_iff]%find_Some_elem_of.
  apply bool_decide_eq_true in Hg, Hu.
  rewrite (updateLastCheckedAt_found (wl_id link) w1 link); [|by rewrite Hlinks|done].
  intros [= <- <-].
  cbn [fst snd role_calls discord audit_log wallet_links with_wallet_links].
  split_and!; try done.
  intros _ gs' bot' roles' _ _ _. rewrite Hlinks Hclock. split_and!; try done.
  exists (touched (wl_id link) (clock w) link). split.
  - apply list_elem_of_In, in_map. by apply list_elem_of_In.
  - unfold touched. by rewrite bool_decide_true.
Qed.

Lemma canManageRole_false E guild role :
  canManageRole E guild role = false <-> cannotManage E guild role.
Proof.
  unfold canManageRole, cannotManage.
  destruct (guild_me guild) as [bot|]; [|done].
  destruct (bot_manageRoles bot); simpl.
  - rewrite bool_decide_eq_false. split; [right; lia|intros [?|?]; [done|lia]].
  - split; [by left|done].
Qed.

Lemma fetchRole_view guild roleId w :
  fetchRole guild roleId w =
  (match rolesView guild w with
   | Some roles =>
       match roles !! roleId with Some role => Ok role | None => Throw "Unknown Role" end
   | None => Throw "Unknown Guild"
   end, w).
Proof.
  unfold fetchRole, rolesView, bind, get_world. cbn beta iota.
  destruct (discord w !! guild_id guild) as [gs|]; [|done]. simpl.
  by destruct (gs_roles gs !! roleId).
Qed.

Lemma rolesView_setMemberRoles guild g u f w :
  rolesView guild (setMemberRoles g u f w) = rolesView guild w.
Proof.
  unfold rolesView, setMemberRoles. cbn [discord with_discord].
  destruct (decide (g = guild_id guild)) as [->|Hne].
  - rewrite lookup_alter_eq. by destruct (discord w !! guild_id guild).
  - by rewrite lookup_alter_ne.
Qed.

Lemma writeAuditLog_run input w :
  exists entry,
    writeAuditLog input w =
    (Ok tt, with_audit_log (audit_log w ++ [entry])
              (with_next_id (N.succ (next_id w)) w)) /\
    al_roleId entry = ai_roleId input /\ al_action entry = ai_action input.
Proof. unfold writeAuditLog, bind, fresh_id, now, modify. by eexists. Qed.

Lemma role_request_gated E guild member roleId (add : bool) input w :
  manageableIn E guild w roleId ->
  ai_roleId input = roleId -> isRoleAction (ai_action input) ->
  exists w',
    try_catch
      ((if add then rolesAdd E guild member roleId
        else rolesRemove E guild member roleId) ;; writeAuditLog input)
      (fun _ => ret tt) w = (Ok tt, w') /\
    gatedChange E guild roleId w w'.
Proof.
  intros Hman Hrole Haction. unfold try_catch, bind.
  assert (exists call,
    callRole call = roleId /\
    (if add then rolesAdd E guild member roleId
     else rolesRemove E guild member roleId) w =
    match roleRequestError E (guild_id guild) (member_id member) roleId with
    | Some e => (Throw e, w)
    | None =>
        (Ok tt,
         with_role_calls (role_calls w ++ [call])
           (setMemberRoles (guild_id guild) (member_id member)
              (if add then (fun roles => if bool_decide (roleId ∈ roles) then roles
                                         else roles ++ [roleId])
               else List.filter (fun r => negb (bool_decide (r = roleId)))) w))
    end) as (call & Hcall & ->).
  { destruct add.
    - exists (RoleAdd (guild_id guild) (member_id member) roleId). split; [done|].
      unfold rolesAdd. by destruct (roleRequestError _ _ _ _).
    - exists (RoleRemove (guild_id guild) (member_id member) roleId). split; [done|].
      unfold rolesRemove. by destruct (roleRequestError _ _ _ _). }
  destruct (roleRequestError _ _ _ _) as [err|].
  { exists w. split; [done|]. split; [done|by left]. }
  set (w1 := with_role_calls _ _).
  destruct (writeAuditLog_run input w1) as (entry & -> & Heid & Heact).
  eexists. split; [done|]. split.
  - unfold rolesView. cbn [discord with_audit_log with_next_id].
    subst w1. cbn [discord with_role_calls].
    apply (rolesView_setMemberRoles guild).
  - right. split; [done|]. exists call, entry.
    split_and!; try done; by rewrite ?Heid ?Heact.
Qed.

Lemma syncRoleDecision_gated E guild member guildId discordUserId decision
    evaluations w :
  exists w',
    syncRoleDecision E guild member guildId discordUserId decision evaluations w
    = (Ok tt, w') /\
    gatedChange E guild (dec_roleId decision) w w'.
Proof.
  assert (gatedChange E guild (dec_roleId decision) w w) as Hsame.
  { split; [done|by left]. }
  unfold syncRoleDecision.
  destruct (dec_shouldHave decision) as [shouldHave|]; [|by exists w].
  unfold bind at 1, catch_null at 1. rewrite fetchRole_view.
  destruct (rolesView guild w) as [roles|] eqn:Hview; [|by exists w].
  destruct (roles !! dec_roleId decision) as [role|] eqn:Hrole; [|by exists w].
  destruct (canManageRole E guild role) eqn:Hcan; [|by exists w].
  assert (manageableIn E guild w (dec_roleId decision)) as Hman.
  { by exists roles, role. }
  cbn [negb]. cbv iota.
  destruct (shouldHave && negb (bool_decide (dec_roleId decision ∈ member_roles member))).
  { apply (role_request_gated E guild member _ true); [done|done|by left]. }
  destruct (negb shouldHave && bool_decide (dec_roleId decision ∈ member_roles member)).
  { apply (role_request_gated E guild member _ false); [done|done|by right]. }
  by exists w.
Qed.

Lemma syncRoleDecision_unmanageable E guild member guildId discordUserId decision
    evaluations w :
  ~ manageableIn E guild w (dec_roleId decision) ->
  syncRoleDecision E guild member guildId discordUserId decision evaluations w
  = (Ok tt, w).
Proof.
  intros Hnot.
  destruct (syncRoleDecision_gated E guild member guildId discordUserId decision
              evaluations w) as (w' & -> & _ & [->|[Hman _]]); done.
Qed.

Lemma manageableIn_view E guild w1 w2 roleId :
  rolesView guild w1 = rolesView guild w2 ->
  manageableIn E guild w1 roleId <-> manageableIn E guild w2 roleId.
Proof. unfold manageableIn. by intros ->. Qed.

Lemma gatedTrace_refl E guild w : gatedTrace E guild w w.
Proof.
  split; [done|]. exists [], []. by rewrite !app_nil_r.
Qed.

Lemma gatedTrace_step E guild roleId w w1 w2 :
  gatedChange E guild roleId w w1 -> gatedTrace E guild w1 w2 ->
  gatedTrace E guild w w2.
Proof.
  intros [Hv1 Hchange] (Hv2 & calls & entries & Hc & Ha & Hcalls & Hentries).
  split; [by rewrite Hv2|].
  assert (Forall (fun call => manageableIn E guild w (callRole call)) calls) as Hcalls'.
  { eapply Forall_impl; [exact Hcalls|]. intros c Hc'.
    by apply (manageableIn_view E guild w1 w). }
  assert (Forall (fun entry => manageableIn E guild w (al_roleId entry) /\
                               isRoleAction (al_action entry)) entries) as Hentries'.
  { eapply Forall_impl; [exact Hentries|]. intros en [Hm ?]. split; [|done].
    by apply (manageableIn_view E guild w1 w). }
  destruct Hchange as [->|(Hman & call & entry & Hc1 & Ha1 & Hcr & Her & Hact)].
  - by exists calls, entries.
  - exists (call :: calls), (entry :: entries). split_and!.
    + by rewrite Hc Hc1 -app_assoc.
    + by rewrite Ha Ha1 -app_assoc.
    + constructor; [by rewrite Hcr|done].
    + constructor; [by rewrite Her|done].
Qed.

(** The decision loop passes every role through the gate. *)
Lemma syncAll_gated E guild member guildId discordUserId evaluations decisions w :
  exists w',
    syncAll E guild member guildId discordUserId evaluations decisions w
    = (Ok tt, w') /\
    gatedTrace E guild w w'.
Proof.
  unfold syncAll. revert w.
  induction decisions as [|decision decisions IH]; intros w.
  - exists w. split; [done|apply gatedTrace_refl].
  - cbn [for_each]. unfold bind.
    destruct (syncRoleDecision_gated E guild member guildId discordUserId decision
                evaluations w) as (w1 & -> & Hchange).
    destruct (IH w1) as (w2 & -> & Htrace).
    exists w2. split; [done|]. by eapply gatedTrace_step.
Qed.

Lemma for_each_app {A} (l1 l2 : list A) (body : A -> M unit) w :
  for_each (l1 ++ l2) body w =
  match for_each l1 body w with
  | (Ok _, w1) => for_each l2 body w1
  | other => other
  end.
Proof.
  revert w. induction l1 as [|x l1 IH]; intros w; [reflexivity|].
  cbn [app for_each]. unfold bind.
  destruct (body x w) as [[[]|e|] w1]; [apply IH|reflexivity|reflexivity].
Qed.

Lemma syncAll_skips E guild member guildId discordUserId evaluations
    before decision after w :
  ~ manageableIn E guild w (dec_roleId decision) ->
  syncAll E guild member guildId discordUserId evaluations
    (before ++ decision :: after) w =
  syncAll E guild member guildId discordUserId evaluations (before ++ after) w.
Proof.
  intros Hnot. unfold syncAll. rewrite !for_each_app.
  destruct (syncAll_gated E guild member guildId discordUserId evaluations before w)
    as (w1 & Hrun & Hview & _).
  unfold syncAll in Hrun. rewrite Hrun. cbn [for_each]. unfold bind.
  rewrite syncRoleDecision_unmanageable; [done|].
  by rewrite (manageableIn_view E guild w1 w).
Qed.

Lemma workerGated_same E guildId w w' :
  role_calls w' = role_calls w -> audit_log w' = audit_log w ->
  workerGated E guildId w w'.
Proof.
  intros Hc Ha. exists [], []. by rewrite Hc Ha !app_nil_r.
Qed.

Lemma workerGated_trace E guildId guild w w1 w2 w' :
  botGuild guildId w = Some guild ->
  role_calls w1 = role_calls w -> audit_log w1 = audit_log w ->
  rolesView guild w1 = rolesView guild w ->
  gatedTrace E guild w1 w2 ->
  role_calls w' = role_calls w2 -> audit_log w' = audit_log w2 ->
  workerGated E guildId w w'.
Proof.
  intros Hguild Hc Ha Hv (_ & calls & entries & Hc' & Ha' & Hcalls & Hentries)
    Hc2 Ha2.
  exists calls, entries. rewrite -Hc -Ha Hc2 Ha2. split_and!; try done.
  - eapply Forall_impl; [exact Hcalls|]. intros call Hm. exists guild.
    split; [done|]. by apply (manageableIn_view E guild w1 w).
  - eapply Forall_impl; [exact Hentries|]. intros entry [Hm ?]. split; [|done].
    exists guild. split; [done|]. by apply (manageableIn_view E guild w1 w).
Qed.

Lemma updateLastCheckedAt_frame id w :
  role_calls (updateLastCheckedAt id w).2 = role_calls w /\
  audit_log (updateLastCheckedAt id w).2 = audit_log w.
Proof.
  unfold updateLastCheckedAt, bind, now, get_world. cbn beta iota.
  by destruct (existsb _ _).
Qed.

Lemma runUserCheck_gated E fuel guildId discordUserId preloadedRules w :
  workerGated E guildId w
    (runUserCheck E fuel guildId discordUserId preloadedRules w).2.
Proof.
  destruct (runUserCheck E fuel guildId discordUserId preloadedRules w)
    as [r w'] eqn:Hrun.
  cbn [snd]. revert Hrun. unfold runUserCheck.
  unfold bind at 1.
  destruct ((match preloadedRules with
             | Some rules => ret rules
             | None => findEnabledRules guildId
             end) w) as [[rules| |] w0] eqn:Hrules.
  2,3: by destruct preloadedRules.
  assert (w0 = w) as ->.
  { destruct preloadedRules; unfold ret, findEnabledRules in Hrules;
      by simplify_eq. }
  case_bool_decide as Hempty.
  { intros [= <- <-]. by apply workerGated_same. }
  unfold bind at 1. unfold findWalletLink at 1.
  destruct (find _ (wallet_links w)) as [link|]; cycle 1.
  { intros [= <- <-]. by apply workerGated_same. }
  destruct (prices_or_empty_frame E priceTtlSeconds (usdRuleAssetIds rules) w)
    as (prices & w1 & Hprices & Hframe).
  unfold bind at 1. rewrite Hprices.
  destruct Hframe as (Hclock & _ & _ & Hlinks & _ & Haudit & Hdiscord & Hcalls).
  unfold bind at 1, catch_null at 1, fetchGuild at 1, bind at 1, get_world at 1.
  cbn beta iota. rewrite Hdiscord.
  destruct (discord w !! guildId) as [gs|] eqn:Hgs; cycle 1.
  { unfold throw, ret. intros [= <- <-]. by apply workerGated_same. }
  unfold ret at 1. cbn beta iota.
  unfold bind at 1, fetchMe at 1, bind at 1, get_world at 1. cbn beta iota.
  cbn [guild_id]. rewrite Hdiscord Hgs.
  destruct (gs_fetchMe gs) as [err|bot] eqn:Hbot.
  { unfold throw. intros [= <- <-]. by apply workerGated_same. }
  unfold ret at 1. cbn beta iota.
  set (guild := {| guild_id := guildId; guild_me := Some bot |}).
  assert (botGuild guildId w = Some guild) as Hguild.
  { unfold botGuild. by rewrite Hgs Hbot. }
  unfold bind at 1, catch_null at 1, fetchMember at 1, bind at 1, get_world at 1.
  cbn beta iota. cbn [guild_id guild]. rewrite Hdiscord Hgs. fold guild.
  destruct (gs_members gs !! discordUserId) as [roles|] eqn:Hroles; cycle 1.
  { unfold throw, ret. intros [= <- <-]. by apply workerGated_same. }
  unfold ret at 1. cbn beta iota.
  destruct (getWalletSnapshot E fuel _ _ _) as [snapshot|e|].
  - unfold bind.
    match goal with |- context [for_each ?ds _ w1] =>
      destruct (syncAll_gated E guild
                  {| member_id := discordUserId; member_roles := roles |}
                  guildId discordUserId
                  (evaluateRules E rules snapshot prices) ds w1)
        as (w2 & Hsync & Htrace) end.
    unfold syncAll in Hsync. rewrite Hsync.
    destruct (updateLastCheckedAt_frame (wl_id link) w2) as [Hc2 Ha2].
    intros Hrun. rewrite Hrun in Hc2, Ha2. cbn [snd] in Hc2, Ha2.
    apply (workerGated_trace E guildId guild w w1 w2 w'); try done.
    unfold rolesView. by rewrite Hdiscord.
  - destruct (updateLastCheckedAt_frame (wl_id link) w1) as [Hc2 Ha2].
    intros Hrun. rewrite Hrun in Hc2, Ha2. cbn [snd] in Hc2, Ha2.
    apply workerGated_same; congruence.
  - unfold lift. intros [= <- <-]. by apply workerGated_same.
Qed.

Lemma for_each_gated {A} E guild (key : A -> string) (body : A -> M unit)
    (l : list A) w :
  (forall x w0, exists w1,
      body x w0 = (Ok tt, w1) /\ gatedChange E guild (key x) w0 w1) ->
  exists w', for_each l body w = (Ok tt, w') /\ gatedTrace E guild w w'.
Proof.
  intros Hbody. revert w. induction l as [|x l IH]; intros w.
  - exists w. split; [done|apply gatedTrace_refl].
  - cbn [for_each]. unfold bind.
    destruct (Hbody x w) as (w1 & -> & Hchange).
    destruct (IH w1) as (w2 & -> & Htrace).
    exists w2. split; [done|]. by eapply gatedTrace_step.
Qed.

Lemma removeManagedRolesForMember_gated E guildId discordUserId w :
  workerGated E guildId w
    (removeManagedRolesForMember E guildId discordUserId w).2.
Proof.
  destruct (removeManagedRolesForMember E guildId discordUserId w)
    as [r w'] eqn:Hrun.
  cbn [snd]. revert Hrun. unfold removeManagedRolesForMember.
  unfold bind at 1, catch_null at 1, fetchGuild at 1, bind at 1, get_world at 1.
  cbn beta iota.
  destruct (discord w !! guildId) as [gs|] eqn:Hgs; cycle 1.
  { unfold throw, ret. intros [= <- <-]. by apply workerGated_same. }
  unfold ret at 1. cbn beta iota.
  unfold bind at 1, fetchMe at 1, bind at 1, get_world at 1. cbn beta iota.
  cbn [guild_id]. rewrite Hgs.
  destruct (gs_fetchMe gs) as [err|bot] eqn:Hbot.
  { unfold throw. intros [= <- <-]. by apply workerGated_same. }
  unfold ret at 1. cbn beta iota.
  set (guild := {| guild_id := guildId; guild_me := Some bot |}).
  assert (botGuild guildId w = Some guild) as Hguild.
  { unfold botGuild. by rewrite Hgs Hbot. }
  unfold bind at 1, catch_null at 1, fetchMember at 1, bind at 1, get_world at 1.
  cbn beta iota. cbn [guild_id guild]. rewrite Hgs. fold guild.
  destruct (gs_members gs !! discordUserId) as [roles|] eqn:Hroles; cycle 1.
  { unfold throw, ret. intros [= <- <-]. by apply workerGated_same. }
  unfold ret at 1. cbn beta iota.
  unfold bind at 1, findManagedRoleIds at 1.
  match goal with |- for_each ?ids ?body w = _ -> _ =>
    destruct (for_each_gated E guild (fun roleId => roleId) body ids w)
      as (w2 & -> & Htrace) end.
  { intros roleId w0.
    assert (gatedChange E guild roleId w0 w0) as Hsame.
    { split; [done|by left]. }
    unfold bind at 1, catch_null at 1. rewrite fetchRole_view.
    destruct (rolesView guild w0) as [rs|] eqn:Hview; [|by exists w0].
    destruct (rs !! roleId) as [role|] eqn:Hrole; [|by exists w0].
    destruct (negb (bool_decide (roleId ∈ member_roles _))); [by exists w0|].
    destruct (canManageRole E guild role) eqn:Hcan; [|by exists w0].
    cbn [negb orb].
    apply (role_request_gated E guild _ roleId false); [|done|by right].
    by exists rs, role. }
  intros [= <- <-].
  by apply (workerGated_trace E guildId guild w w w2 w2).
Qed.

(** C6.  [canManageRole] is false exactly when the bot member is unknown,
    lacks the role-management permission, or its highest role does not rank
    strictly above the role.  A decision for a role that does not resolve to
    a manageable role is skipped: [syncRoleDecision] returns normally and
    changes nothing, and the decision loop gives the same result with or
    without that decision.  Every role request that the decision loop,
    [runUserCheck] or [removeManagedRolesForMember] sends, and every audit
    entry they write, is for a role the bot can manage. *)
Theorem manageability_gate (E : Env) (guild : Guild) (member : GuildMember)
    (guildId discordUserId : string) (evaluations : list EvaluationResult)
    (w : World) :
  (forall role, canManageRole E guild role = false <-> cannotManage E guild role) /\
  (forall decision,
     ~ manageableIn E guild w (dec_roleId decision) ->
     syncRoleDecision E guild member guildId discordUserId decision evaluations w
     = (Ok tt, w)) /\
  (forall decisions,
     exists w',
       syncAll E guild member guildId discordUserId evaluations decisions w
       = (Ok tt, w') /\
       gatedTrace E guild w w') /\
  (forall before decision after,
     ~ manageableIn E guild w (dec_roleId decision) ->
     syncAll E guild member guildId discordUserId evaluations
       (before ++ decision :: after) w =
     syncAll E guild member guildId discordUserId evaluations (before ++ after) w) /\
  (forall fuel preloadedRules,
     workerGated E guildId w
       (runUserCheck E fuel guildId discordUserId preloadedRules w).2) /\
  workerGated E guildId w
    (removeManagedRolesForMember E guildId discordUserId w).2.
Proof.
  split_and!.
  - intros role. apply canManageRole_false.
  - intros decision. apply syncRoleDecision_unmanageable.
  - intros decisions. apply syncAll_gated.
  - intros before decision after. apply syncAll_skips.
  - intros fuel preloadedRules. apply runUserCheck_gated.
  - apply removeManagedRolesForMember_gated.
Qed.

(** ** Sample runs *)

(** C1 on the sample state: the RPC fails for the member's wallet on every
    attempt; no role request, no audit entry, [lastCheckedAt] set. *)
Lemma runUserCheck_fail_open_witness :
  let after := runUserCheck sampleEnv 3 "guild-1" "user-1" None sampleDownWorld in
  after.1 = Ok tt /\ role_calls after.2 = [] /\ audit_log after.2 = [] /\
  map wl_lastCheckedAt (wallet_links after.2) = [Some 1000%Z].
Proof.
  destruct (runUserCheck_fail_open sampleEnv 3 "guild-1" "user-1" None
              sampleDownWorld sampleDownLink "fetch failed")
    as (Hcalls & _ & Haudit & Hreached); [by vm_compute|by vm_compute|].
  destruct (Hreached ltac:(done) sampleGuild sampleBot ["role-1"; "role-top"])
    as (Hr & Hlinks & _); [by vm_compute|by vm_compute|by vm_compute|].
  cbn zeta. by rewrite Hr Hcalls Haudit Hlinks.
Defined.

(** C7 on the sample cache: "sol" is served from the cache, "usdc" and the
    two unknown ids go upstream in one request, "usdc" is upserted; the call
    returns the stored price of "sol", the fetched price of "usdc" and no
    entry for the unknown id and for the id with a non-finite quote. *)
Lemma getUsdPrices_cache_witness :
  let after := getUsdPrices sampleEnv priceTtlSeconds sampleAssetIds samplePriceWorld in
  price_calls after.2 = [["usdc"; "bonk"; "broken"]] /\
  map pc_assetId (price_cache after.2) = ["sol"; "usdc"] /\
  priceCacheKeyed after.2 /\
  exists result,
    after.1 = Ok result /\
    result !! "sol" = Some (float_of_Z 150) /\
    result !! "usdc" = Some 1%float /\
    result !! "bonk" = None /\ result !! "broken" = None.
Proof.
  assert (priceCacheKeyed samplePriceWorld) as Hkeyed.
  { split; [apply (bool_decide_unpack _); by vm_compute|].
    by repeat constructor. }
  pose proof (getUsdPrices_cache sampleEnv sampleAssetIds samplePriceWorld Hkeyed)
    as Hcache.
  cbv zeta in Hcache.
  assert (missingIds priceTtlSeconds samplePriceWorld sampleAssetIds =
          ["usdc"; "bonk"; "broken"]) as Hmissing by by vm_compute.
  rewrite Hmissing in Hcache.
  destruct Hcache
    as (Hcalls & Hcached & Hfetched & _ & Hkeyed' & _ & _ & Hreturns & _ & _).
  destruct (Hreturns 200%Z _ eq_refl eq_refl) as [result Hresult].
  cbn zeta. split_and!; [|by vm_compute|done|]. { rewrite Hcalls. by vm_compute. }
  exists result. split; [done|].
  destruct (Hcached "sol"
              {| pc_assetId := "sol";
                 pc_priceUsd := {| dec_unscaled := 150000000000000 |};
                 pc_fetchedAt := 90000 |}) as (_ & _ & Hsol);
    [apply (bool_decide_unpack _); by vm_compute|by vm_compute|].
  assert (forall id : string, id ∈ ["usdc"; "bonk"; "broken"] ->
            match upstreamQuote sampleEnv ["usdc"; "bonk"; "broken"] id with
            | Some price => result !! id = Some price
            | None => result !! id = None
            end) as Hquote.
  { intros id Hid. specialize (Hfetched id result Hid Hresult).
    destruct (upstreamQuote _ _ id); [by destruct Hfetched as [? _]|].
    by destruct Hfetched as [? _]. }
  split_and!.
  - rewrite (Hsol result Hresult). by vm_compute.
  - apply (Hquote "usdc"). apply (bool_decide_unpack _). by vm_compute.
  - apply (Hquote "bonk"). apply (bool_decide_unpack _). by vm_compute.
  - apply (Hquote "broken"). apply (bool_decide_unpack _). by vm_compute.
Defined.

(** C6 on the sample guild: "role-top" ranks above the bot's highest role,
    and the decision to remove it changes nothing. *)
Lemma manageability_gate_witness :
  syncRoleDecision sampleEnv sampleGuildObject sampleMember "guild-1" "user-1"
    sampleTopDecision [] sampleWorld = (Ok tt, sampleWorld).
Proof.
  destruct (manageability_gate sampleEnv sampleGuildObject sampleMember
              "guild-1" "user-1" [] sampleWorld) as (_ & Hskip & _).
  apply Hskip. intros (roles & role & Hview & Hrole & Hcan).
  vm_compute in Hview. injection Hview as <-.
  vm_compute in Hrole. injection Hrole as <-.
  vm_compute in Hcan. discriminate.
Defined.

(** C9 on an empty snapshot: the rule with null columns is satisfied. *)
Lemma evaluateRule_null_columns_witness :
  ev_satisfied (evaluateRule sampleEnv sampleNullRule sampleEmptySnapshot ∅)
  = Some true.
Proof.
  destruct (evaluateRule_null_columns sampleEnv sampleNullRule
              sampleEmptySnapshot ∅) as (Hamount & _).
  destruct Hamount as [_ Hsat]; [done|done|].
  apply Hsat. split; apply map_Forall_empty.
Defined.

(** Scenarios S1 to S3 of the specification, on the sample environment. *)
Example evaluateRules_S1_S2_S3 :
  map ev_satisfied
    (evaluateRules sampleEnv
       [ sampleRule;
         {| rule_id := "r-usd"; rule_guildId := "guild-1"; rule_type := TOKEN_USD;
            rule_mint := Some "mint-usd"; rule_collection := None;
            rule_thresholdAmount := None;
            rule_thresholdUsd := Some {| dec_unscaled := 10000000000000 |};
            rule_thresholdCount := None; rule_roleId := "role-1";
            rule_priceAssetId := Some "asset-x"; rule_enabled := true |};
         {| rule_id := "r-nft"; rule_guildId := "guild-1";
            rule_type := NFT_COLLECTION;
            rule_mint := None; rule_collection := Some "col-1";
            rule_thresholdAmount := None; rule_thresholdUsd := None;
            rule_thresholdCount := Some 2%Z; rule_roleId := "role-1";
            rule_priceAssetId := None; rule_enabled := true |} ]
       {| snap_wallet := "WALLET-A";
          tokenBalancesByMint :=
            {[ "mint-a" := float_of_Z 100; "mint-usd" := float_of_Z 5 ]};
          nftCountsByCollection := {[ "col-1" := 2%Z ]} |}
       ∅)
  = [Some true; None; Some true].
Proof. by vm_compute. Qed.

(** * Further properties *)

(** ** Retry helper *)

Lemma retryFrom_Ok {T : Type} (fn : nat -> outcome T) (i remaining : nat) (v : T) :
  retryFrom fn i remaining = Ok v <->
  exists k, k <= remaining /\ fn (i + k) = Ok v /\
            forall j, j < k -> exists e, fn (i + j) = Throw e.
Proof.
  revert i. induction remaining as [|remaining IH]; intros i; cbn [retryFrom].
  - split.
    + destruct (fn i) as [v'|e|] eqn:Hi; try done. intros [= ->].
      exists 0. rewrite Nat.add_0_r. split_and!; [lia|done|lia].
    + intros (k & Hk & Hv & _). assert (k = 0) as -> by lia.
      rewrite Nat.add_0_r in Hv. by rewrite Hv.
  - destruct (fn i) as [v'|e|] eqn:Hi.
    + split.
      * intros [= ->]. exists 0. rewrite Nat.add_0_r. split_and!; [lia|done|lia].
      * intros (k & Hk & Hv & Hbefore). destruct k as [|k].
        -- rewrite Nat.add_0_r in Hv. congruence.
        -- destruct (Hbefore 0) as [e He]; [lia|].
           rewrite Nat.add_0_r in He. congruence.
    + rewrite IH. split.
      * intros (k & Hk & Hv & Hbefore). exists (S k).
        split_and!; [lia|by rewrite Nat.add_succ_r| ].
        intros [|j] Hj; [rewrite Nat.add_0_r; by exists e|].
        rewrite Nat.add_succ_r. apply Hbefore. lia.
      * intros (k & Hk & Hv & Hbefore). destruct k as [|k].
        { rewrite Nat.add_0_r in Hv. congruence. }
        exists k. split_and!; [lia|by rewrite Nat.add_succ_r in Hv| ].
        intros j Hj. specialize (Hbefore (S j)).
        rewrite Nat.add_succ_r in Hbefore. apply Hbefore. lia.
    + split; [done|]. intros (k & Hk & Hv & Hbefore). destruct k as [|k].
      * rewrite Nat.add_0_r in Hv. congruence.
      * destruct (Hbefore 0) as [e He]; [lia|].
        rewrite Nat.add_0_r in He. congruence.
Qed.

Lemma retryFrom_Throw {T : Type} (fn : nat -> outcome T) (i remaining : nat)
    (e : Error) :
  retryFrom fn i remaining = Throw e <->
  fn (i + remaining) = Throw e /\
  forall j, j < remaining -> exists e', fn (i + j) = Throw e'.
Proof.
  revert i. induction remaining as [|remaining IH]; intros i; cbn [retryFrom].
  - rewrite Nat.add_0_r. destruct (fn i) as [v'|e'|] eqn:Hi.
    + split; [done|]. by intros [? _].
    + split; [intros [= ->]; split; [done|lia]|by intros [? _]].
    + split; [done|]. by intros [? _].
  - destruct (fn i) as [v'|e'|] eqn:Hi.
    + split; [done|]. intros [_ Hbefore]. destruct (Hbefore 0) as [e0 He]; [lia|].
      rewrite Nat.add_0_r in He. congruence.
    + rewrite IH. rewrite Nat.add_succ_r. cbn [Nat.add]. split.
      * intros [Hlast Hbefore]. split; [done|].
        intros [|j] Hj; [rewrite Nat.add_0_r; by exists e'|].
        rewrite Nat.add_succ_r. apply Hbefore. lia.
      * intros [Hlast Hbefore]. split; [done|].
        intros j Hj. specialize (Hbefore (S j)).
        rewrite Nat.add_succ_r in Hbefore. apply Hbefore. lia.
    + split; [done|]. intros [_ Hbefore]. destruct (Hbefore 0) as [e0 He]; [lia|].
      rewrite Nat.add_0_r in He. congruence.
Qed.

Lemma retryFrom_ext {T : Type} (fn fn' : nat -> outcome T) (i remaining : nat) :
  (forall k, k <= remaining -> fn' (i + k) = fn (i + k)) ->
  retryFrom fn' i remaining = retryFrom fn i remaining.
Proof.
  revert i. induction remaining as [|remaining IH]; intros i Hext; cbn [retryFrom].
  - specialize (Hext 0). rewrite Nat.add_0_r in Hext. by rewrite Hext.
  - pose proof (Hext 0) as H0. rewrite Nat.add_0_r in H0. rewrite H0; [|lia].
    destruct (fn i); try done. apply IH. intros k Hk.
    specialize (Hext (S k)). rewrite Nat.add_succ_r in Hext. apply Hext. lia.
Qed.

(** [withRetry] makes at most [delaysMs.length + 1] attempts.  It returns the
    value of the first attempt that does not throw, every earlier attempt
    having thrown; it throws exactly when every attempt throws, and then the
    error is the one of the last attempt; the attempts beyond the last one are
    never made. *)
Theorem withRetry_attempts {T : Type} (fn : nat -> outcome T) (delaysMs : list Z) :
  let last := length delaysMs in
  (forall v, withRetry fn delaysMs = Ok v <->
     exists i, i <= last /\ fn i = Ok v /\
               forall j, j < i -> exists e, fn j = Throw e) /\
  (forall e, withRetry fn delaysMs = Throw e <->
     fn last = Throw e /\ forall j, j < last -> exists e', fn j = Throw e') /\
  (forall fn' : nat -> outcome T,
     (forall i, i <= last -> fn' i = fn i) ->
     withRetry fn' delaysMs = withRetry fn delaysMs).
Proof.
  intros last. subst last. unfold withRetry. split_and!.
  - intros v. apply retryFrom_Ok.
  - intros e. apply retryFrom_Throw.
  - intros fn' Hext. by apply retryFrom_ext.
Qed.

Lemma addTokenAccount_lookup balances account mint :
  addTokenAccount balances account !! mint =
  match accountAmount mint account with
  | Some amount => Some (PrimFloat.add (default 0%float (balances !! mint)) amount)
  | None => balances !! mint
  end.
Proof.
  unfold addTokenAccount, accountAmount.
  destruct (parsed account) as [p|]; [|done].
  case_bool_decide as Htype; [|done]. cbn [andb].
  case_bool_decide as Hmint.
  - subst mint. by rewrite lookup_insert_eq.
  - by rewrite lookup_insert_ne.
Qed.

Lemma addTokenAccounts_lookup accounts balances mint :
  fold_left addTokenAccount accounts balances !! mint =
  match mintAmounts mint accounts with
  | [] => balances !! mint
  | amounts =>
      Some (fold_left PrimFloat.add amounts (default 0%float (balances !! mint)))
  end.
Proof.
  revert balances. induction accounts as [|account accounts IH]; intros balances.
  { done. }
  cbn [fold_left]. rewrite IH addTokenAccount_lookup.
  change (mintAmounts mint (account :: accounts))
    with (match accountAmount mint account with
          | Some y => y :: mintAmounts mint accounts
          | None => mintAmounts mint accounts
          end).
  destruct (accountAmount mint account) as [amount|]; [|done].
  by destruct (mintAmounts mint accounts).
Qed.

(** The balance [fetchTokenBalances] reports for a mint is the sum, from 0
    and in the order of the reply, of the [uiAmount]s of the parsed accounts of
    type ["account"] of that mint; a mint with no such account has no entry.
    The reply is that of the first attempt, of at most four, that the RPC
    served. *)
Theorem fetchTokenBalances_sums (E : Env) (owner : string)
    (balances : gmap string number) :
  fetchTokenBalances E owner = Ok balances ->
  exists attempt status accounts,
    attempt <= 3 /\
    rpcTokenAccounts E owner attempt = Response status accounts /\
    (forall earlier, earlier < attempt ->
       exists e, rpcTokenAccounts E owner earlier = RequestFailed e) /\
    forall mint,
      balances !! mint =
      match mintAmounts mint accounts with
      | [] => None
      | amounts => Some (fold_left PrimFloat.add amounts 0%float)
      end.
Proof.
  unfold fetchTokenBalances.
  destruct (withRetry _ defaultDelaysMs) as [accounts|e|] eqn:Hretry; try done.
  intros [= <-]. apply retryFrom_Ok in Hretry as (attempt & Hle & Hok & Hbefore).
  cbn [Nat.add] in Hok.
  destruct (rpcTokenAccounts E owner attempt) as [e|status accounts'] eqn:Hreply;
    [done|]. injection Hok as ->.
  exists attempt, status, accounts. split_and!; [done|done| |].
  - intros earlier Hlt. destruct (Hbefore earlier Hlt) as [e He].
    cbn [Nat.add] in He.
    destruct (rpcTokenAccounts E owner earlier) as [e'|]; [by exists e'|done].
  - intros mint. rewrite addTokenAccounts_lookup lookup_empty. done.
Qed.

Lemma countItems_app counts items1 items2 :
  countItems counts (items1 ++ items2) = countItems (countItems counts items1) items2.
Proof. unfold countItems. by rewrite fold_left_app. Qed.

Lemma fetchNftPages_full E fuel owner page counts items :
  servedPage E owner page items -> pageLimit <= length items ->
  fetchNftPages E (S fuel) owner page counts =
  fetchNftPages E fuel owner (page + 1)%Z (countItems counts items).
Proof.
  intros (data & Hdata & <-) Hfull. cbn [fetchNftPages].
  unfold dasPage in Hdata. rewrite Hdata. unfold pageItems in Hfull |- *.
  rewrite bool_decide_false; [done|lia].
Qed.

Lemma fetchNftPages_from E fuel owner page counts (pages : list (list DasAsset)) :
  (forall (i : nat) items, pages !! i = Some items ->
     servedPage E owner (page + Z.of_nat i)%Z items /\ pageLimit <= length items) ->
  fetchNftPages E (length pages + fuel) owner page counts =
  fetchNftPages E fuel owner (page + Z.of_nat (length pages))%Z
    (countItems counts (concat pages)).
Proof.
  revert page counts. induction pages as [|items pages IH]; intros page counts Hfull.
  { cbn. by rewrite Z.add_0_r. }
  cbn [length Nat.add concat].
  destruct (Hfull 0 items) as [Hserved Hlen]; [done|].
  rewrite Z.add_0_r in Hserved.
  rewrite (fetchNftPages_full E _ owner page counts items) //.
  rewrite IH.
  - rewrite countItems_app. f_equal. lia.
  - intros i items' Hi. destruct (Hfull (S i) items') as [Hs Hl]; [done|].
    split; [|done]. by replace (page + 1 + Z.of_nat i)%Z with (page + Z.of_nat (S i))%Z by lia.
Qed.

(** The pagination loop asks for pages 1, 2, ... in turn and counts the
    items of every page on top of the counts so far.  While pages come back
    full (1000 items or more) it goes on; at the first short page it returns
    the counts of all items seen; when a page cannot be fetched it throws and
    the counts so far are lost. *)
Theorem fetchNftCounts_pages (E : Env) (owner : string)
    (pages : list (list DasAsset)) (fuel : nat) :
  (forall (i : nat) items, pages !! i = Some items ->
     servedPage E owner (1 + Z.of_nat i)%Z items /\ pageLimit <= length items) ->
  length pages < fuel ->
  (forall last,
     servedPage E owner (1 + Z.of_nat (length pages))%Z last -> length last < pageLimit ->
     fetchNftCountsByCollection E fuel owner =
     Ok (countItems ∅ (concat pages ++ last))) /\
  (forall e,
     dasPage E owner (1 + Z.of_nat (length pages))%Z = Throw e ->
     fetchNftCountsByCollection E fuel owner = Throw e).
Proof.
  intros Hfull Hfuel. unfold fetchNftCountsByCollection.
  replace fuel with (length pages + S (fuel - length pages - 1)) by lia.
  rewrite fetchNftPages_from //. cbn [fetchNftPages]. split.
  - intros last (data & Hdata & <-) Hshort. unfold dasPage in Hdata.
    rewrite Hdata. unfold pageItems in Hshort |- *.
    rewrite bool_decide_true; [|lia]. by rewrite countItems_app.
  - intros e He. unfold dasPage in He. by rewrite He.
Qed.

(** The loop has no bound of its own: against an indexer that answers every
    page with 1000 items or more it never returns, whatever the fuel. *)
Theorem fetchNftCounts_endless (E : Env) (owner : string) :
  (forall page, (1 <= page)%Z ->
     exists items, servedPage E owner page items /\ pageLimit <= length items) ->
  forall fuel, fetchNftCountsByCollection E fuel owner = OutOfFuel.
Proof.
  intros Hfull fuel. unfold fetchNftCountsByCollection.
  assert (forall page counts, (1 <= page)%Z ->
            fetchNftPages E fuel owner page counts = OutOfFuel) as Hloop.
  { induction fuel as [|fuel IH]; intros page counts Hpage; [done|].
    destruct (Hfull page Hpage) as (items & Hserved & Hlen).
    rewrite (fetchNftPages_full E fuel owner page counts items) //.
    apply IH. lia. }
  by apply Hloop.
Qed.

(** On the sample RPC: the third attempt is served, "mint-a" adds up to 120,
    "mint-b" to 0, and no other mint has a balance. *)
Lemma fetchTokenBalances_sums_witness :
  exists balances,
    fetchTokenBalances sampleTokenEnv "WALLET-A" = Ok balances /\
    balances !! "mint-a" = Some (float_of_Z 120) /\
    balances !! "mint-b" = Some 0%float /\
    balances !! "mint-c" = None.
Proof.
  destruct (fetchTokenBalances sampleTokenEnv "WALLET-A") as [balances|e|] eqn:Hrun;
    [|by vm_compute in Hrun..].
  exists balances. split; [done|].
  destruct (fetchTokenBalances_sums sampleTokenEnv "WALLET-A" balances Hrun)
    as (attempt & status & accounts & Hle & Hreply & Hearlier & Hsum).
  assert (attempt = 2) as ->.
  { destruct attempt as [|[|[|attempt]]]; try by vm_compute in Hreply.
    destruct (Hearlier 2) as [e He]; [lia|]. by vm_compute in He. }
  vm_compute in Hreply. injection Hreply as _ <-.
  rewrite !Hsum. by vm_compute.
Defined.

(** An owner with one full page and one asset on the second page: 1001
    assets of "col-1" after two requests. *)
Lemma fetchNftCounts_pages_witness :
  fetchNftCountsByCollection samplePagedEnv 2 "WALLET-A" = Ok {[ "col-1" := 1001%Z ]}.
Proof.
  destruct (fetchNftCounts_pages samplePagedEnv "WALLET-A"
              [replicate 1000 sampleAsset] 2) as [Hshort _].
  - intros [|i] items Hi; [|done]. injection Hi as <-.
    split; [|by vm_compute]. eexists. split; [by vm_compute|done].
  - cbn. lia.
  - rewrite (Hshort [sampleAsset]).
    + by vm_compute.
    + eexists. split; [by vm_compute|done].
    + vm_compute. lia.
Defined.

(** An indexer that serves a full page for every page number. *)
Lemma fetchNftCounts_endless_witness :
  fetchNftCountsByCollection sampleEndlessEnv 5 "WALLET-A" = OutOfFuel.
Proof.
  apply fetchNftCounts_endless. intros page _.
  exists (replicate 1000 sampleAsset). split; [|by vm_compute].
  eexists. split; [by vm_compute|done].
Defined.

Lemma JsMap_get_elem_of {V : Type} (m : JsMap.t V) (k : string) (v : V) :
  JsMap.get m k = Some v -> (k, v) ∈ JsMap.entries m.
Proof.
  unfold JsMap.entries. induction m as [|[k0 v0] m IH]; [done|]. cbn [JsMap.get].
  destruct (decide (k0 = k)) as [->|Hne].
  - intros [= ->]. left.
  - intros Hget. right. by apply IH.
Qed.

Lemma elem_of_computeRoleDecisions evaluations d :
  d ∈ computeRoleDecisions evaluations <->
  dec_roleId d ∈ map ev_roleId evaluations /\
  d = decideRole (dec_roleId d, roleGroup (dec_roleId d) evaluations).
Proof.
  unfold computeRoleDecisions. split.
  - intros ([roleId evals] & -> & Hin)%list_elem_of_fmap.
    pose proof (groupByRole_entries _ _ _ Hin) as ->. cbn [decideRole dec_roleId].
    split; [|done].
    apply uniqueInOrder_elem_of. rewrite -groupByRole_keys.
    unfold JsMap.keys. apply list_elem_of_fmap. by exists (roleId, roleGroup roleId evaluations).
  - intros [Hin ->]. cbn [decideRole dec_roleId].
    apply list_elem_of_fmap. exists (dec_roleId d, roleGroup (dec_roleId d) evaluations).
    split; [done|]. apply JsMap_get_elem_of. rewrite groupByRole_get.
    destruct (roleGroup (dec_roleId d) evaluations) eqn:Hgroup; [|done].
    apply list_elem_of_fmap in Hin as (e & He & Hin).
    assert (e ∈ roleGroup (dec_roleId d) evaluations) as Hne.
    { unfold roleGroup. apply list_elem_of_In, filter_In.
      split; [by apply list_elem_of_In|by apply bool_decide_eq_true]. }
    rewrite Hgroup in Hne. by apply elem_of_nil in Hne.
Qed.

Lemma roleGroup_evaluateRules E rules snapshot prices roleId :
  roleGroup roleId (evaluateRules E rules snapshot prices) =
  evaluateRules E (rulesOfRole roleId rules) snapshot prices.
Proof.
  unfold roleGroup, rulesOfRole, evaluateRules.
  induction rules as [|rule rules IH]; [done|]. cbn [map List.filter].
  assert (ev_roleId (evaluateRule E rule snapshot prices) = rule_roleId rule) as ->.
  { unfold evaluateRule, evaluateTokenUsd.
    repeat case_decide; try done. by destruct (prices !! _). }
  case_bool_decide; by rewrite IH.
Qed.

Lemma evaluateRules_roleIds E rules snapshot prices :
  map ev_roleId (evaluateRules E rules snapshot prices) = map rule_roleId rules.
Proof.
  unfold evaluateRules. rewrite map_map. apply map_ext. intros rule.
  unfold evaluateRule, evaluateTokenUsd.
  repeat case_decide; try done. by destruct (prices !! _).
Qed.

(** The two steps of a check composed: the decisions come one per role, in
    the order in which the roles first occur in the rules.  The decision of a
    role is [true] when one of the role's rules is satisfied on the snapshot
    and prices, else [null] when one of them is indeterminate, else [false];
    [matchedRuleIds] are the ids of the role's satisfied rules, in rule
    order. *)
Theorem decisions_of_rules (E : Env) (rules : list GatingRule)
    (snapshot : WalletSnapshot) (prices : gmap string number) :
  let satisfied rule := ev_satisfied (evaluateRule E rule snapshot prices) in
  let decisions := computeRoleDecisions (evaluateRules E rules snapshot prices) in
  map dec_roleId decisions = uniqueInOrder (map rule_roleId rules) /\
  Forall (fun d =>
    let mine := rulesOfRole (dec_roleId d) rules in
    dec_shouldHave d =
      (if existsb (fun rule => bool_decide (satisfied rule = Some true)) mine
       then Some true
       else if existsb (fun rule => bool_decide (satisfied rule = None)) mine
       then None else Some false) /\
    dec_matchedRuleIds d =
      map rule_id
        (List.filter (fun rule => bool_decide (satisfied rule = Some true)) mine))
    decisions.
Proof.
  intros satisfied decisions. subst decisions. split.
  { by rewrite computeRoleDecisions_roleIds evaluateRules_roleIds. }
  apply Forall_forall. intros d [_ Hd]%elem_of_computeRoleDecisions.
  rewrite roleGroup_evaluateRules in Hd. rewrite Hd.
  cbn [decideRole dec_roleId dec_shouldHave dec_matchedRuleIds].
  generalize (rulesOfRole (dec_roleId d) rules). intros mine.
  unfold evaluateRules.
  assert (forall rule, isTrue (evaluateRule E rule snapshot prices) =
                       bool_decide (satisfied rule = Some true)) as HisTrue.
  { intros rule. unfold isTrue, satisfied.
    by destruct (ev_satisfied _) as [[]|]. }
  assert (forall rule, isNull (evaluateRule E rule snapshot prices) =
                       bool_decide (satisfied rule = None)) as HisNull.
  { intros rule. unfold isNull, satisfied.
    by destruct (ev_satisfied _) as [[]|]. }
  assert (forall p q, (forall rule, p (evaluateRule E rule snapshot prices) = q rule) ->
            existsb p (map (fun rule => evaluateRule E rule snapshot prices) mine)
            = existsb q mine) as Hexists.
  { intros p q Hpq. induction mine as [|rule mine IH]; [done|].
    cbn [map existsb]. by rewrite Hpq IH. }
  rewrite (Hexists _ _ HisTrue) (Hexists _ _ HisNull). split; [done|].
  clear Hexists.
  induction mine as [|rule mine IH]; [done|]. cbn [map List.filter].
  rewrite HisTrue. case_bool_decide; cbn [map]; [|done].
  f_equal; [|done].
  unfold evaluateRule, evaluateTokenUsd.
  repeat case_decide; try done. by destruct (prices !! _).
Qed.

(** Granting is monotone: when the evaluations grow (rules are added, in any
    position), a role that was granted stays granted, and the rules that
    matched still match. *)
Theorem more_evaluations_never_revoke (evaluations evaluations' : list EvaluationResult)
    (d : RoleDecision) :
  evaluations ⊆ evaluations' ->
  d ∈ computeRoleDecisions evaluations ->
  dec_shouldHave d = Some true ->
  exists d',
    d' ∈ computeRoleDecisions evaluations' /\
    dec_roleId d' = dec_roleId d /\
    dec_shouldHave d' = Some true /\
    dec_matchedRuleIds d ⊆ dec_matchedRuleIds d'.
Proof.
  intros Hsub [Hin Hd]%elem_of_computeRoleDecisions Htrue.
  set (roleId := dec_roleId d) in *.
  exists (decideRole (roleId, roleGroup roleId evaluations')).
  assert (roleGroup roleId evaluations ⊆ roleGroup roleId evaluations') as Hgroup.
  { intros e. unfold roleGroup. rewrite !list_elem_of_In !filter_In -!list_elem_of_In.
    intros [He ?]. split; [by apply Hsub|done]. }
  split_and!.
  - apply elem_of_computeRoleDecisions. cbn [decideRole dec_roleId]. split; [|done].
    apply list_elem_of_fmap in Hin as (e & He & Hin).
    apply list_elem_of_fmap. exists e. split; [done|by apply Hsub].
  - done.
  - apply (decideRole_shouldHave roleId (roleGroup roleId evaluations')).
    rewrite Hd in Htrue.
    apply (decideRole_shouldHave roleId (roleGroup roleId evaluations)) in Htrue.
    apply Exists_exists in Htrue as (e & He & Hsat).
    apply Exists_exists. exists e. split; [by apply Hgroup|done].
  - rewrite Hd. cbn [decideRole dec_matchedRuleIds].
    intros id (e & -> & He)%list_elem_of_fmap.
    apply list_elem_of_fmap. exists e. split; [done|].
    apply list_elem_of_In, filter_In in He as [He Hsat].
    apply list_elem_of_In, filter_In. split; [|done].
    by apply list_elem_of_In, Hgroup, list_elem_of_In.
Qed.

(** Two evaluations of one role, the second satisfied: granted; with an
    evaluation of another role added in front, still granted. *)
Lemma more_evaluations_never_revoke_witness :
  exists d',
    d' ∈ computeRoleDecisions
           [ {| ev_ruleId := "r0"; ev_roleId := "role-2";
                ev_satisfied := Some false; ev_reason := "" |};
             {| ev_ruleId := "r1"; ev_roleId := "role-1";
                ev_satisfied := Some false; ev_reason := "" |};
             {| ev_ruleId := "r2"; ev_roleId := "role-1";
                ev_satisfied := Some true; ev_reason := "" |} ] /\
    dec_roleId d' = "role-1" /\ dec_shouldHave d' = Some true /\
    ["r2"] ⊆ dec_matchedRuleIds d'.
Proof.
  apply (more_evaluations_never_revoke
           [ {| ev_ruleId := "r1"; ev_roleId := "role-1";
                ev_satisfied := Some false; ev_reason := "" |};
             {| ev_ruleId := "r2"; ev_roleId := "role-1";
                ev_satisfied := Some true; ev_reason := "" |} ]
           _
           {| dec_roleId := "role-1"; dec_shouldHave := Some true;
              dec_matchedRuleIds := ["r2"] |}).
  - intros e He. by right.
  - vm_compute. left.
  - reflexivity.
Defined.

Lemma memberRoles_setMemberRoles g u f g' u' w :
  memberRoles g' u' (setMemberRoles g u f w) =
  if decide (g' = g /\ u' = u) then f <$> memberRoles g u w
  else memberRoles g' u' w.
Proof.
  unfold memberRoles, setMemberRoles. cbn [discord with_discord].
  destruct (decide (g' = g)) as [->|Hg].
  - rewrite lookup_alter_eq. destruct (discord w !! g) as [gs|]; cbn.
    + destruct (decide (u' = u)) as [->|Hu].
      * rewrite decide_True // lookup_alter_eq //.
      * rewrite decide_False; [|by intros [_ ?]]. by rewrite lookup_alter_ne.
    + by case_decide.
  - rewrite decide_False; [|by intros [? _]]. by rewrite lookup_alter_ne.
Qed.

Lemma sameAsideRoles_refl w : sameAsideRoles w w.
Proof. by repeat split. Qed.

Lemma sameAsideRoles_trans w1 w2 w3 :
  sameAsideRoles w1 w2 -> sameAsideRoles w2 w3 -> sameAsideRoles w1 w3.
Proof.
  unfold sameAsideRoles. intros (?&?&?&?&?&?) (?&?&?&?&?&?).
  split_and!; congruence.
Qed.

(** One role request with its audit entry, as both branches of
    [syncRoleDecision] and the loop of [removeManagedRolesForMember] make
    it. *)
Lemma role_request_run E guild member roleId (add : bool) input w :
  exists w',
    try_catch
      ((if add then rolesAdd E guild member roleId
        else rolesRemove E guild member roleId) ;; writeAuditLog input)
      (fun _ => ret tt) w = (Ok tt, w') /\
    sameAsideRoles w w' /\
    match roleRequestError E (guild_id guild) (member_id member) roleId with
    | Some _ => w' = w
    | None =>
        discord w' =
          discord (setMemberRoles (guild_id guild) (member_id member)
                     (if add
                      then (fun roles => if bool_decide (roleId ∈ roles) then roles
                                         else roles ++ [roleId])
                      else List.filter (fun r => negb (bool_decide (r = roleId)))) w) /\
        role_calls w' =
          role_calls w ++
          [if add then RoleAdd (guild_id guild) (member_id member) roleId
           else RoleRemove (guild_id guild) (member_id member) roleId] /\
        exists entry,
          audit_log w' = audit_log w ++ [entry] /\
          al_guildId entry = ai_guildId input /\
          al_discordUserId entry = ai_discordUserId input /\
          al_roleId entry = ai_roleId input /\
          al_action entry = ai_action input /\
          al_reason entry = ai_reason input /\
          al_ruleId entry = ai_ruleId input /\
          al_timestamp entry = clock w
    end.
Proof.
  unfold try_catch, bind.
  destruct add; unfold rolesAdd, rolesRemove;
    destruct (roleRequestError _ _ _ _) as [err|].
  1,3: exists w; split; [done|]; split; [apply sameAsideRoles_refl|done].
  all: unfold modify, writeAuditLog, bind, fresh_id, now, modify;
    eexists; split; [done|]; split; [by repeat split|];
    split; [done|]; split; [done|]; by eexists.
Qed.

(** The state after [syncRoleDecision], in terms of the member's roles. *)
Lemma syncRoleDecision_member E guild member guildId discordUserId decision
    evaluations roles w :
  memberRoles (guild_id guild) (member_id member) w = Some roles ->
  (dec_roleId decision ∈ roles <-> dec_roleId decision ∈ member_roles member) ->
  exists w' roles',
    syncRoleDecision E guild member guildId discordUserId decision evaluations w
    = (Ok tt, w') /\
    sameAsideRoles w w' /\
    rolesView guild w' = rolesView guild w /\
    memberRoles (guild_id guild) (member_id member) w' = Some roles' /\
    (forall r, r <> dec_roleId decision -> r ∈ roles' <-> r ∈ roles) /\
    (manageableIn E guild w (dec_roleId decision) ->
     roleRequestError E (guild_id guild) (member_id member) (dec_roleId decision)
       = None ->
     forall b, dec_shouldHave decision = Some b ->
       (dec_roleId decision ∈ roles' <-> b = true)) /\
    (~ manageableIn E guild w (dec_roleId decision) \/
     dec_shouldHave decision = None \/
     roleRequestError E (guild_id guild) (member_id member) (dec_roleId decision)
       <> None ->
     w' = w).
Proof.
  intros Hroles Hstale.
  assert (forall (P : list string -> Prop) (Q : Prop), P roles ->
    exists w' roles',
      (Ok tt, w) = (@Ok unit tt, w') /\ sameAsideRoles w w' /\
      rolesView guild w' = rolesView guild w /\
      memberRoles (guild_id guild) (member_id member) w' = Some roles' /\
      (forall r, r <> dec_roleId decision -> r ∈ roles' <-> r ∈ roles) /\
      P roles' /\ (Q -> w' = w)) as Hsame.
  { intros P Q HP. exists w, roles.
    split_and!; [done|apply sameAsideRoles_refl|done|done|done|done|done]. }
  unfold syncRoleDecision.
  destruct (dec_shouldHave decision) as [shouldHave|] eqn:Hshould; cycle 1.
  { apply Hsame. by intros _ _ b. }
  unfold bind at 1, catch_null at 1. rewrite fetchRole_view.
  destruct (rolesView guild w) as [rs|] eqn:Hview; cycle 1.
  { apply Hsame. intros (? & ? & ? & _). congruence. }
  destruct (rs !! dec_roleId decision) as [role|] eqn:Hrole; cycle 1.
  { apply Hsame. intros (rs' & role' & Hv & ? & _). congruence. }
  destruct (canManageRole E guild role) eqn:Hcan; cycle 1.
  { apply Hsame. intros (rs' & role' & Hv & ? & ?). congruence. }
  assert (manageableIn E guild w (dec_roleId decision)) as Hman.
  { by exists rs, role. }
  cbn [negb]. cbv iota.
  set (has := bool_decide (dec_roleId decision ∈ member_roles member)).
  assert (dec_roleId decision ∈ roles <-> has = true) as Hhas.
  { unfold has. by rewrite bool_decide_eq_true. }
  destruct shouldHave, has eqn:Hh; cbn [andb negb].
  - (* granted and held *)
    apply Hsame. intros _ _ b [= <-]. by rewrite Hhas.
  - (* granted and not held: add *)
    match goal with |- context [try_catch (_ ;; writeAuditLog ?input) _ w] =>
      destruct (role_request_run E guild member (dec_roleId decision) true input w)
        as (w' & -> & Hframe & Heffect) end.
    destruct (roleRequestError _ _ _ _) as [err|] eqn:Herr.
    { subst w'. apply Hsame. by intros _ ?. }
    destruct Heffect as (Hdiscord & _).
    assert (memberRoles (guild_id guild) (member_id member) w' =
            Some (roles ++ [dec_roleId decision])) as Hroles'.
    { unfold memberRoles at 1. rewrite Hdiscord.
      fold (memberRoles (guild_id guild) (member_id member)
              (setMemberRoles (guild_id guild) (member_id member)
                 (fun roles => if bool_decide (dec_roleId decision ∈ roles)
                               then roles else roles ++ [dec_roleId decision]) w)).
      rewrite memberRoles_setMemberRoles decide_True // Hroles. cbn.
      rewrite bool_decide_false //. rewrite Hhas. done. }
    exists w', (roles ++ [dec_roleId decision]).
    split_and!; [done|done| |done| | |by intros [?|[?|?]]].
    + unfold rolesView. rewrite Hdiscord -Hview.
      apply (rolesView_setMemberRoles guild).
    + intros r Hr. rewrite elem_of_app list_elem_of_singleton. intuition.
    + intros _ _ b [= <-]. rewrite elem_of_app list_elem_of_singleton. intuition.
  - (* refused and held: remove *)
    match goal with |- context [try_catch (_ ;; writeAuditLog ?input) _ w] =>
      destruct (role_request_run E guild member (dec_roleId decision) false input w)
        as (w' & -> & Hframe & Heffect) end.
    destruct (roleRequestError _ _ _ _) as [err|] eqn:Herr.
    { subst w'. apply Hsame. by intros _ ?. }
    destruct Heffect as (Hdiscord & _).
    set (kept := List.filter (fun r => negb (bool_decide (r = dec_roleId decision))) roles).
    assert (memberRoles (guild_id guild) (member_id member) w' = Some kept) as Hroles'.
    { unfold memberRoles at 1. rewrite Hdiscord.
      fold (memberRoles (guild_id guild) (member_id member)
              (setMemberRoles (guild_id guild) (member_id member)
                 (List.filter (fun r => negb (bool_decide (r = dec_roleId decision)))) w)).
      by rewrite memberRoles_setMemberRoles decide_True // Hroles. }
    assert (forall r, r ∈ kept <-> r ∈ roles /\ r <> dec_roleId decision) as Hkept.
    { intros r. unfold kept. rewrite list_elem_of_In filter_In -list_elem_of_In.
      by rewrite negb_true_iff bool_decide_eq_false. }
    exists w', kept.
    split_and!; [done|done| |done| | |by intros [?|[?|?]]].
    + unfold rolesView. rewrite Hdiscord -Hview.
      apply (rolesView_setMemberRoles guild).
    + intros r Hr. rewrite Hkept. intuition.
    + intros _ _ b [= <-]. rewrite Hkept. split; [by intros [_ ?]|done].
  - (* refused and not held *)
    apply Hsame. intros _ _ b [= <-]. rewrite Hhas. intuition.
Qed.

(** The decision loop, in terms of the member's roles.  The loop reads
    [member.roles.cache] as fetched before the loop; as the decisions are for
    distinct roles, what it reads for a role is still what the platform
    holds. *)
Lemma syncAll_member E guild member guildId discordUserId evaluations decisions
    roles w :
  NoDup (map dec_roleId decisions) ->
  memberRoles (guild_id guild) (member_id member) w = Some roles ->
  (forall d, d ∈ decisions ->
     dec_roleId d ∈ roles <-> dec_roleId d ∈ member_roles member) ->
  exists w' roles',
    syncAll E guild member guildId discordUserId evaluations decisions w
    = (Ok tt, w') /\
    sameAsideRoles w w' /\
    rolesView guild w' = rolesView guild w /\
    memberRoles (guild_id guild) (member_id member) w' = Some roles' /\
    (forall r, r ∉ map dec_roleId decisions -> r ∈ roles' <-> r ∈ roles) /\
    (forall d, d ∈ decisions ->
       manageableIn E guild w (dec_roleId d) ->
       roleRequestError E (guild_id guild) (member_id member) (dec_roleId d) = None ->
       forall b, dec_shouldHave d = Some b -> (dec_roleId d ∈ roles' <-> b = true)) /\
    (forall d, d ∈ decisions ->
       ~ manageableIn E guild w (dec_roleId d) \/ dec_shouldHave d = None \/
       roleRequestError E (guild_id guild) (member_id member) (dec_roleId d) <> None ->
       dec_roleId d ∈ roles' <-> dec_roleId d ∈ roles).
Proof.
  unfold syncAll. revert roles w.
  induction decisions as [|d decisions IH]; intros roles w Hnodup Hroles Hstale.
  { exists w, roles. split_and!; try done.
    all: intros d Hd; by apply elem_of_nil in Hd. }
  cbn [map] in Hnodup. apply NoDup_cons in Hnodup as [Hfresh Hnodup].
  cbn [for_each]. unfold bind.
  destruct (syncRoleDecision_member E guild member guildId discordUserId d
              evaluations roles w Hroles)
    as (w1 & roles1 & -> & Hframe1 & Hview1 & Hroles1 & Hother1 & Hdone1 & Hskip1).
  { apply Hstale. left. }
  assert (forall d', d' ∈ decisions -> dec_roleId d' <> dec_roleId d) as Hne.
  { intros d' Hd' Heq. apply Hfresh. rewrite -Heq.
    apply list_elem_of_fmap. by exists d'. }
  destruct (IH roles1 w1 Hnodup Hroles1)
    as (w2 & roles2 & -> & Hframe2 & Hview2 & Hroles2 & Hother2 & Hdone2 & Hskip2).
  { intros d' Hd'. rewrite Hother1; [|by apply Hne]. apply Hstale. by right. }
  exists w2, roles2. split_and!.
  - done.
  - by eapply sameAsideRoles_trans.
  - by rewrite Hview2.
  - done.
  - intros r Hr. cbn [map] in Hr. apply not_elem_of_cons in Hr as [Hrd Hr].
    by rewrite Hother2 // Hother1.
  - intros d0 [->|Hd0]%elem_of_cons Hman Hacc b Hb.
    + rewrite Hother2 //. by apply (Hdone1 Hman Hacc).
    + apply (Hdone2 d0 Hd0); [|done..].
      by apply (manageableIn_view E guild w1 w).
  - intros d0 [->|Hd0]%elem_of_cons Hskip.
    + rewrite Hother2 //. rewrite (Hskip1 Hskip) in Hroles1.
      rewrite Hroles in Hroles1. by injection Hroles1 as ->.
    + rewrite (Hskip2 d0 Hd0).
      * apply Hother1. by apply Hne.
      * destruct Hskip as [Hnot|Hrest]; [left|by right].
        by rewrite (manageableIn_view E guild w1 w).
Qed.

Lemma botGuild_Some guildId w guild :
  botGuild guildId w = Some guild ->
  exists gs bot,
    discord w !! guildId = Some gs /\ gs_fetchMe gs = inr bot /\
    guild = {| guild_id := guildId; guild_me := Some bot |}.
Proof.
  unfold botGuild. destruct (discord w !! guildId) as [gs|]; [|done].
  destruct (gs_fetchMe gs) as [|bot] eqn:Hbot; [done|].
  intros [= <-]. by exists gs, bot.
Qed.

(** A check that finds rules, a link, the guild, the bot and the member: the
    price lookup, then the snapshot, then the decision loop and the update of
    [lastCheckedAt]. *)
Lemma runUserCheck_reaches E fuel guildId discordUserId preloadedRules w
    link guild roles :
  let rules := rulesOfCheck guildId preloadedRules w in
  let prices := pricesOfCheck E rules w in
  let w1 := (getUsdPrices E priceTtlSeconds (usdRuleAssetIds rules) w).2 in
  let member := {| member_id := discordUserId; member_roles := roles |} in
  rules <> [] ->
  linkOf guildId discordUserId w = Some link ->
  botGuild guildId w = Some guild ->
  memberRoles guildId discordUserId w = Some roles ->
  samePricesAside w w1 /\
  runUserCheck E fuel guildId discordUserId preloadedRules w =
  match getWalletSnapshot E fuel (wl_walletPubkey link)
          (checkNeedsTokens rules) (checkNeedsNfts rules) with
  | OutOfFuel => (OutOfFuel, w1)
  | Throw _ => updateLastCheckedAt (wl_id link) w1
  | Ok snapshot =>
      let evaluations := evaluateRules E rules snapshot prices in
      (syncAll E guild member guildId discordUserId evaluations
         (computeRoleDecisions evaluations) ;;
       updateLastCheckedAt (wl_id link)) w1
  end.
Proof.
  intros rules prices w1 member Hrules Hlink Hguild Hroles.
  apply botGuild_Some in Hguild as (gs & bot & Hgs & Hbot & ->).
  unfold memberRoles in Hroles. rewrite Hgs in Hroles. cbn in Hroles.
  destruct (getUsdPrices_frame E priceTtlSeconds (usdRuleAssetIds rules) w)
    as [Hframe Hfuel].
  fold w1 in Hframe. split; [done|].
  unfold runUserCheck.
  assert ((match preloadedRules with
           | Some rules => ret rules
           | None => findEnabledRules guildId
           end) w = (Ok rules, w)) as Hfind.
  { subst rules. unfold rulesOfCheck. by destruct preloadedRules. }
  unfold bind at 1. rewrite Hfind.
  rewrite bool_decide_false; [|by destruct rules].
  unfold bind at 1. unfold findWalletLink at 1. fold (linkOf guildId discordUserId w).
  rewrite Hlink.
  assert (try_catch (getUsdPrices E priceTtlSeconds (usdRuleAssetIds rules))
            (fun _ => ret ∅) w = (Ok prices, w1)) as Hprices.
  { subst prices w1. unfold pricesOfCheck, try_catch, ret.
    destruct (getUsdPrices E priceTtlSeconds (usdRuleAssetIds rules) w)
      as [[p|e|] w0]; done. }
  unfold bind at 1. rewrite Hprices.
  destruct Hframe as (Hclock & _ & _ & Hlinks & _ & Haudit & Hdiscord & Hcalls).
  unfold bind at 1, catch_null at 1, fetchGuild at 1, bind at 1, get_world at 1.
  cbn beta iota. rewrite Hdiscord Hgs.
  unfold ret at 1. cbn beta iota.
  unfold bind at 1, fetchMe at 1, bind at 1, get_world at 1. cbn beta iota.
  cbn [guild_id]. rewrite Hdiscord Hgs Hbot.
  unfold ret at 1. cbn beta iota.
  unfold bind at 1, catch_null at 1, fetchMember at 1, bind at 1, get_world at 1.
  cbn beta iota. cbn [guild_id]. rewrite Hdiscord Hgs Hroles.
  unfold ret at 1. cbn beta iota.
  fold (checkNeedsTokens rules) (checkNeedsNfts rules).
  by destruct (getWalletSnapshot E fuel _ _ _).
Qed.

(** After a check that reaches the decision loop, the member holds a role
    the check decided on exactly when the decision says so, for every role
    that resolves, that the bot can manage and whose request the platform
    accepts; every other role is held as before: the roles no rule of the
    check names, the undecided ones, those the bot cannot manage and those
    whose request fails.  The check returns normally and sets
    [lastCheckedAt] of the member's link. *)
Theorem runUserCheck_converges (E : Env) (fuel : nat)
    (guildId discordUserId : string) (preloadedRules : option (list GatingRule))
    (w : World) (link : WalletLink) (guild : Guild) (roles : list string)
    (snapshot : WalletSnapshot) :
  let rules := rulesOfCheck guildId preloadedRules w in
  let prices := pricesOfCheck E rules w in
  let decisions := computeRoleDecisions (evaluateRules E rules snapshot prices) in
  let after := runUserCheck E fuel guildId discordUserId preloadedRules w in
  rules <> [] ->
  linkOf guildId discordUserId w = Some link ->
  botGuild guildId w = Some guild ->
  memberRoles guildId discordUserId w = Some roles ->
  getWalletSnapshot E fuel (wl_walletPubkey link)
    (checkNeedsTokens rules) (checkNeedsNfts rules) = Ok snapshot ->
  after.1 = Ok tt /\
  wallet_links after.2 = map (touched (wl_id link) (clock w)) (wallet_links w) /\
  exists roles',
    memberRoles guildId discordUserId after.2 = Some roles' /\
    (forall d b,
       d ∈ decisions -> dec_shouldHave d = Some b ->
       manageableIn E guild w (dec_roleId d) ->
       roleRequestError E guildId discordUserId (dec_roleId d) = None ->
       (dec_roleId d ∈ roles' <-> b = true)) /\
    (forall r,
       (forall d, d ∈ decisions -> dec_roleId d = r ->
          ~ manageableIn E guild w r \/ dec_shouldHave d = None \/
          roleRequestError E guildId discordUserId r <> None) ->
       (r ∈ roles' <-> r ∈ roles)).
Proof.
  intros rules prices decisions after Hrules Hlink Hguild Hroles Hsnap.
  subst after.
  destruct (runUserCheck_reaches E fuel guildId discordUserId preloadedRules w
              link guild roles Hrules Hlink Hguild Hroles) as [Hframe ->].
  fold rules prices. rewrite Hsnap. cbv zeta. fold decisions.
  set (w1 := (getUsdPrices E priceTtlSeconds (usdRuleAssetIds rules) w).2) in *.
  destruct Hframe as (Hclock & _ & _ & Hlinks & _ & Haudit & Hdiscord & Hcalls).
  pose proof Hguild as (gs & bot & Hgs & Hbot & Hg)%botGuild_Some.
  assert (guild_id guild = guildId) as Hgid by (by subst guild).
  set (member := {| member_id := discordUserId; member_roles := roles |}).
  assert (memberRoles (guild_id guild) (member_id member) w1 = Some roles) as Hroles1.
  { rewrite Hgid. unfold memberRoles. by rewrite Hdiscord. }
  assert (rolesView guild w1 = rolesView guild w) as Hview1.
  { unfold rolesView. by rewrite Hdiscord. }
  destruct (syncAll_member E guild member guildId discordUserId
              (evaluateRules E rules snapshot prices) decisions roles w1)
    as (w2 & roles2 & Hsync & Hframe2 & Hview2 & Hroles2 & Hother & Hdone & Hskip);
    [|done|done|].
  { subst decisions. rewrite computeRoleDecisions_roleIds. apply uniqueInOrder_NoDup. }
  unfold bind. rewrite Hsync.
  destruct Hframe2 as (Hclock2 & _ & Hlinks2 & _).
  pose proof Hlink as [Hin [Hg' Hu']%andb_true_iff]%find_Some_elem_of.
  rewrite (updateLastCheckedAt_found (wl_id link) w2 link);
    [|by rewrite Hlinks2 Hlinks|done].
  cbn [fst snd wallet_links with_wallet_links].
  split; [done|]. split; [by rewrite Hlinks2 Hlinks Hclock2 Hclock|].
  exists roles2. rewrite Hgid in Hroles2, Hdone, Hskip. cbn [member_id member] in *.
  split_and!.
  - done.
  - intros d b Hd Hb Hman Hacc. apply (Hdone d Hd); [|done..].
    by apply (manageableIn_view E guild w1 w).
  - intros r Hr. destruct (decide (r ∈ map dec_roleId decisions)) as [Hin'|Hnot].
    + apply list_elem_of_fmap in Hin' as (d & -> & Hd).
      apply (Hskip d Hd). destruct (Hr d Hd eq_refl) as [Hnot|Hrest]; [left|by right].
      by rewrite (manageableIn_view E guild w1 w).
    + by apply Hother.
Qed.

Lemma manageableIn_dec E guild w roleId :
  manageableIn E guild w roleId \/ ~ manageableIn E guild w roleId.
Proof.
  unfold manageableIn.
  destruct (rolesView guild w) as [rs|] eqn:Hview; cycle 1.
  { right. by intros (? & ? & ? & _). }
  destruct (rs !! roleId) as [role|] eqn:Hrole; cycle 1.
  { right. intros (? & ? & [= <-] & ? & _). congruence. }
  destruct (canManageRole E guild role) eqn:Hcan.
  - left. by exists rs, role.
  - right. intros (? & ? & [= <-] & ? & ?). congruence.
Qed.

(** The decision of a role, read on the rules of the role. *)
Lemma decision_of_role E rules snapshot prices d :
  d ∈ computeRoleDecisions (evaluateRules E rules snapshot prices) ->
  let satisfied rule := ev_satisfied (evaluateRule E rule snapshot prices) in
  let mine := rulesOfRole (dec_roleId d) rules in
  mine <> [] /\
  (dec_shouldHave d = Some true <->
     Exists (fun rule => satisfied rule = Some true) mine) /\
  (dec_shouldHave d = Some false <->
     Forall (fun rule => satisfied rule = Some false) mine).
Proof.
  intros [Hin Hd]%elem_of_computeRoleDecisions satisfied mine.
  rewrite roleGroup_evaluateRules in Hd. fold mine in Hd.
  rewrite evaluateRules_roleIds in Hin.
  pose proof (decideRole_shouldHave (dec_roleId d)
                (evaluateRules E mine snapshot prices)) as (Htrue & _ & Hfalse).
  cbv zeta in Htrue, Hfalse. rewrite -Hd in Htrue, Hfalse.
  unfold evaluateRules in Htrue, Hfalse.
  rewrite Htrue Hfalse. split_and!.
  - apply list_elem_of_fmap in Hin as (rule & Hr & Hin).
    assert (rule ∈ mine) as Hmine.
    { subst mine. unfold rulesOfRole. apply list_elem_of_In, filter_In.
      split; [by apply list_elem_of_In|by apply bool_decide_eq_true]. }
    intros Hnil. rewrite Hnil in Hmine. by apply elem_of_nil in Hmine.
  - rewrite !Exists_exists. split.
    + intros (e & (rule & -> & Hrule)%list_elem_of_fmap & He). by exists rule.
    + intros (rule & Hrule & He). exists (evaluateRule E rule snapshot prices).
      split; [|done]. apply list_elem_of_fmap. by exists rule.
  - rewrite !Forall_forall. split.
    + intros Hall rule Hrule. apply Hall. apply list_elem_of_fmap. by exists rule.
    + intros Hall e (rule & -> & Hrule)%list_elem_of_fmap. by apply Hall.
Qed.

(** A check changes the member's roles only as the rules warrant: a role the
    member holds is taken away only if the role has rules in the check and
    every one of them evaluates to [false]; a role is given only if one of
    its rules is satisfied.  So a role with a TOKEN_USD rule whose price is
    missing is never taken away. *)
Theorem runUserCheck_changes_justified (E : Env) (fuel : nat)
    (guildId discordUserId : string) (preloadedRules : option (list GatingRule))
    (w : World) (link : WalletLink) (guild : Guild) (roles : list string)
    (snapshot : WalletSnapshot) :
  let rules := rulesOfCheck guildId preloadedRules w in
  let prices := pricesOfCheck E rules w in
  let satisfied rule := ev_satisfied (evaluateRule E rule snapshot prices) in
  let after := runUserCheck E fuel guildId discordUserId preloadedRules w in
  rules <> [] ->
  linkOf guildId discordUserId w = Some link ->
  botGuild guildId w = Some guild ->
  memberRoles guildId discordUserId w = Some roles ->
  getWalletSnapshot E fuel (wl_walletPubkey link)
    (checkNeedsTokens rules) (checkNeedsNfts rules) = Ok snapshot ->
  exists roles',
    memberRoles guildId discordUserId after.2 = Some roles' /\
    (forall r, r ∈ roles -> r ∉ roles' ->
       rulesOfRole r rules <> [] /\
       Forall (fun rule => satisfied rule = Some false) (rulesOfRole r rules)) /\
    (forall r, r ∉ roles -> r ∈ roles' ->
       Exists (fun rule => satisfied rule = Some true) (rulesOfRole r rules)) /\
    (forall rule,
       rule ∈ rules -> rule_type rule = TOKEN_USD ->
       prices !! default "" (rule_priceAssetId rule) = None ->
       rule_roleId rule ∈ roles -> rule_roleId rule ∈ roles').
Proof.
  intros rules prices satisfied after Hrules Hlink Hguild Hroles Hsnap.
  subst after.
  destruct (runUserCheck_reaches E fuel guildId discordUserId preloadedRules w
              link guild roles Hrules Hlink Hguild Hroles) as [Hframe ->].
  fold rules prices. fold rules in Hframe. rewrite Hsnap. cbv zeta.
  set (evaluations := evaluateRules E rules snapshot prices).
  set (decisions := computeRoleDecisions evaluations).
  set (w1 := (getUsdPrices E priceTtlSeconds (usdRuleAssetIds rules) w).2) in *.
  destruct Hframe as (Hclock & _ & _ & Hlinks & _ & Haudit & Hdiscord & Hcalls).
  pose proof Hguild as (gs & bot & Hgs & Hbot & Hg)%botGuild_Some.
  assert (guild_id guild = guildId) as Hgid by (by subst guild).
  set (member := {| member_id := discordUserId; member_roles := roles |}).
  assert (memberRoles (guild_id guild) (member_id member) w1 = Some roles) as Hroles1.
  { rewrite Hgid. unfold memberRoles. by rewrite Hdiscord. }
  destruct (syncAll_member E guild member guildId discordUserId
              evaluations decisions roles w1)
    as (w2 & roles2 & Hsync & Hframe2 & Hview2 & Hroles2 & Hother & Hdone & Hskip);
    [|done|done|].
  { subst decisions. rewrite computeRoleDecisions_roleIds. apply uniqueInOrder_NoDup. }
  unfold bind. rewrite Hsync.
  assert (memberRoles guildId discordUserId
            (updateLastCheckedAt (wl_id link) w2).2 = Some roles2) as Hafter.
  { rewrite Hgid in Hroles2. cbn [member_id member] in Hroles2. rewrite -Hroles2.
    unfold updateLastCheckedAt, bind, now, get_world, memberRoles. cbn beta iota.
    by destruct (existsb _ _). }
  exists roles2. split; [done|].
  (* what the loop did to a role, by cases on its decision *)
  assert (forall r,
    (r ∈ roles2 <-> r ∈ roles) \/
    exists d b, d ∈ decisions /\ dec_roleId d = r /\ dec_shouldHave d = Some b /\
                (r ∈ roles2 <-> b = true)) as Hcases.
  { intros r. destruct (decide (r ∈ map dec_roleId decisions)) as [Hin|Hnot];
      [|left; by apply Hother].
    apply list_elem_of_fmap in Hin as (d & -> & Hd).
    destruct (dec_shouldHave d) as [b|] eqn:Hb;
      [|left; apply (Hskip d Hd); right; by left].
    destruct (manageableIn_dec E guild w1 (dec_roleId d)) as [Hman|Hnot];
      [|left; apply (Hskip d Hd); by left].
    destruct (roleRequestError E (guild_id guild) (member_id member) (dec_roleId d))
      as [err|] eqn:Herr.
    { left. apply (Hskip d Hd). right. right. by rewrite Herr. }
    right. exists d, b. split_and!; try done. by apply (Hdone d Hd). }
  split_and!.
  - intros r Hheld Hgone.
    destruct (Hcases r) as [Hsame|(d & b & Hd & <- & Hb & Hnow)]; [destruct Hgone; by apply Hsame|].
    destruct b; [by destruct Hgone; apply Hnow|].
    destruct (decision_of_role E rules snapshot prices d Hd) as (Hne & _ & Hfalse).
    split; [done|]. by apply Hfalse.
  - intros r Hlacked Hgot.
    destruct (Hcases r) as [Hsame|(d & b & Hd & <- & Hb & Hnow)];
      [destruct Hlacked; by apply Hsame|].
    destruct b; [|by apply Hnow in Hgot].
    destruct (decision_of_role E rules snapshot prices d Hd) as (_ & Htrue & _).
    by apply Htrue.
  - intros rule Hrule Htype Hprice Hheld.
    destruct (Hcases (rule_roleId rule)) as [Hsame|(d & b & Hd & Hr & Hb & Hnow)];
      [by apply Hsame|].
    destruct b; [by apply Hnow|]. exfalso.
    destruct (decision_of_role E rules snapshot prices d Hd) as (_ & _ & Hfalse).
    apply Hfalse in Hb. rewrite Forall_forall in Hb.
    assert (rule ∈ rulesOfRole (dec_roleId d) rules) as Hmine.
    { unfold rulesOfRole. apply list_elem_of_In, filter_In.
      split; [by apply list_elem_of_In|by apply bool_decide_eq_true]. }
    apply Hb in Hmine. revert Hmine.
    unfold evaluateRule, evaluateTokenUsd. rewrite Htype Hprice. cbn. done.
Qed.

(** A check that does not get as far as looking at the wallet: without
    rules, or without a link for the member, it returns at once and changes
    nothing; when the guild or the member does not resolve it returns
    normally, having touched at most the price cache ([lastCheckedAt] is not
    set); when the request for the bot's own member throws, the check
    throws. *)
Theorem runUserCheck_early_exits (E : Env) (fuel : nat)
    (guildId discordUserId : string) (preloadedRules : option (list GatingRule))
    (w : World) :
  let rules := rulesOfCheck guildId preloadedRules w in
  let after := runUserCheck E fuel guildId discordUserId preloadedRules w in
  (rules = [] -> after = (Ok tt, w)) /\
  (linkOf guildId discordUserId w = None -> after = (Ok tt, w)) /\
  (rules <> [] -> linkOf guildId discordUserId w <> None ->
   (discord w !! guildId = None \/
    (botGuild guildId w <> None /\ memberRoles guildId discordUserId w = None) ->
    after.1 = Ok tt /\ samePricesAside w after.2) /\
   (forall gs e,
      discord w !! guildId = Some gs -> gs_fetchMe gs = inl e ->
      after.1 = Throw e /\ samePricesAside w after.2)).
Proof.
  intros rules after. subst after.
  destruct (runUserCheck E fuel guildId discordUserId preloadedRules w)
    as [r w'] eqn:Hrun.
  cbn [fst snd]. revert Hrun. unfold runUserCheck.
  assert ((match preloadedRules with
           | Some rules => ret rules
           | None => findEnabledRules guildId
           end) w = (Ok rules, w)) as Hfind.
  { subst rules. unfold rulesOfCheck. by destruct preloadedRules. }
  unfold bind at 1. rewrite Hfind.
  case_bool_decide as Hempty.
  { intros [= <- <-]. split_and!; try done. intros Hne. destruct Hne.
    by apply nil_length_inv. }
  assert (rules <> []) as Hne by (intros Hnil; by rewrite Hnil in Hempty).
  unfold bind at 1. unfold findWalletLink at 1. fold (linkOf guildId discordUserId w).
  destruct (linkOf guildId discordUserId w) as [link|]; cycle 1.
  { intros [= <- <-]. by split_and!. }
  destruct (prices_or_empty_frame E priceTtlSeconds (usdRuleAssetIds rules) w)
    as (prices & w1 & Hprices & Hframe).
  unfold bind at 1. rewrite Hprices.
  pose proof Hframe as (Hclock & _ & _ & Hlinks & _ & Haudit & Hdiscord & Hcalls).
  unfold bind at 1, catch_null at 1, fetchGuild at 1, bind at 1, get_world at 1.
  cbn beta iota. rewrite Hdiscord.
  unfold botGuild, memberRoles.
  destruct (discord w !! guildId) as [gs|] eqn:Hgs; cycle 1.
  { unfold throw, ret. intros [= <- <-]. by split_and!. }
  unfold ret at 1. cbn beta iota.
  unfold bind at 1, fetchMe at 1, bind at 1, get_world at 1. cbn beta iota.
  cbn [guild_id]. rewrite Hdiscord Hgs.
  destruct (gs_fetchMe gs) as [err|bot] eqn:Hbot.
  { unfold throw. intros [= <- <-]. split_and!; try done.
    intros _ _. split.
    - intros [?|[? _]]; done.
    - intros gs' e [= <-] He. rewrite Hbot in He. by injection He as <-. }
  unfold ret at 1. cbn beta iota.
  unfold bind at 1, catch_null at 1, fetchMember at 1, bind at 1, get_world at 1.
  cbn beta iota. cbn [guild_id]. rewrite Hdiscord Hgs.
  destruct (gs_members gs !! discordUserId) as [roles|] eqn:Hmember.
  { intros _. split_and!; try done. intros _ _. split.
    - intros [?|[_ Hm]]; [done|]. cbn in Hm. congruence.
    - intros gs' e [= <-]. congruence. }
  unfold throw, ret. intros [= <- <-]. split_and!; try done.
  intros _ _. split; [done|]. intros gs' e [= <-]. congruence.
Qed.

Lemma removeManagedRole_member E guild member guildId discordUserId roleId roles w :
  memberRoles (guild_id guild) (member_id member) w = Some roles ->
  (roleId ∈ roles <-> roleId ∈ member_roles member) ->
  exists w' roles',
    removeManagedRole E guild member guildId discordUserId roleId w = (Ok tt, w') /\
    sameAsideRoles w w' /\
    rolesView guild w' = rolesView guild w /\
    memberRoles (guild_id guild) (member_id member) w' = Some roles' /\
    (forall r, r <> roleId -> r ∈ roles' <-> r ∈ roles) /\
    (roleId ∈ roles' <->
     roleId ∈ roles /\
     ~ (manageableIn E guild w roleId /\
        roleRequestError E (guild_id guild) (member_id member) roleId = None)).
Proof.
  intros Hroles Hstale.
  assert (~ (manageableIn E guild w roleId /\
             roleRequestError E (guild_id guild) (member_id member) roleId = None) ->
    exists w' roles',
      (Ok tt, w) = (@Ok unit tt, w') /\ sameAsideRoles w w' /\
      rolesView guild w' = rolesView guild w /\
      memberRoles (guild_id guild) (member_id member) w' = Some roles' /\
      (forall r, r <> roleId -> r ∈ roles' <-> r ∈ roles) /\
      (roleId ∈ roles' <->
       roleId ∈ roles /\
       ~ (manageableIn E guild w roleId /\
          roleRequestError E (guild_id guild) (member_id member) roleId = None)))
    as Hsame.
  { intros Hnot. exists w, roles.
    split_and!; [done|apply sameAsideRoles_refl|done|done|done|]. intuition. }
  unfold removeManagedRole.
  unfold bind at 1, catch_null at 1. rewrite fetchRole_view.
  destruct (rolesView guild w) as [rs|] eqn:Hview; cycle 1.
  { apply Hsame. intros [(? & ? & ? & _) _]. congruence. }
  destruct (rs !! roleId) as [role|] eqn:Hrole; cycle 1.
  { apply Hsame. intros [(rs' & role' & Hv & ? & _) _]. congruence. }
  destruct (bool_decide (roleId ∈ member_roles member)) eqn:Hhas; cbn [negb orb];
    cycle 1.
  { apply bool_decide_eq_false in Hhas. exists w, roles.
    split_and!; [done|apply sameAsideRoles_refl|done|done|done|].
    rewrite Hstale. intuition. }
  apply bool_decide_eq_true in Hhas.
  destruct (canManageRole E guild role) eqn:Hcan; cbn [negb]; cycle 1.
  { apply Hsame. intros [(rs' & role' & Hv & ? & ?) _]. congruence. }
  assert (manageableIn E guild w roleId) as Hman by (by exists rs, role).
  match goal with |- context [try_catch (_ ;; writeAuditLog ?input) _ w] =>
    destruct (role_request_run E guild member roleId false input w)
      as (w' & -> & Hframe & Heffect) end.
  destruct (roleRequestError _ _ _ _) as [err|] eqn:Herr.
  { subst w'. apply Hsame. by intros [_ ?]. }
  destruct Heffect as (Hdiscord & _).
  set (kept := List.filter (fun r => negb (bool_decide (r = roleId))) roles).
  assert (memberRoles (guild_id guild) (member_id member) w' = Some kept) as Hroles'.
  { unfold memberRoles at 1. rewrite Hdiscord.
    fold (memberRoles (guild_id guild) (member_id member)
            (setMemberRoles (guild_id guild) (member_id member)
               (List.filter (fun r => negb (bool_decide (r = roleId)))) w)).
    by rewrite memberRoles_setMemberRoles decide_True // Hroles. }
  assert (forall r, r ∈ kept <-> r ∈ roles /\ r <> roleId) as Hkept.
  { intros r. unfold kept. rewrite list_elem_of_In filter_In -list_elem_of_In.
    by rewrite negb_true_iff bool_decide_eq_false. }
  exists w', kept. split_and!; [done|done| |done| |].
  - unfold rolesView. rewrite Hdiscord -Hview.
    apply (rolesView_setMemberRoles guild).
  - intros r Hr. rewrite Hkept. intuition.
  - rewrite Hkept. intuition.
Qed.

Lemma removeManagedRoles_loop E guild member guildId discordUserId ids roles w :
  NoDup ids ->
  memberRoles (guild_id guild) (member_id member) w = Some roles ->
  (forall r, r ∈ ids -> r ∈ roles <-> r ∈ member_roles member) ->
  exists w' roles',
    for_each ids (removeManagedRole E guild member guildId discordUserId) w
    = (Ok tt, w') /\
    sameAsideRoles w w' /\
    memberRoles (guild_id guild) (member_id member) w' = Some roles' /\
    forall r,
      r ∈ roles' <->
      r ∈ roles /\
      ~ (r ∈ ids /\ manageableIn E guild w r /\
         roleRequestError E (guild_id guild) (member_id member) r = None).
Proof.
  revert roles w. induction ids as [|id ids IH]; intros roles w Hnodup Hroles Hstale.
  { exists w, roles. split_and!; [done|apply sameAsideRoles_refl|done|].
    intros r. split; [|by intros [? _]]. intros Hr. split; [done|].
    intros [Hin _]. by apply elem_of_nil in Hin. }
  apply NoDup_cons in Hnodup as [Hfresh Hnodup].
  cbn [for_each]. unfold bind.
  destruct (removeManagedRole_member E guild member guildId discordUserId id roles w
              Hroles)
    as (w1 & roles1 & -> & Hframe1 & Hview1 & Hroles1 & Hother1 & Hid1).
  { apply Hstale. left. }
  destruct (IH roles1 w1 Hnodup Hroles1)
    as (w2 & roles2 & -> & Hframe2 & Hroles2 & Hall2).
  { intros r Hr. rewrite Hother1; [|by intros ->]. apply Hstale. by right. }
  exists w2, roles2. split_and!; [done|by eapply sameAsideRoles_trans|done|].
  intros r. rewrite Hall2. rewrite (manageableIn_view E guild w1 w) //.
  destruct (decide (r = id)) as [->|Hne].
  - rewrite Hid1. split.
    + intros [[Hr Hnot] _]. split; [done|]. intros (_ & Hman & Hacc). by apply Hnot.
    + intros [Hr Hnot]. split_and!; [done| |].
      * intros [Hman Hacc]. apply Hnot. split_and!; [left|done|done].
      * by intros [Hin _].
  - rewrite Hother1 //. split; intros [Hr Hnot]; (split; [done|]).
    + intros ([?|Hin]%elem_of_cons & Hman & Hacc); [done|]. by apply Hnot.
    + intros (Hin & Hman & Hacc). apply Hnot. split_and!; [by right|done|done].
Qed.

Lemma removeManagedRolesForMember_reaches E guildId discordUserId w guild roles :
  botGuild guildId w = Some guild ->
  memberRoles guildId discordUserId w = Some roles ->
  exists w' roles',
    removeManagedRolesForMember E guildId discordUserId w = (Ok tt, w') /\
    sameAsideRoles w w' /\
    memberRoles guildId discordUserId w' = Some roles' /\
    forall r,
      r ∈ roles' <->
      r ∈ roles /\
      ~ (r ∈ managedRoleIds guildId w /\ manageableIn E guild w r /\
         roleRequestError E guildId discordUserId r = None).
Proof.
  intros Hguild Hroles.
  apply botGuild_Some in Hguild as (gs & bot & Hgs & Hbot & ->).
  pose proof Hroles as Hmember.
  unfold memberRoles in Hmember. rewrite Hgs in Hmember. cbn in Hmember.
  unfold removeManagedRolesForMember.
  unfold bind at 1, catch_null at 1, fetchGuild at 1, bind at 1, get_world at 1.
  cbn beta iota. rewrite Hgs.
  unfold ret at 1. cbn beta iota.
  unfold bind at 1, fetchMe at 1, bind at 1, get_world at 1. cbn beta iota.
  cbn [guild_id]. rewrite Hgs Hbot.
  unfold ret at 1. cbn beta iota.
  set (guild := {| guild_id := guildId; guild_me := Some bot |}).
  unfold bind at 1, catch_null at 1, fetchMember at 1, bind at 1, get_world at 1.
  cbn beta iota. cbn [guild_id guild]. rewrite Hgs Hmember. fold guild.
  unfold ret at 1. cbn beta iota.
  unfold bind at 1, findManagedRoleIds at 1. fold (managedRoleIds guildId w).
  set (member := {| member_id := discordUserId; member_roles := roles |}).
  destruct (removeManagedRoles_loop E guild member guildId discordUserId
              (managedRoleIds guildId w) roles w)
    as (w' & roles' & Hrun & Hframe & Hroles' & Hall); [apply uniqueInOrder_NoDup|done|done|].
  unfold removeManagedRole in Hrun. rewrite Hrun.
  exists w', roles'. by split_and!.
Qed.

(** [removeManagedRolesForMember] leaves the member without any role that a
    rule of the guild names (enabled or not), as far as the role resolves,
    the bot can manage it and the platform accepts the request; every other
    role the member keeps.  It adds no role, and returns normally. *)
Theorem removeManagedRoles_converges (E : Env) (guildId discordUserId : string)
    (w : World) (guild : Guild) (roles : list string) :
  let after := removeManagedRolesForMember E guildId discordUserId w in
  botGuild guildId w = Some guild ->
  memberRoles guildId discordUserId w = Some roles ->
  after.1 = Ok tt /\
  sameAsideRoles w after.2 /\
  exists roles',
    memberRoles guildId discordUserId after.2 = Some roles' /\
    forall r,
      r ∈ roles' <->
      r ∈ roles /\
      ~ (r ∈ managedRoleIds guildId w /\ manageableIn E guild w r /\
         roleRequestError E guildId discordUserId r = None).
Proof.
  intros after Hguild Hroles. subst after.
  destruct (removeManagedRolesForMember_reaches E guildId discordUserId w guild roles
              Hguild Hroles) as (w' & roles' & -> & Hframe & Hroles' & Hall).
  split_and!; [done|done|]. by exists roles'.
Qed.

Lemma getVerifyChallenge_run E token w :
  run (getVerifyChallenge E token) w =
  match decodeVerifyToken E token w with
  | (Ok payload, _) =>
      match sessionOfToken E token w with
      | None => (Throw "Verify session not found", w)
      | Some session => checkChallenge payload session w
      end
  | (Throw e, _) => (Throw e, w)
  | (OutOfFuel, _) => (OutOfFuel, w)
  end.
Proof.
  unfold getVerifyChallenge, sessionOfToken. cbn [run]. unfold bind at 1.
  pose proof (decodeVerifyToken_world E token w) as Hw.
  destruct (decodeVerifyToken E token w) as [[payload|e|] w0]; simpl in Hw; subst;
    try done.
  unfold bind, findVerifySession, ret. cbn [fst snd].
  destruct (find _ (verify_sessions w)) as [session|]; [|done]. cbn [run].
  by destruct (checkChallenge payload session w) as [[c|e|] w1].
Qed.

Lemma checkChallenge_world payload session w :
  (checkChallenge payload session w).2 = w.
Proof.
  unfold checkChallenge, bind, now, throw, ret.
  repeat (case_bool_decide || case_match); simpl; done.
Qed.

Lemma checkChallenge_Ok payload session w c :
  checkChallenge payload session w = (Ok c, w) <->
  vs_guildId session = vp_guildId payload /\
  vs_discordUserId session = vp_discordUserId payload /\
  vs_usedAt session = None /\ (clock w ≤ vs_expiresAt session)%Z /\
  c = {| vc_challengeMessage := vs_challengeMessage session;
         vc_expiresAt := vs_expiresAt session |}.
Proof.
  unfold checkChallenge, bind, now, throw, ret.
  destruct (decide (vs_guildId session = vp_guildId payload)) as [Hg|Hg]; cycle 1.
  { rewrite (bool_decide_false _ Hg). cbn. split; [done|]. by intros [? _]. }
  destruct (decide (vs_discordUserId session = vp_discordUserId payload)) as [Hu|Hu];
    cycle 1.
  { rewrite (bool_decide_false _ Hu) orb_true_r. split; [done|]. by intros (_ & ? & _). }
  rewrite (bool_decide_true _ Hg) (bool_decide_true _ Hu). cbn [negb orb].
  destruct (vs_usedAt session) as [t|] eqn:Hused.
  { rewrite bool_decide_true; [|by eexists]. split; [done|]. by intros (_ & _ & ? & _). }
  rewrite bool_decide_false; [|by intros [? ?]].
  case_bool_decide as Hexp.
  - split; [done|]. intros (_ & _ & _ & ? & _). lia.
  - split.
    + intros [= <-]. split_and!; try done. lia.
    + by intros (_ & _ & _ & _ & ->).
Qed.

Lemma getVerifyChallenge_cases (E : Env) (token : string) (w : World) :
  (run (getVerifyChallenge E token) w).2 = w /\
  (run (getVerifyChallenge E token) w).1 <> OutOfFuel /\
  forall challenge,
    (run (getVerifyChallenge E token) w).1 = Ok challenge <->
    exists payload session,
      decodeVerifyToken E token w = (Ok payload, w) /\
      sessionOfToken E token w = Some session /\
      vs_guildId session = vp_guildId payload /\
      vs_discordUserId session = vp_discordUserId payload /\
      vs_usedAt session = None /\ (clock w ≤ vs_expiresAt session)%Z /\
      challenge = {| vc_challengeMessage := vs_challengeMessage session;
                     vc_expiresAt := vs_expiresAt session |}.
Proof.
  rewrite getVerifyChallenge_run.
  pose proof (decodeVerifyToken_world E token w) as Hw.
  destruct (decodeVerifyToken E token w) as [[payload|e|] w0] eqn:Hdec;
    simpl in Hw; subst w0.
  - destruct (sessionOfToken E token w) as [session|] eqn:Hs.
    + pose proof (checkChallenge_world payload session w) as Hw.
      destruct (checkChallenge payload session w) as [r w0] eqn:Hchk.
      simpl in Hw. subst w0. cbn [fst snd]. split_and!; [done| |].
      * revert Hchk. unfold checkChallenge, bind, now, throw, ret.
        destruct (negb _ || negb _); [by intros [= <-]|].
        destruct (bool_decide (is_Some _)); [by intros [= <-]|].
        cbn beta iota. destruct (bool_decide (_ < _)%Z); [by intros [= <-]|].
        intros [= <-]. discriminate.
      * intros challenge. split.
        -- intros ->. exists payload, session.
           apply checkChallenge_Ok in Hchk as (? & ? & ? & ? & ?). by split_and!.
        -- intros (payload' & session' & [= <-] & [= <-] & Hrest).
           assert (checkChallenge payload session w = (Ok challenge, w)) as Hok.
           { by apply checkChallenge_Ok. }
           congruence.
    + cbn [fst snd]. split_and!; [done|done|]. intros challenge.
      split; [done|]. by intros (? & ? & _ & ? & _).
  - cbn [fst snd]. split_and!; [done|done|]. intros challenge.
    split; [done|]. by intros (? & ? & ? & _).
  - exfalso. revert Hdec. unfold decodeVerifyToken, bind, now, throw, ret.
    repeat case_match; done.
Qed.

(** [getVerifyChallenge] only reads.  It serves the challenge exactly when the
    token verifies, the session it names is stored, belongs to the guild and
    user of the token, is not used and has not expired; what it serves is the
    stored challenge message and expiry.  Otherwise it throws. *)
Theorem getVerifyChallenge_reads (E : Env) (token : string) (w : World) :
  (run (getVerifyChallenge E token) w).2 = w /\
  (run (getVerifyChallenge E token) w).1 <> OutOfFuel /\
  forall challenge,
    (run (getVerifyChallenge E token) w).1 = Ok challenge <->
    exists payload session,
      decodeVerifyToken E token w = (Ok payload, w) /\
      sessionOfToken E token w = Some session /\
      vs_guildId session = vp_guildId payload /\
      vs_discordUserId session = vp_discordUserId payload /\
      vs_usedAt session = None /\ (clock w ≤ vs_expiresAt session)%Z /\
      challenge = {| vc_challengeMessage := vs_challengeMessage session;
                     vc_expiresAt := vs_expiresAt session |}.
Proof. exact (getVerifyChallenge_cases E token w). Qed.

(** Signing the served challenge is enough: when [getVerifyChallenge] serves
    a challenge for a token, a submit with that token, a wallet key of 32
    bytes and a signature of 64 bytes that verifies for the served message and
    that key succeeds, for the guild and user of the token. *)
Theorem challenge_then_submit (E : Env) (input : SubmitInput) (w : World)
    (challenge : VerifyChallenge) (signature pubkey : list Z) :
  run (getVerifyChallenge E (si_token input)) w = (Ok challenge, w) ->
  bs58_decode E (si_signatureBase58 input) = Some signature ->
  bs58_decode E (si_walletPubkey input) = Some pubkey ->
  length signature = 64 -> length pubkey = 32 ->
  nacl_verify E (vc_challengeMessage challenge) signature pubkey = true ->
  exists payload result,
    decodeVerifyToken E (si_token input) w = (Ok payload, w) /\
    (run (submitVerifySignature E input) w).1 = Ok result /\
    sr_guildId result = vp_guildId payload /\
    sr_discordUserId result = vp_discordUserId payload.
Proof.
  intros Hchallenge Hsig Hkey Hlen64 Hlen32 Hvalid.
  destruct (getVerifyChallenge_cases E (si_token input) w) as (_ & _ & Hserved).
  destruct (Hserved challenge) as [Hserved' _].
  destruct Hserved' as (payload & session & Hdec & Hs & Hg & Hu & Hunused & Hexp & ->).
  { by rewrite Hchallenge. }
  exists payload.
  unfold submitVerifySignature. cbn [run]. rewrite submit_lookup Hdec Hs.
  cbn [run]. unfold bind at 1.
  assert (checkSessionAndSignature E session input w = (Ok tt, w)) as ->.
  { unfold checkSessionAndSignature, bind, now.
    rewrite bool_decide_false; [|by rewrite Hunused; intros [? ?]].
    rewrite bool_decide_false; [|lia].
    rewrite Hsig Hkey !bool_decide_true //. cbn [negb].
    cbn [vc_challengeMessage] in Hvalid. by rewrite Hvalid. }
  unfold findWalletLink at 1. cbn [run].
  assert (find (fun s => bool_decide (vs_id s = vs_id session)) (verify_sessions w)
          = Some session) as Hfind.
  { apply sessionOfToken_Some_decode in Hs as (payload' & Hdec' & Hfind).
    rewrite Hdec in Hdec'. simplify_eq.
    pose proof Hfind as [_ Hid%bool_decide_eq_true]%find_Some_elem_of.
    by rewrite Hid. }
  rewrite (updateSessionUsedAt_found _ _ _ Hfind). cbn [run].
  set (w3 := with_verify_sessions _ w).
  destruct (upsertWalletLink_Ok (vs_guildId session) (vs_discordUserId session)
              (si_walletPubkey input) w3) as (w4 & -> & _).
  cbn [run].
  match goal with |- context [writeAuditLog ?i w4] =>
    destruct (writeAuditLog_Ok i w4) as (w5 & -> & _) end.
  cbn [run lift fst]. eexists. split_and!; done.
Qed.

Lemma find_filter_keep {A} (p q : A -> bool) (l : list A) (x : A) :
  find p l = Some x -> q x = true -> find p (List.filter q l) = Some x.
Proof.
  induction l as [|y l IH]; [done|]. cbn [find List.filter].
  destruct (p y) eqn:Hp.
  - intros [= ->] Hq. rewrite Hq. cbn [find]. by rewrite Hp.
  - intros Hfind Hq. destruct (q y); [|by apply IH].
    cbn [find]. rewrite Hp. by apply IH.
Qed.

Lemma filter_filter_same {A} (q : A -> bool) (l : list A) :
  List.filter q (List.filter q l) = List.filter q l.
Proof.
  induction l as [|y l IH]; [done|]. cbn [List.filter].
  destruct (q y) eqn:Hq; [|done]. cbn [List.filter]. by rewrite Hq IH.
Qed.

Lemma filter_negb_filter {A} (q : A -> bool) (l : list A) :
  List.filter (fun x => negb (q x)) (List.filter q l) = [].
Proof.
  induction l as [|y l IH]; [done|]. cbn [List.filter].
  destruct (q y) eqn:Hq; [|done]. cbn [List.filter]. by rewrite Hq.
Qed.

Lemma filter_length_split {A} (q : A -> bool) (l : list A) :
  length l = length (List.filter q l) + length (List.filter (fun x => negb (q x)) l).
Proof.
  induction l as [|y l IH]; [done|]. cbn [List.filter length].
  destruct (q y); cbn [negb length]; lia.
Qed.

Lemma deleteStaleVerifySessions_run w :
  deleteStaleVerifySessions w =
  (Ok (Z.of_nat (length (List.filter (fun s => negb (usableSession w s))
                                     (verify_sessions w)))),
   with_verify_sessions (List.filter (usableSession w) (verify_sessions w)) w).
Proof.
  unfold deleteStaleVerifySessions, bind, now, get_world, modify, ret, usableSession.
  cbn beta iota. f_equal.
  do 3 f_equal. apply filter_ext. intros s. by rewrite negb_involutive.
Qed.

Lemma sessionOfToken_filter E token w session :
  sessionOfToken E token w = Some session ->
  usableSession w session = true ->
  sessionOfToken E token
    (with_verify_sessions (List.filter (usableSession w) (verify_sessions w)) w)
  = Some session.
Proof.
  unfold sessionOfToken, decodeVerifyToken, bind, now, throw, ret.
  cbn [clock verify_sessions with_verify_sessions].
  destruct (jwt_verify E token (clock w)) as [e| |[g|] [u|] [s|]]; try done.
  destruct (nonEmpty g && nonEmpty u && nonEmpty s); [|done].
  intros Hfind Husable. by apply find_filter_keep.
Qed.

(** [cleanupExpiredVerifySessions] deletes exactly the sessions that are
    used or have expired and returns how many they were; the sessions that
    can still be redeemed are kept, in order, and no other table changes.
    Run again at the same time it deletes nothing.  A token for which
    [getVerifyChallenge] serves a challenge is served the same challenge
    after the cleanup. *)
Theorem cleanup_keeps_usable_sessions (w : World) :
  let after := run cleanupExpiredVerifySessions w in
  let w' := with_verify_sessions (List.filter (usableSession w) (verify_sessions w)) w in
  after =
    (Ok (Z.of_nat (length (verify_sessions w)) - Z.of_nat (length (verify_sessions w')))%Z,
     w') /\
  run cleanupExpiredVerifySessions w' = (Ok 0%Z, w') /\
  forall E token challenge,
    run (getVerifyChallenge E token) w = (Ok challenge, w) ->
    run (getVerifyChallenge E token) w' = (Ok challenge, w').
Proof.
  intros after w'. subst after. unfold cleanupExpiredVerifySessions. cbn [run].
  rewrite !deleteStaleVerifySessions_run. cbn [run lift]. split_and!.
  - f_equal. f_equal.
    rewrite (filter_length_split (usableSession w) (verify_sessions w)).
    subst w'. cbn [verify_sessions with_verify_sessions]. lia.
  - assert (forall s, usableSession w' s = usableSession w s) as Hsame by (intros s; by subst w').
    assert (List.filter (usableSession w') (verify_sessions w') = verify_sessions w')
      as Hkept.
    { subst w'. cbn [verify_sessions with_verify_sessions].
      rewrite (filter_ext _ (usableSession w)) //. apply filter_filter_same. }
    f_equal.
    + f_equal. subst w'. cbn [verify_sessions with_verify_sessions].
      rewrite (filter_ext _ (fun s => negb (usableSession w s))) //.
      by rewrite filter_negb_filter.
    + rewrite Hkept. by destruct w.
  - intros E token challenge Hserved.
    destruct (getVerifyChallenge_cases E token w) as (_ & _ & Hiff).
    destruct (Hiff challenge) as [Hfrom _].
    destruct Hfrom as (payload & session & Hdec & Hs & Hg & Hu & Hunused & Hexp & ->).
    { by rewrite Hserved. }
    rewrite getVerifyChallenge_run.
    assert (decodeVerifyToken E token w' = (Ok payload, w')) as ->.
    { revert Hdec. unfold decodeVerifyToken, bind, now, throw, ret.
      subst w'. cbn [clock with_verify_sessions].
      destruct (jwt_verify E token (clock w)) as [e| |[g|] [u|] [s|]]; try done.
      destruct (nonEmpty g && nonEmpty u && nonEmpty s); [|done].
      by intros [= <-]. }
    rewrite (sessionOfToken_filter E token w session Hs); cycle 1.
    { unfold usableSession. rewrite bool_decide_false; [|lia].
      rewrite bool_decide_false //. rewrite Hunused. by intros [? ?]. }
    by apply checkChallenge_Ok.
Qed.


Lemma find_app_new {A} (f : A -> bool) (l : list A) (x : A) :
  Forall (fun y => f y = false) l -> f x = true -> find f (l ++ [x]) = Some x.
Proof.
  induction 1 as [|y l Hy _ IH]; intros Hx; cbn [app find].
  - by rewrite Hx.
  - rewrite Hy. by apply IH.
Qed.

Lemma checkChallenge_expired payload session w :
  vs_guildId session = vp_guildId payload ->
  vs_discordUserId session = vp_discordUserId payload ->
  vs_usedAt session = None -> (vs_expiresAt session < clock w)%Z ->
  checkChallenge payload session w = (Throw "Verify session expired", w).
Proof.
  intros Hg Hu Hunused Hexp. unfold checkChallenge, bind, now, throw.
  rewrite (bool_decide_true _ Hg) (bool_decide_true _ Hu). cbn [negb orb].
  rewrite bool_decide_false; [|rewrite Hunused; by intros [? ?]].
  by rewrite bool_decide_true.
Qed.


Lemma upsertedLinks_keys guildId discordUserId walletPubkey w :
  map (fun l => (wl_guildId l, wl_discordUserId l))
      (upsertedLinks guildId discordUserId walletPubkey w) =
  if existsb (fun l => bool_decide (wl_guildId l = guildId)
                       && bool_decide (wl_discordUserId l = discordUserId))
             (wallet_links w)
  then map (fun l => (wl_guildId l, wl_discordUserId l)) (wallet_links w)
  else map (fun l => (wl_guildId l, wl_discordUserId l)) (wallet_links w)
       ++ [(guildId, discordUserId)].
Proof.
  unfold upsertedLinks. destruct (existsb _ _).
  - rewrite map_map. apply map_ext. intros l. by destruct (_ && _).
  - by rewrite map_app.
Qed.

Lemma upsertedLinks_keyed guildId discordUserId walletPubkey w :
  walletLinksKeyed w ->
  NoDup (map (fun l => (wl_guildId l, wl_discordUserId l))
             (upsertedLinks guildId discordUserId walletPubkey w)).
Proof.
  unfold walletLinksKeyed. intros Hnd. rewrite upsertedLinks_keys.
  destruct (existsb _ _) eqn:Hex; [done|].
  apply NoDup_app. split_and!; [done| |apply NoDup_singleton].
  intros key (l & -> & Hl)%list_elem_of_fmap ?%list_elem_of_singleton.
  simplify_eq. apply not_true_iff_false in Hex. apply Hex.
  apply existsb_exists. exists l. split; [by apply list_elem_of_In|].
  by rewrite !bool_decide_true.
Qed.

Lemma find_map_if {A} (p : A -> bool) (f : A -> A) (l : list A) :
  (forall x, p (f x) = p x) ->
  find p (map (fun x => if p x then f x else x) l) = f <$> find p l.
Proof.
  intros Hpf. induction l as [|y l IH]; [done|]. cbn [map find].
  destruct (p y) eqn:Hy.
  - by rewrite Hpf Hy.
  - by rewrite Hy.
Qed.

Lemma upsertedLinks_find guildId discordUserId walletPubkey w :
  exists link,
    find (fun l => bool_decide (wl_guildId l = guildId)
                   && bool_decide (wl_discordUserId l = discordUserId))
         (upsertedLinks guildId discordUserId walletPubkey w) = Some link /\
    wl_walletPubkey link = walletPubkey /\ wl_verifiedAt link = clock w.
Proof.
  unfold upsertedLinks. destruct (existsb _ _) eqn:Hex.
  - rewrite (find_map_if
               (fun l => bool_decide (wl_guildId l = guildId)
                         && bool_decide (wl_discordUserId l = discordUserId))
               (fun l => {| wl_id := wl_id l; wl_guildId := wl_guildId l;
                            wl_discordUserId := wl_discordUserId l;
                            wl_walletPubkey := walletPubkey;
                            wl_verifiedAt := clock w;
                            wl_lastCheckedAt := wl_lastCheckedAt l |})) //.
    apply existsb_exists in Hex as (l & Hl & Hsame).
    destruct (find _ (wallet_links w)) as [found|] eqn:Hfound.
    + cbn. eexists. split; [reflexivity|]. by split.
    + eapply find_none in Hfound; [|exact Hl]. cbn beta in Hfound. congruence.
  - eexists. split; [apply find_app_new|done].
    + apply Forall_forall. intros l Hl. apply not_true_iff_false. intros Hsame.
      apply not_true_iff_false in Hex. apply Hex. apply existsb_exists.
      exists l. split; [by apply list_elem_of_In|done].
    + cbn. by rewrite !bool_decide_true.
Qed.

Lemma upsertWalletLink_run guildId discordUserId walletPubkey w :
  exists w',
    upsertWalletLink guildId discordUserId walletPubkey w = (Ok tt, w') /\
    wallet_links w' = upsertedLinks guildId discordUserId walletPubkey w /\
    clock w' = clock w /\ audit_log w' = audit_log w /\
    verify_sessions w' = verify_sessions w.
Proof.
  unfold upsertWalletLink, upsertedLinks, bind, now, get_world, fresh_id, modify.
  cbn beta iota. destruct (existsb _ (wallet_links w)); by eexists.
Qed.

(** What a submit that returns a result did to the wallet links. *)
Lemma submit_links E input w result w' :
  run (submitVerifySignature E input) w = (Ok result, w') ->
  wallet_links w' =
    upsertedLinks (sr_guildId result) (sr_discordUserId result)
                  (si_walletPubkey input) w /\
  clock w' = clock w /\
  (sr_replaced result = true <->
   exists old, linkOf (sr_guildId result) (sr_discordUserId result) w = Some old /\
               wl_walletPubkey old <> si_walletPubkey input).
Proof.
  unfold submitVerifySignature. cbn [run]. rewrite submit_lookup.
  pose proof (decodeVerifyToken_world E (si_token input) w) as Hw.
  destruct (decodeVerifyToken E (si_token input) w) as [[payload|e|] w0] eqn:Hdec;
    simpl in Hw; subst w0; try done.
  destruct (sessionOfToken E (si_token input) w) as [session|] eqn:Hs; [|done].
  cbn [run]. unfold bind at 1.
  pose proof (checkSessionAndSignature_world E session input w) as Hw.
  destruct (checkSessionAndSignature E session input w) as [[[]|e|] w0] eqn:Hchk;
    simpl in Hw; subst w0; try done.
  unfold findWalletLink at 1. fold (linkOf (vs_guildId session) (vs_discordUserId session) w).
  cbn [run].
  assert (find (fun s => bool_decide (vs_id s = vs_id session)) (verify_sessions w)
          = Some session) as Hfind.
  { apply sessionOfToken_Some_decode in Hs as (payload' & Hdec' & Hfind).
    rewrite Hdec in Hdec'. simplify_eq.
    pose proof Hfind as [_ Hid%bool_decide_eq_true]%find_Some_elem_of.
    by rewrite Hid. }
  rewrite (updateSessionUsedAt_found _ _ _ Hfind). cbn [run].
  set (w3 := with_verify_sessions _ w).
  destruct (upsertWalletLink_run (vs_guildId session) (vs_discordUserId session)
              (si_walletPubkey input) w3) as (w4 & -> & Hlinks4 & Hclock4 & _).
  cbn [run].
  match goal with |- context [writeAuditLog ?i w4] =>
    destruct (writeAuditLog_Ok i w4) as (w5 & -> & Hclock5 & _ & Hlinks5) end.
  cbn [run lift]. intros [= <- <-]. cbn [sr_guildId sr_discordUserId sr_replaced].
  split_and!.
  - by rewrite Hlinks5 Hlinks4.
  - by rewrite Hclock5 Hclock4.
  - destruct (linkOf _ _ w) as [old|]; cycle 1.
    { split; [done|]. by intros (? & ? & _). }
    rewrite negb_true_iff bool_decide_eq_false. split.
    + intros Hne. by exists old.
    + by intros (old' & [= <-] & Hne).
Qed.

Lemma find_none_filter_key (links : list WalletLink) (existing : WalletLink)
    (guildId discordUserId : string) :
  NoDup (map (fun l => (wl_guildId l, wl_discordUserId l)) links) ->
  existing ∈ links ->
  wl_guildId existing = guildId -> wl_discordUserId existing = discordUserId ->
  find (fun l => bool_decide (wl_guildId l = guildId)
                 && bool_decide (wl_discordUserId l = discordUserId))
       (List.filter (fun l => negb (bool_decide (wl_id l = wl_id existing))) links)
  = None.
Proof.
  intros Hnd Hin Hg Hu. apply find_none_Forall, Forall_forall.
  intros l [Hl Hid]%list_elem_of_In%filter_In.
  apply list_elem_of_In in Hl.
  apply negb_true_iff, bool_decide_eq_false in Hid.
  apply not_true_iff_false. intros [Hg' Hu']%andb_true_iff.
  apply bool_decide_eq_true in Hg', Hu'.
  apply Hid. f_equal.
  apply list_elem_of_lookup in Hl as [i Hi], Hin as [j Hj].
  assert (i = j) as ->; [|congruence].
  eapply NoDup_lookup; [exact Hnd| |].
  - rewrite list_lookup_fmap Hi. done.
  - rewrite list_lookup_fmap Hj. cbn. congruence.
Qed.

(** Linking and unlinking undo each other.  After a submit that succeeds, the
    link of the session's guild and user holds the submitted wallet, verified
    at the time of the call, and [replaced] tells whether a link with another
    wallet was there before.  An [unlinkWallet] for that guild and user then
    reports [deleted] with that wallet, writes one VERIFY_UNLINKED audit
    entry, and leaves the pair without a link. *)
Theorem submit_then_unlink (E : Env) (input : SubmitInput) (w w1 : World)
    (result : SubmitResult) :
  let guildId := sr_guildId result in
  let discordUserId := sr_discordUserId result in
  let unlinked := run (unlinkWallet guildId discordUserId) w1 in
  walletLinksKeyed w ->
  run (submitVerifySignature E input) w = (Ok result, w1) ->
  walletLinksKeyed w1 /\
  (exists link,
     linkOf guildId discordUserId w1 = Some link /\
     wl_walletPubkey link = si_walletPubkey input /\
     wl_verifiedAt link = clock w) /\
  (sr_replaced result = true <->
   exists old, linkOf guildId discordUserId w = Some old /\
               wl_walletPubkey old <> si_walletPubkey input) /\
  unlinked.1 =
    Ok {| ur_deleted := true; ur_wallet := Some (si_walletPubkey input) |} /\
  linkOf guildId discordUserId unlinked.2 = None /\
  (exists entry,
     audit_log unlinked.2 = audit_log w1 ++ [entry] /\
     al_action entry = VERIFY_UNLINKED /\
     al_guildId entry = guildId /\ al_discordUserId entry = discordUserId).
Proof.
  intros guildId discordUserId unlinked Hkeyed Hrun.
  destruct (submit_links E input w result w1 Hrun) as (Hlinks & Hclock & Hreplaced).
  fold guildId discordUserId in Hlinks, Hreplaced.
  assert (walletLinksKeyed w1) as Hkeyed1.
  { unfold walletLinksKeyed. rewrite Hlinks. by apply upsertedLinks_keyed. }
  destruct (upsertedLinks_find guildId discordUserId (si_walletPubkey input) w)
    as (link & Hfind & Hwallet & Hat).
  rewrite -Hlinks in Hfind. fold (linkOf guildId discordUserId w1) in Hfind.
  split; [done|]. split; [by exists link|]. split; [done|].
  subst unlinked.
  destruct (run (unlinkWallet guildId discordUserId) w1) as [r2 w2] eqn:Hunlink.
  cbn [fst snd]. revert Hunlink. unfold unlinkWallet. cbn [run].
  unfold findWalletLink at 1. fold (linkOf guildId discordUserId w1). rewrite Hfind.
  cbn [run].
  pose proof Hfind as [Hin [Hg Hu]%andb_true_iff]%find_Some_elem_of.
  apply bool_decide_eq_true in Hg, Hu.
  unfold deleteWalletLink, bind, get_world. cbn beta iota.
  assert (existsb (fun l => bool_decide (wl_id l = wl_id link)) (wallet_links w1)
          = true) as ->.
  { apply existsb_exists. exists link.
    split; [by apply list_elem_of_In|by apply bool_decide_eq_true]. }
  unfold modify at 1. cbn beta iota. cbn [run].
  unfold writeAuditLog, bind, fresh_id, now, modify. cbn beta iota. cbn [run lift].
  intros [= <- <-]. split_and!.
  - by rewrite Hwallet.
  - unfold linkOf.
    cbn [wallet_links with_audit_log with_next_id with_wallet_links].
    by apply find_none_filter_key.
  - eexists. split; [done|]. done.
Qed.

Lemma groupByGuild_snoc rules rule :
  groupByGuild (rules ++ [rule]) =
  JsMap.set (groupByGuild rules) (rule_guildId rule)
    (default [] (JsMap.get (groupByGuild rules) (rule_guildId rule)) ++ [rule]).
Proof. unfold groupByGuild. by rewrite fold_left_app. Qed.

Lemma groupByGuild_get rules guildId :
  JsMap.get (groupByGuild rules) guildId =
  match List.filter (fun rule => bool_decide (rule_guildId rule = guildId)) rules with
  | [] => None
  | g => Some g
  end.
Proof.
  induction rules as [|rule rules IH] using rev_ind; [done|].
  rewrite groupByGuild_snoc JsMap_get_set.
  rewrite List.filter_app /=. case_decide as Hg.
  - subst guildId. rewrite bool_decide_true // IH.
    by destruct (List.filter _ rules).
  - rewrite bool_decide_false // app_nil_r. exact IH.
Qed.

Lemma groupByGuild_keys rules :
  JsMap.keys (groupByGuild rules) = uniqueInOrder (map rule_guildId rules).
Proof.
  induction rules as [|rule rules IH] using rev_ind; [done|].
  by rewrite groupByGuild_snoc JsMap_keys_set map_app uniqueInOrder_snoc IH.
Qed.

Lemma filter_filter_and {A} (p q : A -> bool) (l : list A) :
  List.filter p (List.filter q l) = List.filter (fun x => p x && q x) l.
Proof.
  induction l as [|x l IH]; [done|]. cbn [List.filter].
  destruct (q x) eqn:Hq; cbn [List.filter]; rewrite ?Hq ?andb_true_r ?andb_false_r.
  - destruct (p x); by rewrite IH.
  - done.
Qed.

(** The two ways to read the active rules agree: the map that
    [getActiveRulesGroupedByGuild] builds has one key per guild that has an
    enabled rule, in the order in which the guilds first occur, and holds for
    each guild exactly the list that [getActiveRulesByGuild] returns for it;
    a guild without enabled rules has no key.  Neither changes the state. *)
Theorem grouped_rules_agree (w : World) :
  exists byGuild,
    getActiveRulesGroupedByGuild w = (Ok byGuild, w) /\
    NoDup (JsMap.keys byGuild) /\
    JsMap.keys byGuild =
      uniqueInOrder (map rule_guildId (List.filter rule_enabled (gating_rules w))) /\
    forall guildId,
      exists rules,
        getActiveRulesByGuild guildId w = (Ok rules, w) /\
        JsMap.get byGuild guildId = match rules with [] => None | _ => Some rules end.
Proof.
  unfold getActiveRulesGroupedByGuild, bind, get_world, ret. cbn beta iota.
  fold (groupByGuild (List.filter rule_enabled (gating_rules w))).
  eexists. split; [done|]. rewrite groupByGuild_keys. split_and!.
  - apply uniqueInOrder_NoDup.
  - done.
  - intros guildId. unfold getActiveRulesByGuild, findEnabledRules.
    eexists. split; [done|]. rewrite groupByGuild_get filter_filter_and.
    by destruct (List.filter _ (gating_rules w)).
Qed.

Lemma filter_map_if_other {A} (p hit : A -> bool) (f : A -> A) (l : list A) :
  (forall x, hit x = true -> p x = false /\ p (f x) = false) ->
  List.filter p (map (fun x => if hit x then f x else x) l) = List.filter p l.
Proof.
  intros Hhit. induction l as [|x l IH]; [done|]. cbn [map List.filter].
  destruct (hit x) eqn:Hx.
  - destruct (Hhit x Hx) as [-> ->]. done.
  - by rewrite IH.
Qed.

Lemma filter_all {A} (p : A -> bool) (l : list A) :
  Forall (fun x => p x = true) l -> List.filter p l = l.
Proof. induction 1 as [|x l Hx _ IH]; [done|]. cbn [List.filter]. by rewrite Hx IH. Qed.

Lemma map_if_none {A} (hit : A -> bool) (f : A -> A) (l : list A) :
  Forall (fun x => hit x = false) l ->
  map (fun x => if hit x then f x else x) l = l.
Proof. induction 1 as [|x l Hx _ IH]; [done|]. cbn [map]. by rewrite Hx IH. Qed.

(** [removeRule] and [setRuleEnabled] act on the rule with the given id only
    if it belongs to the given guild, and return how many rules they hit.
    When the guild has no rule with that id, they return 0 and change
    nothing, even if another guild has a rule with that id.  After
    [removeRule], and after [setRuleEnabled] with [false], the active rules of
    the guild are those of before without that rule; the active rules of every
    other guild are unchanged; a second [removeRule] returns 0. *)
Theorem rule_changes_are_scoped (guildId ruleId : string) (w : World) :
  let hits := List.filter (hitsRule guildId ruleId) (gating_rules w) in
  let removed := removeRule guildId ruleId w in
  let disabled := setRuleEnabled guildId ruleId false w in
  let active g w0 := (getActiveRulesByGuild g w0).1 in
  let without rules :=
    List.filter (fun rule => negb (bool_decide (rule_id rule = ruleId))) rules in
  removed.1 = Ok (Z.of_nat (length hits)) /\
  disabled.1 = Ok (Z.of_nat (length hits)) /\
  (hits = [] -> removed.2 = w /\ disabled.2 = w) /\
  (exists rules,
     active guildId w = Ok rules /\
     active guildId removed.2 = Ok (without rules) /\
     active guildId disabled.2 = Ok (without rules)) /\
  (forall g, g <> guildId ->
     active g removed.2 = active g w /\ active g disabled.2 = active g w) /\
  (removeRule guildId ruleId removed.2).1 = Ok 0%Z.
Proof.
  intros hits removed disabled active without.
  subst removed disabled active.
  unfold removeRule, setRuleEnabled, getActiveRulesByGuild, findEnabledRules,
    bind, get_world, modify, ret.
  cbn beta iota. cbn [fst snd gating_rules]. fold (hitsRule guildId ruleId).
  fold hits.
  assert (forall rule, (bool_decide (rule_guildId rule = guildId)
                        && bool_decide (rule_id rule = ruleId))
                       = hitsRule guildId ruleId rule) as Hfold by done.
  split_and!.
  - done.
  - done.
  - intros Hnone.
    assert (Forall (fun rule => hitsRule guildId ruleId rule = false) (gating_rules w))
      as Hall.
    { apply Forall_forall. intros rule Hrule. apply not_true_iff_false. intros Hhit.
      assert (rule ∈ hits) as Hin.
      { subst hits. apply list_elem_of_In, filter_In.
        split; [by apply list_elem_of_In|done]. }
      rewrite Hnone in Hin. by apply elem_of_nil in Hin. }
    assert (List.filter (fun rule => negb (hitsRule guildId ruleId rule)) (gating_rules w)
            = gating_rules w) as Hkeep.
    { apply filter_all. eapply Forall_impl; [exact Hall|].
      intros rule Hrule. cbn beta in Hrule. by rewrite Hrule. }
    assert (map (fun rule => if hitsRule guildId ruleId rule
                             then withEnabled false rule else rule) (gating_rules w)
            = gating_rules w) as Hsame.
    { by apply map_if_none. }
    rewrite (filter_ext _ (fun rule => negb (hitsRule guildId ruleId rule))) //.
    rewrite (map_ext _ (fun rule => if hitsRule guildId ruleId rule
                                    then withEnabled false rule else rule)) //.
    rewrite Hkeep Hsame. by destruct w.
  - eexists. split; [done|]. subst without. cbn beta. split; f_equal.
    + rewrite !filter_filter_and. apply filter_ext. intros rule.
      destruct (decide (rule_guildId rule = guildId)) as [Hg|Hg].
      * rewrite !(bool_decide_true _ Hg). cbn [andb].
        destruct (bool_decide (rule_id rule = ruleId)), (rule_enabled rule); done.
      * rewrite !(bool_decide_false _ Hg). cbn [andb negb].
        by rewrite andb_false_r.
    + rewrite filter_filter_and.
      induction (gating_rules w) as [|rule rules IH]; [done|].
      cbn [map List.filter]. rewrite -IH. clear IH.
      destruct (decide (rule_guildId rule = guildId)) as [Hg|Hg].
      * rewrite !(bool_decide_true _ Hg). cbn [andb].
        destruct (decide (rule_id rule = ruleId)) as [Hi|Hi].
        -- rewrite !(bool_decide_true _ Hi). cbn [withEnabled rule_guildId rule_enabled negb andb].
           by rewrite (bool_decide_true _ Hg).
        -- rewrite !(bool_decide_false _ Hi). cbn [negb andb].
           rewrite (bool_decide_true _ Hg). done.
      * rewrite !(bool_decide_false _ Hg). cbn [andb].
        rewrite ?(bool_decide_false _ Hg) ?andb_false_r. done.
  - intros g Hg. split; f_equal.
    + rewrite filter_filter_and. apply filter_ext. intros rule.
      destruct (decide (rule_guildId rule = g)) as [Hrg|Hrg].
      * rewrite (bool_decide_true _ Hrg) (bool_decide_false (rule_guildId rule = guildId));
          [|congruence]. cbn [andb negb]. by rewrite andb_true_r.
      * by rewrite (bool_decide_false _ Hrg).
    + apply filter_map_if_other. intros rule [Hrg _]%andb_true_iff.
      apply bool_decide_eq_true in Hrg. cbn [withEnabled rule_guildId].
      rewrite bool_decide_false; [|congruence]. done.
  - do 2 f_equal.
    assert (List.filter (hitsRule guildId ruleId)
              (List.filter (fun rule => negb (hitsRule guildId ruleId rule))
                           (gating_rules w)) = []) as Hnone.
    { induction (gating_rules w) as [|rule rules IH]; [done|]. cbn [List.filter].
      destruct (hitsRule guildId ruleId rule) eqn:Hr; cbn [negb List.filter]; [done|].
      by rewrite Hr. }
    unfold hitsRule in Hnone at 2. by rewrite Hnone.
Qed.

(** ** Bounded concurrency *)

Section RunWithConcurrencyFacts.
Context {T : Type}.
Variable items : list T.
Variable worker : T -> nat -> Task unit.

Lemma claim_started index w :
  (claim items worker index w).2 = if bool_decide (index < length items) then [index] else [].
Proof.
  unfold claim. destruct (items !! index) as [item|] eqn:Hitem.
  - rewrite bool_decide_true; [|by eapply lookup_lt_Some].
    by destruct (step _ w).
  - apply lookup_ge_None in Hitem. rewrite bool_decide_false; [done|lia].
Qed.

Lemma claim_returned index w :
  (claim items worker index w).1.1 = Returned (Ok tt) -> length items <= index.
Proof.
  unfold claim. destruct (items !! index) as [item|] eqn:Hitem.
  - by destruct (step _ w).
  - intros _. by apply lookup_ge_None.
Qed.

Lemma seq_min_succ (index n : nat) :
  seq 0 (S index `min` n) =
  seq 0 (index `min` n) ++ (if bool_decide (index < n) then [index] else []).
Proof.
  case_bool_decide.
  - replace (S index `min` n) with (S index) by lia.
    replace (index `min` n) with index by lia.
    by rewrite seq_S.
  - replace (S index `min` n) with (index `min` n) by lia. by rewrite app_nil_r.
Qed.

Lemma stepPool_inv i p w : poolInv items p -> poolInv items (stepPool items worker i p w).1.
Proof.
  intros [Hstarted Hreturned]. unfold stepPool.
  destruct (pool_runners p !! i) as [r|] eqn:Hr; [|done].
  assert (forall r', Returned (Ok tt) ∈ <[i := r']> (pool_runners p) ->
            r' = Returned (Ok tt) \/ Returned (Ok tt) ∈ pool_runners p) as Hins.
  { intros r' (j & Hj)%list_elem_of_lookup.
    destruct (decide (i = j)) as [->|Hne].
    - rewrite list_lookup_insert_eq in Hj; [|by eapply lookup_lt_Some].
      left. by injection Hj.
    - rewrite list_lookup_insert_ne // in Hj. right.
      by eapply list_elem_of_lookup_2. }
  assert (poolInv items
    (let '(r', w', started) := claim items worker (pool_index p) w in
     {| pool_index := S (pool_index p);
        pool_runners := <[i := r']> (pool_runners p);
        pool_started := pool_started p ++ started;
        pool_rejected :=
          match pool_rejected p, r' with
          | None, Returned (Throw e) => if isReturned r then None else Some e
          | rejected, _ => rejected
          end |})) as Hclaim.
  { pose proof (claim_started (pool_index p) w) as Hs.
    pose proof (claim_returned (pool_index p) w) as Hret.
    destruct (claim items worker (pool_index p) w) as [[r' w'] started].
    cbn [fst snd] in Hs, Hret. subst started. split; cbn [pool_started pool_index pool_runners].
    - by rewrite seq_min_succ Hstarted.
    - intros [->|Hold]%Hins; [specialize (Hret eq_refl)|specialize (Hreturned Hold)]; lia. }
  assert (forall r', r' <> Returned (Ok tt) ->
    poolInv items {| pool_index := pool_index p;
               pool_runners := <[i := r']> (pool_runners p);
               pool_started := pool_started p ++ [];
               pool_rejected :=
                 match pool_rejected p, r' with
                 | None, Returned (Throw e) => if isReturned r then None else Some e
                 | rejected, _ => rejected
                 end |}) as Hstay.
  { intros r' Hr'. split; cbn [pool_started pool_index pool_runners].
    - by rewrite app_nil_r.
    - intros [->|Hold]%Hins; [done|by apply Hreturned]. }
  destruct r as [|[[[]|e|]|X op k]|o]; cbn [stepRunner].
  - destruct (claim items worker (pool_index p) w) as [[r' w'] started]. exact Hclaim.
  - destruct (claim items worker (pool_index p) w) as [[r' w'] started]. exact Hclaim.
  - by apply Hstay.
  - by apply Hstay.
  - destruct (step (Await op k) w) as [call w']. by apply Hstay.
  - split; cbn [pool_started pool_index pool_runners fst].
    + by rewrite app_nil_r.
    + rewrite list_insert_id //.
Qed.

Lemma stepsPool_inv schedule p w :
  poolInv items p -> poolInv items (stepsPool items worker schedule p w).1.
Proof.
  unfold stepsPool. revert p w.
  induction schedule as [|i schedule IH]; intros p w Hinv; [done|].
  cbn [fold_left fst snd]. destruct (stepPool items worker i p w) as [p1 w1] eqn:Hstep.
  apply IH. pose proof (stepPool_inv i p w Hinv) as H1. by rewrite Hstep in H1.
Qed.

Lemma stepPool_runners i p w :
  length (pool_runners (stepPool items worker i p w).1) = length (pool_runners p).
Proof.
  unfold stepPool. destruct (pool_runners p !! i) as [r|]; [|done].
  destruct (stepRunner items worker r (pool_index p) w) as [[[r' index'] w'] started].
  cbn [fst pool_runners]. by rewrite length_insert.
Qed.

Lemma stepsPool_runners schedule p w :
  length (pool_runners (stepsPool items worker schedule p w).1) = length (pool_runners p).
Proof.
  unfold stepsPool. revert p w.
  induction schedule as [|i schedule IH]; intros p w; [done|].
  cbn [fold_left fst snd]. destruct (stepPool items worker i p w) as [p1 w1] eqn:Hstep.
  rewrite IH. pose proof (stepPool_runners i p w) as H1. by rewrite Hstep in H1.
Qed.

(** Whatever the schedule, [runWithConcurrency] hands every item to the
    worker at most once, and in the order of the items: at any time the
    indices handed out so far are 0, 1, ..., k - 1 for some k.  There are
    [max(1, min(concurrency, items.length))] runners, so at most that many
    worker calls are in flight.  Once [Promise.all] has resolved, every item
    has been handed out exactly once.  Without items nothing is done. *)
Theorem runWithConcurrency_each_once (concurrency : Z) (schedule : list nat)
    (w : World) :
  let pool := (runWithConcurrency items worker concurrency schedule w).1 in
  (exists k, k <= length items /\ pool_started pool = seq 0 k) /\
  length (pool_runners pool) =
    (if bool_decide (length items = 0) then 0 else maxWorkers items concurrency) /\
  (poolOutcome pool = Some (Ok tt) -> pool_started pool = seq 0 (length items)) /\
  (items = [] -> runWithConcurrency items worker concurrency schedule w =
                 ({| pool_index := 0; pool_runners := []; pool_started := [];
                     pool_rejected := None |}, w)).
Proof.
  intros pool. subst pool. unfold runWithConcurrency.
  case_bool_decide as Hempty.
  { cbn [fst pool_started pool_runners]. split_and!; try done.
    - exists 0. split; [lia|done].
    - intros _. by rewrite Hempty. }
  set (initial := {| pool_index := 0;
                     pool_runners := replicate (maxWorkers items concurrency) AtLoopHead;
                     pool_started := []; pool_rejected := None |}).
  assert (poolInv items initial) as Hinitial.
  { split; [done|]. cbn [pool_runners initial].
    intros [? _]%elem_of_replicate. done. }
  pose proof (stepsPool_inv (seq 0 (maxWorkers items concurrency) ++ schedule) initial w
                Hinitial) as [Hstarted Hreturned].
  pose proof (stepsPool_runners (seq 0 (maxWorkers items concurrency) ++ schedule) initial w)
    as Hlength.
  cbn [pool_runners initial] in Hlength. rewrite length_replicate in Hlength.
  set (pool := (stepsPool items worker _ initial w).1) in *.
  split_and!.
  - exists (pool_index pool `min` length items). split; [lia|done].
  - done.
  - unfold poolOutcome. destruct (pool_rejected pool); [done|].
    destruct (forallb _ (pool_runners pool)) eqn:Hall; [|done]. intros _.
    rewrite Hstarted. f_equal.
    assert (exists r, r ∈ pool_runners pool) as [r Hr].
    { destruct (pool_runners pool) as [|r rs] eqn:Hrs.
      - cbn in Hlength. unfold maxWorkers in Hlength. lia.
      - exists r. left. }
    rewrite forallb_forall in Hall. pose proof Hr as Hr'%list_elem_of_In%Hall.
    destruct r as [| |[[]| |]]; try done.
    specialize (Hreturned Hr). lia.
  - intros Hnil. by rewrite Hnil in Hempty.
Qed.

End RunWithConcurrencyFacts.

(** ** The run-now queue of the worker *)

Section RunNowQueueFacts.
Variable runUserCheckTask : string -> string -> Task unit.
Variable runGuildCheckTask : string -> Task unit.

Lemma filter_insert_length {A} (p : A -> bool) (l : list A) (i : nat) (x y : A) :
  l !! i = Some x ->
  length (List.filter p (<[i := y]> l)) + (if p x then 1 else 0) =
  length (List.filter p l) + (if p y then 1 else 0).
Proof.
  revert i. induction l as [|z l IH]; intros [|i] Hi; try done.
  - injection Hi as ->. cbn [insert list_insert List.filter].
    destruct (p x), (p y); cbn [length]; lia.
  - specialize (IH i Hi).
    change (<[S i := y]> (z :: l)) with (z :: <[i := y]> l).
    cbn [List.filter]. destruct (p z); cbn [length]; lia.
Qed.

Lemma existsb_insert_keep {A} (p : A -> bool) (l : list A) (i : nat) (x y : A) :
  l !! i = Some x -> (p x = true -> p y = true) ->
  existsb p l = true -> existsb p (<[i := y]> l) = true.
Proof.
  revert i. induction l as [|z l IH]; intros [|i] Hi Hxy; try done.
  - injection Hi as ->. cbn [insert list_insert existsb].
    destruct (p x); [by rewrite Hxy|]. cbn. intros ->. by rewrite orb_true_r.
  - change (<[S i := y]> (z :: l)) with (z :: <[i := y]> l).
    cbn [existsb]. destruct (p z); [done|]. cbn.
    by apply (IH i).
Qed.

Lemma existsb_insert_new {A} (p : A -> bool) (l : list A) (i : nat) (x y : A) :
  l !! i = Some x -> p y = true -> existsb p (<[i := y]> l) = true.
Proof.
  revert i. induction l as [|z l IH]; intros [|i] Hi Hy; try done.
  - cbn [insert list_insert existsb]. by rewrite Hy.
  - change (<[S i := y]> (z :: l)) with (z :: <[i := y]> l).
    cbn [existsb]. rewrite (IH i) //. by rewrite orb_true_r.
Qed.

Lemma recheckStep_inv event s w :
  recheckInv s ->
  recheckInv (recheckStep runUserCheckTask runGuildCheckTask event s w).1.
Proof.
  intros (Hone & Hfifo & Hidle). destruct s as [[queue processing] calls enqueued started].
  cbn [rn_fields rn_calls rn_enqueued rn_started runNowQueue processingRunNow] in *.
  destruct event as [guildId discordUserId|i]; cbn [recheckStep rn_fields rn_calls].
  - (* a call arrives *)
    unfold enqueueRecheck. cbn [runNowQueue processingRunNow].
    destruct processing.
    + cbn [fst]. split_and!;
        cbn [rn_fields rn_calls rn_enqueued rn_started runNowQueue processingRunNow].
      * rewrite List.filter_app length_app. cbn. lia.
      * by rewrite app_nil_r app_assoc Hfifo.
      * done.
    + unfold drainLoop. cbn [runNowQueue processingRunNow].
      destruct (queue ++ _) as [|next rest] eqn:Hqueue.
      { by destruct queue. }
      destruct (step (checkOf runUserCheckTask runGuildCheckTask next) w) as [check w']. cbn [fst].
      split_and!;
        cbn [rn_fields rn_calls rn_enqueued rn_started runNowQueue processingRunNow].
      * rewrite List.filter_app length_app. cbn. lia.
      * rewrite -Hfifo -!app_assoc. f_equal. cbn [app]. by rewrite -Hqueue.
      * done.
  - (* a call goes on *)
    destruct (calls !! i) as [d|] eqn:Hd; [|by split_and!].
    assert (isDraining d = true -> processing = true) as Hflag.
    { intros Hdraining. destruct processing; [done|].
      assert (d ∈ List.filter isDraining calls) as Hin.
      { apply list_elem_of_In, filter_In. split; [|done].
        apply list_elem_of_In. by eapply list_elem_of_lookup_2. }
      destruct (List.filter isDraining calls); [by apply elem_of_nil in Hin|done]. }
    destruct d as [[[[]|e|]|X op k]|o]; cbn [resumeDrain].
    + (* the check has returned: the loop goes round *)
      specialize (Hflag eq_refl). subst processing.
      unfold drainLoop. cbn [runNowQueue processingRunNow].
      destruct queue as [|next rest].
      * cbn [fst]. split_and!;
          cbn [rn_fields rn_calls rn_enqueued rn_started runNowQueue processingRunNow].
        -- pose proof (filter_insert_length isDraining calls i _
                         (DrainReturned (Ok tt)) Hd) as Hlen.
           cbn [isDraining] in Hlen. lia.
        -- by rewrite app_nil_r.
        -- by left.
      * destruct (step (checkOf runUserCheckTask runGuildCheckTask next) w)
          as [check w'].
        cbn [fst].
        split_and!;
          cbn [rn_fields rn_calls rn_enqueued rn_started runNowQueue processingRunNow].
        -- pose proof (filter_insert_length isDraining calls i _
                         (DrainAwaiting check) Hd) as Hlen.
           cbn [isDraining] in Hlen. lia.
        -- by rewrite -Hfifo -app_assoc.
        -- done.
    + (* the check has thrown *)
      specialize (Hflag eq_refl). subst processing. cbn [fst].
      split_and!;
        cbn [rn_fields rn_calls rn_enqueued rn_started runNowQueue processingRunNow].
      * pose proof (filter_insert_length isDraining calls i _
                      (DrainReturned (Throw e)) Hd) as Hlen.
        cbn [isDraining] in Hlen. lia.
      * by rewrite app_nil_r.
      * intros _. right. by eapply existsb_insert_new.
    + specialize (Hflag eq_refl). subst processing. cbn [fst].
      split_and!;
        cbn [rn_fields rn_calls rn_enqueued rn_started runNowQueue processingRunNow].
      * pose proof (filter_insert_length isDraining calls i _
                      (DrainReturned OutOfFuel) Hd) as Hlen.
        cbn [isDraining] in Hlen. lia.
      * by rewrite app_nil_r.
      * intros _. right. by eapply existsb_insert_new.
    + (* the check goes on *)
      destruct (step (Await op k) w) as [check w']. cbn [fst].
      split_and!;
        cbn [rn_fields rn_calls rn_enqueued rn_started runNowQueue processingRunNow].
      * pose proof (filter_insert_length isDraining calls i _
                      (DrainAwaiting check) Hd) as Hlen.
        cbn [isDraining] in Hlen. lia.
      * by rewrite app_nil_r.
      * intros Hoff. destruct (Hidle Hoff) as [?|Hrej]; [by left|right].
        by eapply existsb_insert_keep.
    + (* the call has returned already *)
      cbn [fst]. split_and!;
        cbn [rn_fields rn_calls rn_enqueued rn_started runNowQueue processingRunNow].
      * by rewrite list_insert_id.
      * by rewrite app_nil_r.
      * by rewrite list_insert_id.
Qed.

Lemma recheckSteps_inv events s w :
  recheckInv s ->
  recheckInv (recheckSteps runUserCheckTask runGuildCheckTask events s w).1.
Proof.
  unfold recheckSteps. revert s w.
  induction events as [|event events IH]; intros s w Hinv; [done|].
  cbn [fold_left fst snd].
  destruct (recheckStep runUserCheckTask runGuildCheckTask event s w)
    as [s1 w1] eqn:Hstep.
  apply IH. pose proof (recheckStep_inv event s w Hinv) as H1. by rewrite Hstep in H1.
Qed.

(** Whatever calls of [enqueueRecheck] arrive and however they interleave:
    at most one call drains the queue, and one does exactly while the flag is
    set; the checks are started in the order of the requests, each once, and
    every request is either started or still queued; and when no call is
    draining, requests are left in the queue only if a check has thrown (they
    wait for the next call). *)
Theorem enqueueRecheck_fifo (events : list RecheckEvent) (w : World) :
  let s := (recheckSteps runUserCheckTask runGuildCheckTask events idleWorker w).1 in
  length (List.filter isDraining (rn_calls s)) =
    (if processingRunNow (rn_fields s) then 1 else 0) /\
  rn_started s ++ runNowQueue (rn_fields s) = rn_enqueued s /\
  (processingRunNow (rn_fields s) = false ->
   existsb hasRejected (rn_calls s) = false ->
   rn_started s = rn_enqueued s).
Proof.
  intros s. subst s.
  destruct (recheckSteps_inv events idleWorker w) as (Hone & Hfifo & Hidle).
  { split_and!; [done|done|by left]. }
  split_and!; [done|done|].
  intros Hoff Hnone. destruct (Hidle Hoff) as [Hempty|Hrej]; [|congruence].
  by rewrite -Hfifo Hempty app_nil_r.
Qed.

End RunNowQueueFacts.

(** The holder of 100 "mint-a" has "role-top" only: the check returns, adds
    "role-1" and leaves "role-top". *)
Lemma runUserCheck_converges_witness :
  let after := runUserCheck sampleEnv 3 "guild-1" "user-1" None sampleHolderWorld in
  after.1 = Ok tt /\
  memberRoles "guild-1" "user-1" sampleHolderWorld = Some ["role-top"] /\
  exists roles',
    memberRoles "guild-1" "user-1" after.2 = Some roles' /\
    "role-1" ∈ roles' /\ "role-top" ∈ roles'.
Proof.
  pose proof (runUserCheck_converges sampleEnv 3 "guild-1" "user-1" None
                sampleHolderWorld sampleHolderLink sampleGuildObject ["role-top"]
                sampleHolderSnapshot) as Hcheck.
  cbv zeta in Hcheck.
  destruct Hcheck as (Hr & _ & roles' & Hroles' & Hdecided & Hother).
  1-5: by vm_compute.
  assert (computeRoleDecisions
            (evaluateRules sampleEnv
               (rulesOfCheck "guild-1" None sampleHolderWorld) sampleHolderSnapshot
               (pricesOfCheck sampleEnv
                  (rulesOfCheck "guild-1" None sampleHolderWorld) sampleHolderWorld))
          = [{| dec_roleId := "role-1"; dec_shouldHave := Some true;
                dec_matchedRuleIds := ["r1"] |}]) as Hdecisions by by vm_compute.
  rewrite Hdecisions in Hdecided. rewrite Hdecisions in Hother.
  cbn zeta. split_and!; [done|by vm_compute|]. exists roles'. split_and!; [done| |].
  - apply (Hdecided {| dec_roleId := "role-1"; dec_shouldHave := Some true;
                       dec_matchedRuleIds := ["r1"] |} true);
      [by apply list_elem_of_singleton | done | | done | done].
    exists (gs_roles sampleGuild), {| role_id := "role-1"; role_position := 5 |}.
    split_and!; by vm_compute.
  - apply Hother; [|by apply (bool_decide_unpack _); vm_compute].
    by intros d ->%list_elem_of_singleton.
Defined.

(** In that check "role-1" is added, and a rule for it is satisfied. *)
Lemma runUserCheck_changes_justified_witness :
  let rules := rulesOfCheck "guild-1" None sampleHolderWorld in
  let prices := pricesOfCheck sampleEnv rules sampleHolderWorld in
  Exists (fun rule =>
            ev_satisfied (evaluateRule sampleEnv rule sampleHolderSnapshot prices)
            = Some true)
         (rulesOfRole "role-1" rules).
Proof.
  pose proof (runUserCheck_changes_justified sampleEnv 3 "guild-1" "user-1" None
                sampleHolderWorld sampleHolderLink sampleGuildObject ["role-top"]
                sampleHolderSnapshot) as Hcheck.
  cbv zeta in Hcheck.
  destruct Hcheck as (roles' & Hroles' & _ & Hadded & _).
  1-5: by vm_compute.
  cbn zeta. apply Hadded.
  - apply (bool_decide_unpack _). by vm_compute.
  - assert (memberRoles "guild-1" "user-1"
              (runUserCheck sampleEnv 3 "guild-1" "user-1" None sampleHolderWorld).2
            = Some ["role-top"; "role-1"]) as Hafter by by vm_compute.
    rewrite Hafter in Hroles'. injection Hroles' as <-.
    apply (bool_decide_unpack _). by vm_compute.
Defined.

(** On the sample guild the member loses "role-1", the role of the rule, and
    keeps "role-top". *)
Lemma removeManagedRoles_converges_witness :
  let after := removeManagedRolesForMember sampleEnv "guild-1" "user-1" sampleWorld in
  after.1 = Ok tt /\
  exists roles',
    memberRoles "guild-1" "user-1" after.2 = Some roles' /\
    ("role-1" ∉ roles') /\ "role-top" ∈ roles'.
Proof.
  pose proof (removeManagedRoles_converges sampleEnv "guild-1" "user-1" sampleWorld
                sampleGuildObject ["role-1"; "role-top"]) as Hremove.
  cbv zeta in Hremove.
  destruct Hremove as (Hr & _ & roles' & Hroles' & Hiff).
  1-2: by vm_compute.
  cbn zeta. split; [done|]. exists roles'. split_and!; [done| |].
  - intros [_ Hkept]%Hiff. apply Hkept. split_and!.
    + apply (bool_decide_unpack _). by vm_compute.
    + exists (gs_roles sampleGuild), {| role_id := "role-1"; role_position := 5 |}.
      split_and!; by vm_compute.
    + done.
  - apply Hiff. split.
    + apply (bool_decide_unpack _). by vm_compute.
    + intros [Hmanaged _]. revert Hmanaged.
      apply (bool_decide_unpack _). by vm_compute.
Defined.

(** The sample session is served as a challenge, and the signature of the
    sample wallet is accepted for it. *)
Lemma challenge_then_submit_witness :
  exists result,
    (run (submitVerifySignature sampleEnv (sampleSubmit "WALLET-A" "SIG-A"))
         sampleWorld).1 = Ok result /\
    sr_guildId result = "guild-1" /\ sr_discordUserId result = "user-1".
Proof.
  destruct (challenge_then_submit sampleEnv (sampleSubmit "WALLET-A" "SIG-A")
              sampleWorld
              {| vc_challengeMessage := vs_challengeMessage sampleSession;
                 vc_expiresAt := 600000 |}
              (replicate 64 1%Z) (replicate 32 2%Z))
    as (payload & result & Hdecode & Hrun & Hguild & Huser).
  1-6: by vm_compute.
  exists result. split; [done|].
  assert (decodeVerifyToken sampleEnv "jwt:s1" sampleWorld =
          (Ok {| vp_guildId := "guild-1"; vp_discordUserId := "user-1";
                 vp_sessionId := "s1" |}, sampleWorld)) as Hpayload by by vm_compute.
  change (si_token (sampleSubmit "WALLET-A" "SIG-A")) with "jwt:s1" in Hdecode.
  rewrite Hpayload in Hdecode. injection Hdecode as <-.
  by rewrite Hguild Huser.
Defined.


(** The sample member verifies "WALLET-A" and unlinks: the link is stored,
    then gone. *)
Lemma submit_then_unlink_witness :
  sampleSubmitted.1 =
    Ok {| sr_guildId := "guild-1"; sr_discordUserId := "user-1";
          sr_replaced := false |} /\
  (exists link,
     linkOf "guild-1" "user-1" sampleSubmitted.2 = Some link /\
     wl_walletPubkey link = "WALLET-A") /\
  linkOf "guild-1" "user-1"
    (run (unlinkWallet "guild-1" "user-1") sampleSubmitted.2).2 = None.
Proof.
  pose proof (submit_then_unlink sampleEnv (sampleSubmit "WALLET-A" "SIG-A")
                sampleWorld sampleSubmitted.2
                {| sr_guildId := "guild-1"; sr_discordUserId := "user-1";
                   sr_replaced := false |}) as Hboth.
  cbv zeta in Hboth.
  destruct Hboth as (_ & (link & Hlink & Hwallet & _) & _ & _ & Hgone & _).
  { by constructor. }
  { by vm_compute. }
  split_and!; [by vm_compute|by exists link|done].
Defined.

Lemma interactionReply_caught replyError content w :
  try_catch (interactionReply replyError content)
    (fun _ =>
       let! sent :=
         catch_null (interactionReply replyError "Command failed. Check logs.") in
       ret (default [] sent)) w
  = (Ok (delivered replyError content), w).
Proof.
  unfold try_catch, interactionReply, delivered, failedReply, bind, catch_null.
  destruct (replyError content); [|done]. unfold throw.
  by destruct (replyError "Command failed. Check logs.").
Qed.

Lemma failedReply_caught replyError w :
  (let! sent :=
     catch_null (interactionReply replyError "Command failed. Check logs.") in
   ret (default [] sent)) w
  = (Ok (failedReply replyError), w).
Proof.
  unfold interactionReply, failedReply, bind, catch_null.
  by destruct (replyError "Command failed. Check logs.").
Qed.

Lemma unlinkWallet_linked guildId discordUserId w link :
  linkOf guildId discordUserId w = Some link ->
  exists w1,
    run (unlinkWallet guildId discordUserId) w =
      (Ok {| ur_deleted := true; ur_wallet := Some (wl_walletPubkey link) |}, w1) /\
    wallet_links w1 =
      List.filter (fun l => negb (bool_decide (wl_id l = wl_id link))) (wallet_links w) /\
    discord w1 = discord w /\ gating_rules w1 = gating_rules w /\
    role_calls w1 = role_calls w /\
    exists entry,
      audit_log w1 = audit_log w ++ [entry] /\ al_action entry = VERIFY_UNLINKED.
Proof.
  intros Hfind.
  destruct (run (unlinkWallet guildId discordUserId) w) as [r2 w2] eqn:Hunlink.
  revert Hunlink. unfold unlinkWallet. cbn [run].
  unfold findWalletLink at 1. fold (linkOf guildId discordUserId w). rewrite Hfind.
  cbn [run].
  pose proof Hfind as [Hin _]%find_Some_elem_of.
  unfold deleteWalletLink, bind, get_world. cbn beta iota.
  assert (existsb (fun l => bool_decide (wl_id l = wl_id link)) (wallet_links w)
          = true) as ->.
  { apply existsb_exists. exists link.
    split; [by apply list_elem_of_In|by apply bool_decide_eq_true]. }
  unfold modify at 1. cbn beta iota. cbn [run].
  unfold writeAuditLog, bind, fresh_id, now, modify. cbn beta iota. cbn [run lift].
  intros [= <- <-]. eexists. split; [done|].
  split_and!; try done. eexists. by split.
Qed.

Lemma removeManagedRolesForMember_exits E guildId discordUserId w :
  (discord w !! guildId = None ->
   removeManagedRolesForMember E guildId discordUserId w = (Ok tt, w)) /\
  (forall gs e,
     discord w !! guildId = Some gs -> gs_fetchMe gs = inl e ->
     removeManagedRolesForMember E guildId discordUserId w = (Throw e, w)) /\
  (forall guild,
     botGuild guildId w = Some guild ->
     memberRoles guildId discordUserId w = None ->
     removeManagedRolesForMember E guildId discordUserId w = (Ok tt, w)).
Proof.
  split_and!.
  - intros Hgs. unfold removeManagedRolesForMember.
    unfold bind at 1, catch_null at 1, fetchGuild at 1, bind at 1, get_world at 1.
    cbn beta iota. by rewrite Hgs.
  - intros gs e Hgs Hme. unfold removeManagedRolesForMember.
    unfold bind at 1, catch_null at 1, fetchGuild at 1, bind at 1, get_world at 1.
    cbn beta iota. rewrite Hgs. unfold ret at 1. cbn beta iota.
    unfold bind at 1, fetchMe at 1, bind at 1, get_world at 1. cbn beta iota.
    cbn [guild_id]. by rewrite Hgs Hme.
  - intros guild (gs & bot & Hgs & Hbot & ->)%botGuild_Some Hmember.
    unfold memberRoles in Hmember. rewrite Hgs in Hmember. cbn in Hmember.
    unfold removeManagedRolesForMember.
    unfold bind at 1, catch_null at 1, fetchGuild at 1, bind at 1, get_world at 1.
    cbn beta iota. rewrite Hgs. unfold ret at 1. cbn beta iota.
    unfold bind at 1, fetchMe at 1, bind at 1, get_world at 1. cbn beta iota.
    cbn [guild_id]. rewrite Hgs Hbot. unfold ret at 1. cbn beta iota.
    unfold bind at 1, catch_null at 1, fetchMember at 1, bind at 1, get_world at 1.
    cbn beta iota. cbn [guild_id]. by rewrite Hgs Hmember.
Qed.

Lemma removeManagedRolesForMember_frame E guildId discordUserId w :
  sameAsideRoles w (removeManagedRolesForMember E guildId discordUserId w).2 /\
  (removeManagedRolesForMember E guildId discordUserId w).1 <> OutOfFuel.
Proof.
  destruct (removeManagedRolesForMember_exits E guildId discordUserId w)
    as (Hnone & Hme & Hmember).
  destruct (discord w !! guildId) as [gs|] eqn:Hgs; cycle 1.
  { by rewrite Hnone. }
  destruct (gs_fetchMe gs) as [e|bot] eqn:Hbot.
  { by rewrite (Hme gs e). }
  assert (botGuild guildId w = Some {| guild_id := guildId; guild_me := Some bot |})
    as Hguild by by rewrite /botGuild Hgs Hbot.
  destruct (memberRoles guildId discordUserId w) as [roles|] eqn:Hroles; cycle 1.
  { by rewrite (Hmember _ Hguild). }
  destruct (removeManagedRolesForMember_reaches E guildId discordUserId w _ roles
              Hguild Hroles) as (w' & roles' & -> & Hframe & _).
  by split.
Qed.

(** The [/unlink] command of a member with a wallet link, with the worker
    set: the link is deleted and VERIFY_UNLINKED is logged at once; then the
    managed roles are removed.  The user reads that the wallet is unlinked
    and the managed roles are removed whenever the removal returns, also when
    it has removed nothing because the bot cannot resolve the guild or the
    member; and when the bot's own member cannot be fetched, the user reads
    "Command failed. Check logs." although the link is gone for good. *)
Theorem unlinkCommand_linked (E : Env) (replyError : string -> option Error)
    (guildId userId : string) (w : World) (link : WalletLink) :
  let after := unlinkCommand E replyError (Some guildId) userId true w in
  let unlinked := (run (unlinkWallet guildId userId) w).2 in
  let removal := removeManagedRolesForMember E guildId userId unlinked in
  let done_ :=
    "Wallet " +:+ wl_walletPubkey link +:+ " unlinked and managed roles removed." in
  guildId <> "" ->
  walletLinksKeyed w ->
  linkOf guildId userId w = Some link ->
  after.2 = removal.2 /\
  linkOf guildId userId after.2 = None /\
  (exists entry,
     entry ∈ audit_log after.2 /\ al_action entry = VERIFY_UNLINKED) /\
  after.1 = Ok (match removal.1 with
                | Ok _ => delivered replyError done_
                | _ => failedReply replyError
                end) /\
  (forall gs e,
     discord w !! guildId = Some gs -> gs_fetchMe gs = inl e ->
     after.1 = Ok (failedReply replyError) /\ discord after.2 = discord w /\
     role_calls after.2 = role_calls w) /\
  (discord w !! guildId = None \/
   (botGuild guildId w <> None /\ memberRoles guildId userId w = None) ->
   after.1 = Ok (delivered replyError done_) /\ discord after.2 = discord w /\
   role_calls after.2 = role_calls w).
Proof.
  intros after unlinked removal done_ Hguild Hkeyed Hlink.
  destruct (unlinkWallet_linked guildId userId w link Hlink)
    as (w1 & Hrun & Hlinks & Hdiscord & Hrules & Hcalls & entry & Haudit & Haction).
  assert (unlinked = w1) as Hw1 by by rewrite /unlinked Hrun.
  destruct (removeManagedRolesForMember_frame E guildId userId w1)
    as [(_ & _ & Hlinks' & _) Hfuel].
  assert (after =
          (Ok (match removal.1 with
               | Ok _ => delivered replyError done_
               | _ => failedReply replyError
               end), removal.2)) as Hafter.
  { subst after removal. rewrite Hw1. unfold unlinkCommand.
    rewrite /nonEmpty bool_decide_false //. cbn [negb].
    unfold try_catch at 1, bind at 1. rewrite Hrun. cbn [ur_deleted andb].
    unfold bind at 1.
    destruct (removeManagedRolesForMember E guildId userId w1) as [[[]|e|] w2]
      eqn:Hremoval; cbn [fst snd] in *.
    - change (unlinkedContent _) with done_.
      apply (interactionReply_caught replyError done_ w2).
    - apply failedReply_caught.
    - done. }
  assert (exists entry', entry' ∈ audit_log removal.2 /\
                         al_action entry' = VERIFY_UNLINKED) as Hlogged.
  { pose proof (removeManagedRolesForMember_gated E guildId userId w1)
      as (calls & entries & _ & Hentries & _).
    exists entry. split; [|done]. subst removal. rewrite Hw1 Hentries Haudit.
    apply elem_of_app. left. apply elem_of_app. right. by apply list_elem_of_singleton. }
  rewrite Hafter. cbn [fst snd]. split_and!; [done| |done|done| |].
  - subst removal. rewrite Hw1. unfold linkOf. rewrite Hlinks' Hlinks.
    pose proof Hlink as [Hin [Hg Hu]%andb_true_iff]%find_Some_elem_of.
    apply bool_decide_eq_true in Hg, Hu.
    by apply find_none_filter_key.
  - intros gs e Hgs Hme.
    destruct (removeManagedRolesForMember_exits E guildId userId w1) as (_ & Hexit & _).
    assert (discord w1 !! guildId = Some gs) as Hgs1 by by rewrite Hdiscord.
    subst removal. rewrite Hw1 (Hexit gs e Hgs1 Hme).
    cbn [fst snd]. by split_and!.
  - intros Hunresolved.
    destruct (removeManagedRolesForMember_exits E guildId userId w1)
      as (Hnone & _ & Hmember).
    subst removal. rewrite Hw1.
    destruct Hunresolved as [Hgs|[Hbot Hnomember]].
    + assert (discord w1 !! guildId = None) as Hgs1 by by rewrite Hdiscord.
      rewrite (Hnone Hgs1). cbn [fst snd]. by split_and!.
    + destruct (botGuild guildId w) as [guild|] eqn:Hbg; [|done].
      assert (botGuild guildId w1 = Some guild) as Hbg1
        by by rewrite /botGuild Hdiscord.
      assert (memberRoles guildId userId w1 = None) as Hnomember1
        by by rewrite /memberRoles Hdiscord.
      rewrite (Hmember guild Hbg1 Hnomember1). cbn [fst snd]. by split_and!.
Qed.

(** The other branches of [/unlink]: outside a server nothing is done; for a
    member with no wallet link nothing is changed; and without a worker the
    link is deleted, no role is touched, and the user still reads that the
    managed roles are removed. *)
Theorem unlinkCommand_other_branches (E : Env) (replyError : string -> option Error)
    (guildId userId : string) (workerRef : bool) (w : World) :
  unlinkCommand E replyError None userId workerRef w =
    (Ok (delivered replyError "This command must be used in a server."), w) /\
  unlinkCommand E replyError (Some "") userId workerRef w =
    (Ok (delivered replyError "This command must be used in a server."), w) /\
  (guildId <> "" -> linkOf guildId userId w = None ->
   unlinkCommand E replyError (Some guildId) userId workerRef w =
     (Ok (delivered replyError "No wallet link found."), w)) /\
  (forall link,
     guildId <> "" -> linkOf guildId userId w = Some link ->
     unlinkCommand E replyError (Some guildId) userId false w =
       (Ok (delivered replyError
              ("Wallet " +:+ wl_walletPubkey link +:+
               " unlinked and managed roles removed.")),
        (run (unlinkWallet guildId userId) w).2)).
Proof.
  split_and!.
  - apply interactionReply_caught.
  - apply interactionReply_caught.
  - intros Hguild Hnone. unfold unlinkCommand.
    rewrite /nonEmpty bool_decide_false //. cbn [negb].
    pose proof (interactionReply_caught replyError "No wallet link found." w) as Hreply.
    unfold try_catch in *. unfold bind at 1.
    assert (run (unlinkWallet guildId userId) w =
            (Ok {| ur_deleted := false; ur_wallet := None |}, w)) as ->.
    { unfold unlinkWallet. cbn [run]. unfold findWalletLink at 1.
      fold (linkOf guildId userId w). by rewrite Hnone. }
    cbn [ur_deleted andb]. unfold bind at 1, ret at 1.
    change (unlinkedContent _) with "No wallet link found.".
    exact Hreply.
  - intros link Hguild Hlink.
    destruct (unlinkWallet_linked guildId userId w link Hlink) as (w1 & Hrun & _).
    unfold unlinkCommand.
    rewrite /nonEmpty bool_decide_false //. cbn [negb].
    rewrite Hrun. cbn [snd].
    set (done_ := "Wallet " +:+ wl_walletPubkey link +:+
                  " unlinked and managed roles removed.").
    pose proof (interactionReply_caught replyError done_ w1) as Hreply.
    unfold try_catch in *. unfold bind at 1. rewrite Hrun.
    cbn [ur_deleted andb]. unfold bind at 1, ret at 1.
    change (unlinkedContent _) with done_.
    exact Hreply.
Qed.

(** In a guild where the bot cannot fetch its own member, [/unlink] of the
    holder deletes the link, removes no role, and replies that the command
    failed. *)
Lemma unlinkCommand_linked_witness :
  let after :=
    unlinkCommand sampleEnv (fun _ => None) (Some "guild-1") "user-1" true
      sampleNoBotWorld in
  after.1 = Ok ["Command failed. Check logs."] /\
  linkOf "guild-1" "user-1" sampleNoBotWorld = Some sampleHolderLink /\
  linkOf "guild-1" "user-1" after.2 = None /\
  memberRoles "guild-1" "user-1" after.2 = Some ["role-1"; "role-top"].
Proof.
  pose proof (unlinkCommand_linked sampleEnv (fun _ => None) "guild-1" "user-1"
                sampleNoBotWorld sampleHolderLink) as Hunlink.
  cbv zeta in Hunlink.
  destruct Hunlink as (_ & Hgone & _ & _ & Hfailed & _).
  { done. }
  { apply (bool_decide_unpack _). by vm_compute. }
  { by vm_compute. }
  destruct (Hfailed _ "Missing Access" eq_refl eq_refl) as (Hreply & Hdiscord & _).
  cbn zeta. split_and!; [done|by vm_compute|done|].
  unfold memberRoles. by rewrite Hdiscord.
Defined.

(** ** Price client: a call after a call *)

Lemma freshQuote_rowsOf ttlSeconds w id :
  freshQuote ttlSeconds w id =
  find (isFresh ttlSeconds w) (rowsOf id (price_cache w)).
Proof. unfold freshQuote, rowsOf. by rewrite find_filter. Qed.

Lemma freshQuote_same_rows ttlSeconds w w' id :
  clock w' = clock w ->
  rowsOf id (price_cache w') = rowsOf id (price_cache w) ->
  freshQuote ttlSeconds w' id = freshQuote ttlSeconds w id.
Proof.
  intros Hclock Hrows. rewrite !freshQuote_rowsOf Hrows.
  apply find_ext. intros row. unfold isFresh. by rewrite Hclock.
Qed.

Lemma find_keyed (f : PriceCache -> bool) (rows : list PriceCache) (row : PriceCache) :
  NoDup (map pc_assetId rows) -> row ∈ rows -> f row = true ->
  (forall x, f x = true -> pc_assetId x = pc_assetId row) ->
  find f rows = Some row.
Proof.
  intros Hnodup Hin Hrow Hkey.
  induction rows as [|x rows IH]; [by apply elem_of_nil in Hin|].
  cbn [map] in Hnodup. apply NoDup_cons in Hnodup as [Hx Hnodup].
  cbn [find]. apply elem_of_cons in Hin as [<-|Hin]; [by rewrite Hrow|].
  destruct (f x) eqn:Hfx; [|by apply IH].
  destruct Hx. rewrite (Hkey x Hfx). apply list_elem_of_fmap. by exists row.
Qed.

(** The stored quotes after a call that returned [prices]: a quote that was
    within the TTL is still the stored one; an id that was sent upstream has a
    stored quote within the TTL exactly if the call returned a price for it,
    and the stored price is the returned one as a decimal. *)
Lemma getUsdPrices_stored E assetIds w prices w1 :
  priceCacheKeyed w ->
  getUsdPrices E priceTtlSeconds assetIds w = (Ok prices, w1) ->
  clock w1 = clock w /\ priceCacheKeyed w1 /\
  (forall id, prices !! id <> None -> id ∈ assetIds /\ id <> "") /\
  forall id, id ∈ assetIds -> id <> "" ->
    match freshQuote priceTtlSeconds w id with
    | Some row =>
        freshQuote priceTtlSeconds w1 id = Some row /\
        prices !! id = Some (decimalToNumber E (pc_priceUsd row))
    | None =>
        match prices !! id with
        | Some price =>
            exists row, freshQuote priceTtlSeconds w1 id = Some row /\
                        pc_priceUsd row = numberToDecimal E price
        | None => freshQuote priceTtlSeconds w1 id = None
        end
    end.
Proof.
  intros [Hnodup Hkeys] Hrun.
  pose proof (getUsdPrices_unfold E priceTtlSeconds assetIds w Hnodup) as Hunfold.
  cbv zeta in Hunfold. rewrite Hunfold in Hrun. clear Hunfold.
  set (uniqueIds := uniqueInOrder (List.filter nonEmpty assetIds)) in *.
  set (missing := missingIds priceTtlSeconds w assetIds) in *.
  set (cached := cachedPrices E priceTtlSeconds w uniqueIds) in *.
  assert (forall id, cached !! id =
            if bool_decide (id ∈ uniqueIds)
            then (fun row => decimalToNumber E (pc_priceUsd row)) <$>
                   freshQuote priceTtlSeconds w id
            else None) as Hcached.
  { intros id. by apply cached_result. }
  assert (forall id, id ∈ uniqueIds <-> id ∈ assetIds /\ id <> "") as Hunique.
  { intros id. apply uniqueIds_elem_of. }
  case_bool_decide as Hempty.
  { injection Hrun as <- <-. split_and!; [done|done| |].
    - intros id. by rewrite lookup_empty.
    - intros id Hin Hne. assert (id ∈ uniqueIds) as Hid by by apply Hunique.
      rewrite Hempty in Hid. by apply elem_of_nil in Hid. }
  case_bool_decide as Hmissing.
  { injection Hrun as <- <-. split_and!; [done|done| |].
    - intros id. rewrite Hcached. case_bool_decide; [|done]. intros _.
      by apply Hunique.
    - intros id Hin Hne. assert (id ∈ uniqueIds) as Hid by by apply Hunique.
      rewrite Hcached bool_decide_true //.
      by destruct (freshQuote priceTtlSeconds w id). }
  destruct (coingeckoSimplePrice E missing) as [e|status json]; [done|].
  destruct (status_ok status); [|done].
  injection Hrun as <- <-.
  set (updates := quoteRows E json (clock w) missing).
  assert (NoDup (map pc_assetId updates)) as Hupdates.
  { apply quoteRows_NoDup, missingIds_NoDup. }
  assert (Forall (fun id => id <> "") missing) as Hmissing_ne.
  { apply Forall_forall. intros id [_ [? _]]%missingIds_elem_of. done. }
  destruct (upsertAll_keyed updates (price_cache w)) as [Hnodup1 Hkeys1].
  { by apply quoteRows_nonEmpty. }
  { done. }
  cbn [clock price_cache with_price_cache with_price_calls].
  split_and!; [done|done| |].
  - intros id. rewrite addQuotes_lookup. case_bool_decide as Hin.
    + intros _. apply missingIds_elem_of in Hin as (? & ? & _). done.
    + rewrite Hcached. case_bool_decide; [|done]. intros _. by apply Hunique.
  - intros id Hin Hne. assert (id ∈ uniqueIds) as Hid by by apply Hunique.
    rewrite addQuotes_lookup.
    destruct (freshQuote priceTtlSeconds w id) as [row|] eqn:Hfresh.
    + assert (id ∉ missing) as Hnot.
      { intros (_ & _ & Hnone)%missingIds_elem_of. congruence. }
      rewrite bool_decide_false // Hcached bool_decide_true // Hfresh.
      split; [|done]. rewrite -Hfresh. apply freshQuote_same_rows; [done|].
      cbn [price_cache with_price_cache with_price_calls].
      apply upsertAll_other. intros [Hmiss _]%quoteRows_keys. done.
    + assert (id ∈ missing) as Hmiss by by apply missingIds_elem_of.
      rewrite bool_decide_true //.
      destruct (quoteOf json id) as [price|] eqn:Hquote.
      * destruct (upsertAll_written updates (price_cache w)
                    (quoteRow E (clock w) id price) Hupdates)
          as (row & Hrow & Hrid & Hprice & Hat).
        { by apply quoteRows_elem. }
        exists row. split; [|done].
        apply find_keyed; [done|done| |].
        -- cbn [pc_assetId quoteRow] in Hrid. cbn [pc_fetchedAt quoteRow] in Hat.
           rewrite Hrid bool_decide_true //. unfold isFresh.
           cbn [clock with_price_cache with_price_calls]. rewrite Hat.
           apply bool_decide_eq_true. unfold priceTtlSeconds. lia.
        -- intros x [Hx _]%andb_true_iff. apply bool_decide_eq_true in Hx.
           by rewrite Hx Hrid.
      * rewrite Hcached bool_decide_true // Hfresh. cbn [fmap option_fmap option_map].
        rewrite -Hfresh. apply freshQuote_same_rows; [done|].
        cbn [price_cache with_price_cache with_price_calls].
        apply upsertAll_other. intros [_ [? Hsome]]%quoteRows_keys. congruence.
Qed.

(** A second call for the same ids at the same time.  It asks upstream for
    exactly the ids the first call returned no price for, and asks nothing
    when there is none: what the provider did not quote is asked for again at
    every call.  For an id the first call priced, the second call returns the
    stored decimal as a number: the same value when the first call served it
    from the cache, and the price rounded through the decimal column when the
    first call fetched it. *)
Theorem getUsdPrices_twice (E : Env) (assetIds : list string) (w w1 : World)
    (prices : gmap string number) :
  let second := getUsdPrices E priceTtlSeconds assetIds w1 in
  let unpriced := unpricedIds assetIds prices in
  priceCacheKeyed w ->
  getUsdPrices E priceTtlSeconds assetIds w = (Ok prices, w1) ->
  price_calls second.2 =
    price_calls w1 ++ (if bool_decide (unpriced = []) then [] else [unpriced]) /\
  (unpriced = [] -> second.2 = w1) /\
  forall prices2, second.1 = Ok prices2 ->
    forall id price, prices !! id = Some price ->
      match freshQuote priceTtlSeconds w id with
      | Some _ => prices2 !! id = Some price
      | None => prices2 !! id = Some (decimalToNumber E (numberToDecimal E price))
      end.
Proof.
  intros second unpriced Hkeyed Hrun.
  destruct (getUsdPrices_stored E assetIds w prices w1 Hkeyed Hrun)
    as (Hclock & [Hnodup1 Hkeys1] & Hdom & Hstored).
  assert (missingIds priceTtlSeconds w1 assetIds = unpriced) as Hmissing.
  { unfold missingIds, unpricedIds, unpriced.
    apply filter_ext_in_iff. intros id Hid%list_elem_of_In.
    apply uniqueIds_elem_of in Hid as [Hin Hne].
    specialize (Hstored id Hin Hne).
    destruct (freshQuote priceTtlSeconds w id) as [row|].
    - destruct Hstored as [-> ->]. done.
    - destruct (prices !! id) as [price|].
      + destruct Hstored as (row & -> & _). done.
      + by rewrite Hstored. }
  pose proof (getUsdPrices_unfold E priceTtlSeconds assetIds w1 Hnodup1) as Hunfold.
  cbv zeta in Hunfold. rewrite Hmissing in Hunfold.
  set (uniqueIds := uniqueInOrder (List.filter nonEmpty assetIds)) in *.
  set (cached := cachedPrices E priceTtlSeconds w1 uniqueIds) in *.
  assert (forall id price, prices !! id = Some price ->
            (id ∉ unpriced) /\
            cached !! id =
              match freshQuote priceTtlSeconds w id with
              | Some _ => Some price
              | None => Some (decimalToNumber E (numberToDecimal E price))
              end) as Hpriced.
  { intros id price Hprice.
    destruct (Hdom id) as [Hin Hne]; [congruence|].
    assert (id ∈ uniqueIds) as Hid by by apply uniqueIds_elem_of.
    split.
    { unfold unpriced, unpricedIds.
      intros [_ Hnone]%list_elem_of_In%filter_In. by rewrite Hprice in Hnone. }
    unfold cached, cachedPrices. rewrite cached_result // bool_decide_true //.
    specialize (Hstored id Hin Hne).
    destruct (freshQuote priceTtlSeconds w id) as [row|].
    - destruct Hstored as [-> Heq]. cbn. congruence.
    - rewrite Hprice in Hstored. destruct Hstored as (row & -> & Hdecimal).
      cbn. by rewrite Hdecimal. }
  subst second. rewrite Hunfold. clear Hunfold.
  case_bool_decide as Hempty.
  { assert (unpriced = []) as -> by by rewrite /unpriced /unpricedIds -/uniqueIds Hempty.
    cbn [fst snd]. rewrite bool_decide_true // app_nil_r. split_and!; [done|done|].
    intros prices2 [= <-] id price Hprice.
    destruct (Hdom id) as [Hin Hne]; [congruence|].
    assert (id ∈ uniqueIds) as Hid by by apply uniqueIds_elem_of.
    rewrite Hempty in Hid. by apply elem_of_nil in Hid. }
  case_bool_decide as Hnone.
  { cbn [fst snd]. rewrite app_nil_r. split_and!; [done|done|].
    intros prices2 [= <-] id price Hprice.
    destruct (Hpriced id price Hprice) as [_ ->].
    by destruct (freshQuote priceTtlSeconds w id). }
  destruct (coingeckoSimplePrice E unpriced) as [e|status json].
  { cbn [fst snd price_calls with_price_calls]. by split_and!. }
  destruct (status_ok status); cycle 1.
  { cbn [fst snd price_calls with_price_calls]. by split_and!. }
  cbn [fst snd price_calls with_price_calls with_price_cache]. split_and!; [done|done|].
  intros prices2 [= <-] id price Hprice.
  destruct (Hpriced id price Hprice) as [Hnot Hvalue].
  rewrite addQuotes_lookup bool_decide_false // Hvalue.
  by destruct (freshQuote priceTtlSeconds w id).
Qed.

Lemma getUsdPrices_twice_witness :
  let first := getUsdPrices sampleEnv priceTtlSeconds sampleAssetIds samplePriceWorld in
  let second := getUsdPrices sampleEnv priceTtlSeconds sampleAssetIds first.2 in
  price_calls first.2 = [["usdc"; "bonk"; "broken"]] /\
  price_calls second.2 = [["usdc"; "bonk"; "broken"]; ["bonk"; "broken"]].
Proof.
  assert (priceCacheKeyed samplePriceWorld) as Hkeyed.
  { split; [apply (bool_decide_unpack _); by vm_compute|].
    by repeat constructor. }
  pose proof (getUsdPrices_twice sampleEnv sampleAssetIds samplePriceWorld
                (getUsdPrices sampleEnv priceTtlSeconds sampleAssetIds
                   samplePriceWorld).2
                {[ "sol" := float_of_Z 150; "usdc" := 1%float ]} Hkeyed) as Htwice.
  cbv zeta in Htwice. destruct Htwice as (Hcalls & _); [by vm_compute|].
  cbn zeta. split; [by vm_compute|]. rewrite Hcalls. by vm_compute.
Defined.

(** ** Reconciliation worker: what a check asks the chain *)

(** A check asks the chain only for what its rules need: for a guild without
    token rules the token RPC has no part in the check, whatever it would
    answer, and for a guild without collection rules the indexer has none.
    An outage of the one cannot hold up the checks of guilds that only use
    the other. *)
Theorem runUserCheck_asks_what_rules_need (E : Env) (fuel : nat)
    (guildId discordUserId : string) (preloadedRules : option (list GatingRule))
    (w : World) :
  let rules := rulesOfCheck guildId preloadedRules w in
  (checkNeedsTokens rules = false ->
   forall rpc,
     runUserCheck (withTokenRpc rpc E) fuel guildId discordUserId preloadedRules w =
     runUserCheck E fuel guildId discordUserId preloadedRules w) /\
  (checkNeedsNfts rules = false ->
   forall das,
     runUserCheck (withIndexer das E) fuel guildId discordUserId preloadedRules w =
     runUserCheck E fuel guildId discordUserId preloadedRules w).
Proof.
  intros rules.
  assert (forall E',
    runUserCheck E' fuel guildId discordUserId preloadedRules w =
    (if bool_decide (length rules = 0) then ret tt
     else
       let! walletLink := findWalletLink guildId discordUserId in
       match walletLink with
       | None => ret tt
       | Some walletLink =>
       let! prices :=
         try_catch (getUsdPrices E' priceTtlSeconds (usdRuleAssetIds rules))
                   (fun _ => ret ∅) in
       let! guild := catch_null (fetchGuild guildId) in
       match guild with
       | None => ret tt
       | Some guild =>
       let! guild := fetchMe guild in
       let! member := catch_null (fetchMember guild discordUserId) in
       match member with
       | None => ret tt
       | Some member =>
       match getWalletSnapshot E' fuel (wl_walletPubkey walletLink)
               (checkNeedsTokens rules) (checkNeedsNfts rules) with
       | OutOfFuel => lift OutOfFuel
       | Throw _ => updateLastCheckedAt (wl_id walletLink)
       | Ok snapshot =>
           let evaluations := evaluateRules E' rules snapshot prices in
           let decisions := computeRoleDecisions evaluations in
           for_each decisions
             (fun decision =>
                syncRoleDecision E' guild member guildId discordUserId decision
                  evaluations) ;;
           updateLastCheckedAt (wl_id walletLink)
       end
       end
       end
       end) w) as Hrules.
  { intros E'. unfold runUserCheck. unfold bind at 1.
    subst rules. by destruct preloadedRules. }
  split.
  - intros Hneeds rpc. rewrite !Hrules Hneeds. reflexivity.
  - intros Hneeds das. rewrite !Hrules Hneeds. reflexivity.
Qed.
